(** * PAI memory enhancement: synthesis pipeline, linear search, index store

    A shallow embedding of three tools of the repository and the theorems
    that relate them to the written specification:

    - [WeeklySynthesis]  (src/tools/WeeklySynthesis.ts): keyword extraction,
      pattern grouping, insight selection, the learning loader;
    - [MemorySearch]     (src/unnamed/part_000, first file): the linear
      search engine with its stateful global pattern object;
    - [MemoryDatabase]   (src/unnamed/part_000, second file): the SQLite
      table, its upsert and the ranked query.

    Modelling conventions.  JavaScript strings are modelled by [string]
    (documents are taken to be ASCII text, so [toLowerCase] only touches
    A-Z).  Arrays are lists, a JS [Map] is an association list kept in
    insertion order, [Array.prototype.sort] is a stable insertion sort,
    [undefined]/[null] is [None].  Built-ins of the platform whose result
    is not computed by the repository itself (number formatting of a
    floating point value, the Date constructors, the regular-expression
    engine applied to a user supplied pattern, the FTS5 ranking) are
    Section variables. *)

From Stdlib Require Import List String Ascii Bool Arith PeanoNat ZArith NArith QArith Lia.
From Stdlib Require Import Sorting.Permutation Sorting.Sorted.
From Stdlib Require Import Numbers.DecimalString Init.Decimal.
Import ListNotations.

Local Close Scope Q_scope.
Local Open Scope string_scope.
Local Open Scope list_scope.

(** ** JavaScript string and array primitives *)

Module JS.

(** [String.prototype.toLowerCase] restricted to ASCII. *)
Definition lowerChar (c : ascii) : ascii :=
  let n := nat_of_ascii c in
  if (65 <=? n)%nat && (n <=? 90)%nat then ascii_of_nat (n + 32) else c.

Fixpoint toLowerCase (s : string) : string :=
  match s with
  | EmptyString => EmptyString
  | String c r => String (lowerChar c) (toLowerCase r)
  end.

(** [s.startsWith(p)]. *)
Fixpoint startsWith (s p : string) {struct p} : bool :=
  match p, s with
  | EmptyString, _ => true
  | String _ _, EmptyString => false
  | String a p', String b s' => Ascii.eqb a b && startsWith s' p'
  end.

(** [s.includes(sub)]: substring containment. *)
Fixpoint includes (s sub : string) : bool :=
  startsWith s sub ||
  match s with
  | EmptyString => false
  | String _ r => includes r sub
  end.

(** [s.endsWith(suffix)]. *)
Definition endsWith (s suffix : string) : bool :=
  let n := String.length s in
  let k := String.length suffix in
  (k <=? n)%nat && String.eqb (substring (n - k) k s) suffix.

Definition isDigit (c : ascii) : bool :=
  let n := nat_of_ascii c in (48 <=? n)%nat && (n <=? 57)%nat.

Definition isAlpha (c : ascii) : bool :=
  let n := nat_of_ascii c in
  ((65 <=? n)%nat && (n <=? 90)%nat) || ((97 <=? n)%nat && (n <=? 122)%nat).

(** [String(n)] for a non-negative integer. *)
Definition numberToString (n : nat) : string :=
  NilEmpty.string_of_uint (Nat.to_uint n).

(** [[...new Set(xs)]]: the distinct elements in order of first
    occurrence. *)
Fixpoint dedupeFrom (seen xs : list string) : list string :=
  match xs with
  | [] => []
  | x :: r =>
      if existsb (String.eqb x) seen then dedupeFrom seen r
      else x :: dedupeFrom (x :: seen) r
  end.

Definition dedupe (xs : list string) : list string := dedupeFrom [] xs.

(** [Array.prototype.sort(cmp)] is stable; [before x y] says that the
    comparator does not order [y] strictly in front of [x]. *)
Fixpoint insertBy {A} (before : A -> A -> bool) (x : A) (l : list A) : list A :=
  match l with
  | [] => [x]
  | y :: r => if before x y then x :: y :: r else y :: insertBy before x r
  end.

Definition sortBy {A} (before : A -> A -> bool) (l : list A) : list A :=
  fold_right (insertBy before) [] l.

(** A JS [Date]: its time value in milliseconds, [None] for an
    [Invalid Date] (time value NaN). *)
Definition JSDate := option Z.

(** [a < b] on dates: comparison of the time values, false when either
    is NaN. *)
Definition dateLt (a b : JSDate) : bool :=
  match a, b with
  | Some x, Some y => (x <? y)%Z
  | _, _ => false
  end.

Definition dateLe (a b : JSDate) : bool :=
  match a, b with
  | Some x, Some y => (x <=? y)%Z
  | _, _ => false
  end.

(** The regular expressions that the tools apply to file names and
    paths are sequences of single-character classes of fixed length. *)
Inductive CharClass :=
| Digit
| Lit (c : ascii)
| AnyOf (cs : list ascii).

Definition classMatches (cl : CharClass) (c : ascii) : bool :=
  match cl with
  | Digit => isDigit c
  | Lit d => Ascii.eqb c d
  | AnyOf cs => existsb (Ascii.eqb c) cs
  end.

Fixpoint lits (s : string) : list CharClass :=
  match s with
  | EmptyString => []
  | String c r => Lit c :: lits r
  end.

Definition digits (n : nat) : list CharClass := repeat Digit n.

(** The text matched by the pattern at the start of [s]. *)
Fixpoint matchPrefix (pat : list CharClass) (s : string) : option string :=
  match pat with
  | [] => Some EmptyString
  | cl :: pat' =>
      match s with
      | EmptyString => None
      | String c r =>
          if classMatches cl c then
            match matchPrefix pat' r with
            | Some m => Some (String c m)
            | None => None
            end
          else None
      end
  end.

(** The text of the leftmost match of the pattern in [s]. *)
Fixpoint findPattern (pat : list CharClass) (s : string) : option string :=
  match matchPrefix pat s with
  | Some m => Some m
  | None =>
      match s with
      | EmptyString => None
      | String _ r => findPattern pat r
      end
  end.

(** [parseInt] on a run of decimal digits. *)
Fixpoint parseDigits (acc : nat) (s : string) : nat :=
  match s with
  | EmptyString => acc
  | String c r => parseDigits (10 * acc + (nat_of_ascii c - 48)) r
  end.

Definition parseInt (s : string) : nat := parseDigits 0 s.

(** [file.replace(/\.md$/, '')] *)
Definition stripMdTitle (f : string) : string :=
  if endsWith f ".md" then substring 0 (String.length f - 3) f else f.

(** An instance of [toFixed(1)] on non-negative rationals in exact
    arithmetic: the nearest tenth, the larger one on a tie.  The
    platform applies the same rule to the floating point value, so the
    two agree whenever the quotient is a binary fraction, as 3.0 is. *)
Definition toFixed1_exact (q : Q) : string :=
  let d := Z.pos (Qden q) in
  let n := ((2 * 10 * Qnum q + d) / (2 * d))%Z in
  (numberToString (Z.to_nat (n / 10)) ++ "." ++ numberToString (Z.to_nat (n mod 10)))%string.

(** [s.slice(a, b)] for [0 <= a <= b]. *)
Definition slice (s : string) (a b : nat) : string := substring a (b - a) s.

End JS.

(** ** src/tools/WeeklySynthesis.ts *)

Module WeeklySynthesis.
Import JS.

Inductive Category := ALGORITHM | SYSTEM.

(** [interface Learning].  [rating] is produced by [parseInt] on a
    digit run, hence a natural number when present. *)
Record Learning := mkLearning {
  file : string;
  path : string;
  date : string;
  title : string;
  content : string;
  category : Category;
  rating : option N
}.

(** [interface Pattern]. *)
Record Pattern := mkPattern {
  theme : string;
  occurrences : nat;
  learnings : list Learning;
  insight : string
}.

(** [interface SynthesisResult]. *)
Record SynthesisResult := mkResult {
  weekStart : string;
  weekEnd : string;
  totalLearnings : nat;
  patterns : list Pattern;
  topInsights : list string;
  lowRatings : list Learning
}.

(** *** extractKeywords *)

(** Character class [[a-zA-Z0-9_-]]. *)
Definition isTagChar (c : ascii) : bool :=
  isAlpha c || isDigit c || Ascii.eqb c "_"%char || Ascii.eqb c "-"%char.

Definition flushTag (cur : option string) : list string :=
  match cur with
  | Some (String c r) => [String "#"%char (String c r)]
  | _ => []
  end.

(** [content.match(/#[a-zA-Z0-9_-]+/g) || []], as a left-to-right scan.
    [cur = Some run] means that a [#] has been read and [run] holds the
    tag characters read after it. *)
Fixpoint scanHashtags (cur : option string) (s : string) : list string :=
  match s with
  | EmptyString => flushTag cur
  | String c r =>
      match cur with
      | Some run =>
          if isTagChar c then scanHashtags (Some (run ++ String c EmptyString)%string) r
          else flushTag cur ++
               scanHashtags (if Ascii.eqb c "#"%char then Some EmptyString else None) r
      | None =>
          scanHashtags (if Ascii.eqb c "#"%char then Some EmptyString else None) r
      end
  end.

Definition matchHashtags (content : string) : list string :=
  scanHashtags None content.

Definition techTerms : list string :=
  [ "bug"; "fix"; "error"; "issue"; "problem";
    "feature"; "implement"; "add"; "create";
    "refactor"; "optimize"; "improve";
    "test"; "debug"; "deploy";
    "api"; "database"; "hook"; "skill";
    "session"; "memory"; "learning"; "context" ].

Definition extractKeywords (content : string) : list string :=
  let tags := matchHashtags content in
  let lowerContent := toLowerCase content in
  dedupe (tags ++ filter (fun term => includes lowerContent term) techTerms).

(** The document contains the keyword. *)
Definition hasKeyword (k : string) (l : Learning) : bool :=
  existsb (String.eqb k) (extractKeywords (content l)).

Definition docsWith (k : string) (ls : list Learning) : list Learning :=
  filter (hasKeyword k) ls.

(** Number of distinct documents, by path, that contain the keyword. *)
Definition distinctDocs (k : string) (ls : list Learning) : nat :=
  List.length (dedupe (map path (docsWith k ls))).

(** *** generateInsight *)

(** Truthiness of [l.rating]: present and non-zero. *)
Definition ratingTruthy (l : Learning) : bool :=
  match rating l with
  | Some r => negb (N.eqb r 0)
  | None => false
  end.

Definition ratingOr0 (l : Learning) : N :=
  match rating l with Some r => r | None => 0%N end.

(** The value of [avgRating]: the sum of the truthy ratings divided by
    their number.  With no such rating the quotient is [0/0 = NaN],
    modelled by [None].  The quotient is exact here; the platform rounds
    it to a double, which leaves its comparison with 5 and with 0 as it
    is for sums below 2^53 and fewer than 2^51 rated documents. *)
Definition avgRating (ls : list Learning) : option Q :=
  let rated := filter ratingTruthy ls in
  let sum := fold_left (fun sum l => (sum + ratingOr0 l)%N) rated 0%N in
  match Pos.of_nat (List.length rated), rated with
  | _, [] => None
  | n, _ :: _ => Some (Z.of_N sum # n)%Q
  end.

Definition bugInsight : string :=
  "Pattern of similar bugs - consider preventive measures or improved testing".

Definition debtInsight : string :=
  "Technical debt accumulation - schedule dedicated refactoring time".

Definition genericInsight (n : nat) : string :=
  ("Recurring theme requiring attention - " ++ numberToString n ++ " instances this week")%string.

Section Insight.

(** [Number.prototype.toFixed(1)] on the floating point average. *)
Variable toFixed1 : Q -> string.

Definition lowRatingInsight (avg : Q) : string :=
  ("Repeated low ratings (avg " ++ toFixed1 avg ++ "/10) suggest this area needs improvement")%string.

(** [avgRating && avgRating < 5]: neither NaN nor zero, and below 5. *)
Definition lowAverage (avg : option Q) : bool :=
  match avg with
  | Some a => negb (Qeq_bool a 0) && negb (Qle_bool 5 a)
  | None => false
  end.

Definition generateInsight (theme : string) (ls : list Learning) : string :=
  let avg := avgRating ls in
  if lowAverage avg then
    match avg with Some a => lowRatingInsight a | None => EmptyString end
  else if includes theme "bug" || includes theme "fix" || includes theme "error" then
    bugInsight
  else if includes theme "refactor" || includes theme "optimize" then
    debtInsight
  else genericInsight (List.length ls).

(** *** identifyPatterns *)

(** [grouped.get(keyword).push(learning)], creating the entry at the
    end of the map when the key is new. *)
Fixpoint groupPush (g : list (string * list Learning)) (k : string) (l : Learning)
  : list (string * list Learning) :=
  match g with
  | [] => [(k, [l])]
  | (k', items) :: r =>
      if String.eqb k' k then (k', items ++ [l]) :: r
      else (k', items) :: groupPush r k l
  end.

Definition groupLearnings (ls : list Learning) : list (string * list Learning) :=
  fold_left
    (fun g l => fold_left (fun g k => groupPush g k l) (extractKeywords (content l)) g)
    ls [].

(** [Array.from(new Set(items.map(l => l.path))).map(p => items.find(l => l.path === p)!)] *)
Definition uniqueLearnings (items : list Learning) : list Learning :=
  flat_map
    (fun p => match find (fun l => String.eqb (path l) p) items with
              | Some l => [l]
              | None => []
              end)
    (dedupe (map path items)).

(** [theme.replace(/^#/, '')] *)
Definition stripHash (k : string) : string :=
  match k with
  | String "#"%char r => r
  | _ => k
  end.

Definition toPattern (k : string) (uniq : list Learning) : Pattern :=
  {| theme := stripHash k;
     occurrences := List.length uniq;
     learnings := uniq;
     insight := generateInsight k uniq |}.

Definition emitPattern (entry : string * list Learning) : list Pattern :=
  let (k, items) := entry in
  if (3 <=? List.length items)%nat then
    let uniq := uniqueLearnings items in
    if (3 <=? List.length uniq)%nat then [toPattern k uniq] else []
  else [].

(** [(a, b) => b.occurrences - a.occurrences] does not put [b] in
    front of [a] when [b.occurrences <= a.occurrences]. *)
Definition byOccurrences (a b : Pattern) : bool :=
  (occurrences b <=? occurrences a)%nat.

Definition identifyPatterns (ls : list Learning) : list Pattern :=
  sortBy byOccurrences (flat_map emitPattern (groupLearnings ls)).

(** *** synthesize *)

Definition lowRated (l : Learning) : bool :=
  ratingTruthy l && (ratingOr0 l <=? 3)%N.

Definition synthesize (ls : list Learning) (wkStart wkEnd : string) : SynthesisResult :=
  let pats := identifyPatterns ls in
  {| weekStart := wkStart;
     weekEnd := wkEnd;
     totalLearnings := List.length ls;
     patterns := pats;
     topInsights := map insight (firstn 5 pats);
     lowRatings := filter lowRated ls |}.

(** The KeywordGroup of a keyword: what [identifyPatterns] pushes for
    the map entry of [k]. *)
Definition groupOf (k : string) (ls : list Learning) : Pattern :=
toPattern k (uniqueLearnings (docsWith k ls)).

End Insight.

(** The document contains a keyword that is shown under the theme. *)
Definition hasTheme (t : string) (l : Learning) : bool :=
existsb (fun k => String.eqb (stripHash k) t) (extractKeywords (content l)).

Definition themeDocs (t : string) (ls : list Learning) : list Learning :=
filter (hasTheme t) ls.

(** Number of distinct documents, by path, in which the theme is
    present. *)
Definition distinctThemeDocs (t : string) (ls : list Learning) : nat :=
List.length (dedupe (map path (themeDocs t ls))).

(** The key of the map under which every document of a theme is found:
    the vocabulary term itself, or else the hashtag. *)
Definition themeKey (t : string) : string :=
if in_dec string_dec t techTerms then t else String "#"%char t.

(** The text that the scan of hashtags has read for the tag in progress. *)
Definition tagText (cur : option string) : string :=
match cur with
| Some run => String "#"%char run
| None => EmptyString
end.

(** *** Vocabulary of the statements about grouping *)

(** [grouped.get(k)], the empty list for a key that is not in the map. *)
Definition itemsOf (k : string) (g : list (string * list Learning)) : list Learning :=
match find (fun e => String.eqb (fst e) k) g with
| Some e => snd e
| None => []
end.

(** The map built by [identifyPatterns] has distinct keys and no empty
    entry. *)
Definition groupedOk (g : list (string * list Learning)) : Prop :=
NoDup (map fst g) /\ Forall (fun e => snd e <> []) g.

(** A document without rating. *)
Definition doc (name text : string) : Learning :=
  {| file := name; path := ("/LEARNING/ALGORITHM/2026-02/" ++ name)%string;
     date := substring 0 10 name; title := stripMdTitle name;
     content := text; category := ALGORITHM; rating := None |}.

(** Five documents of one week, three of them tagged [#bug], none
    rated. *)
Definition bugCorpus : list Learning :=
  [ doc "2026-02-02_crash.md" "Crash on startup #bug";
    doc "2026-02-03_total.md" "Wrong total on invoice #bug";
    doc "2026-02-04_parser.md" "Null pointer in parser #bug";
    doc "2026-02-05_standup.md" "Notes on standup";
    doc "2026-02-06_lunch.md" "Lunch plan" ].

(** A document with a rating. *)
Definition rated (name text : string) (r : N) : Learning :=
  {| file := name; path := ("/LEARNING/ALGORITHM/2026-02/" ++ name)%string;
     date := substring 0 10 name; title := stripMdTitle name;
     content := text; category := ALGORITHM; rating := Some r |}.


(** *** loadLearnings *)

(** What [statSync] and [readFileSync] answer for one directory entry;
    [None] stands for a thrown exception. *)
Record FileEntry := mkFile {
  fname : string;
  fstat : option Z;
  fdata : option string
}.

(** An entry of a category directory and what [readdirSync] answers
    for it. *)
Record DirEntry := mkDir {
  dname : string;
  dlist : option (list FileEntry)
}.

(** [existsSync(categoryDir)] and [readdirSync(categoryDir)]. *)
Definition LearningFS := Category -> option (list DirEntry).

(** A line written by [console.error]. *)
Inductive ConsoleLine :=
| CouldNotRead (file : string).

Definition categoryName (c : Category) : string :=
  match c with ALGORITHM => "ALGORITHM" | SYSTEM => "SYSTEM" end.

(** [/^\d{4}-\d{2}$/] *)
Definition isMonthDir (d : string) : bool :=
  match matchPrefix (digits 4 ++ [Lit "-"%char] ++ digits 2) d with
  | Some _ => (String.length d =? 7)%nat
  | None => false
  end.

(** [file.match(/^(\d{4}-\d{2}-\d{2})/)] *)
Definition fileDatePrefix (f : string) : option string :=
  matchPrefix (digits 4 ++ [Lit "-"%char] ++ digits 2 ++ [Lit "-"%char] ++ digits 2) f.

Section Loader.

Variable LEARNING_DIR : string.
(** [content.match(/^#\s+(.+)$/m)], first capture group. *)
Variable matchTitle : string -> option string.
(** [content.match(/(?:rating|RATE).*?(\d+)/i)], [parseInt] of the
    first capture group. *)
Variable matchRating : string -> option N.
(** [formatDate(stats.mtime)], in the local time zone. *)
Variable formatDate : Z -> string.
(** [a.localeCompare(b)]. *)
Variable localeCompare : string -> string -> Z.

Definition join (a b : string) : string := (a ++ "/" ++ b)%string.

Definition inRange (mtime : Z) (startDate endDate : JSDate) : bool :=
  dateLe startDate (Some mtime) && dateLe (Some mtime) endDate.

Definition parseLearning (cat : Category) (monthDir : string)
           (file : string) (mtime : Z) (text : string) : Learning :=
  {| file := file;
     path := join monthDir file;
     date := match fileDatePrefix file with
             | Some d => d
             | None => formatDate mtime
             end;
     title := match matchTitle text with
              | Some t => t
              | None => stripMdTitle file
              end;
     content := text;
     category := cat;
     rating := matchRating text |}.

(** The state of the loop: the learnings pushed so far and the lines
    written to the console.  [None] is an exception that leaves
    [loadLearnings]. *)
Definition LoadState := (list Learning * list ConsoleLine)%type.

Definition loadFile (cat : Category) (monthDir : string) (startDate endDate : JSDate)
           (st : LoadState) (f : FileEntry) : option LoadState :=
  match fstat f with
  | None => None
  | Some mtime =>
      if inRange mtime startDate endDate then
        match fdata f with
        | Some text =>
            Some (fst st ++ [parseLearning cat monthDir (fname f) mtime text], snd st)
        | None => Some (fst st, snd st ++ [CouldNotRead (fname f)])
        end
      else Some st
  end.

Fixpoint foldM {A B} (step : B -> A -> option B) (l : list A) (st : B) : option B :=
  match l with
  | [] => Some st
  | x :: r =>
      match step st x with
      | Some st' => foldM step r st'
      | None => None
      end
  end.

Definition loadMonth (cat : Category) (categoryDir : string) (startDate endDate : JSDate)
           (st : LoadState) (m : DirEntry) : option LoadState :=
  match dlist m with
  | None => None
  | Some entries =>
      let files := filter (fun f => endsWith (fname f) ".md") entries in
      foldM (loadFile cat (join categoryDir (dname m)) startDate endDate) files st
  end.

Definition loadCategory (fs : LearningFS) (startDate endDate : JSDate)
           (st : LoadState) (cat : Category) : option LoadState :=
  let categoryDir := join LEARNING_DIR (categoryName cat) in
  match fs cat with
  | None => Some st
  | Some entries =>
      let months := filter (fun d => isMonthDir (dname d)) entries in
      foldM (loadMonth cat categoryDir startDate endDate) months st
  end.

Definition byDate (a b : Learning) : bool :=
  (localeCompare (date a) (date b) <=? 0)%Z.

Definition loadLearnings (fs : LearningFS) (startDate endDate : JSDate)
  : option (list Learning * list ConsoleLine) :=
  match foldM (loadCategory fs startDate endDate) [ALGORITHM; SYSTEM] ([], []) with
  | Some (ls, out) => Some (sortBy byDate ls, out)
  | None => None
  end.

(** *** Vocabulary of the statements about loading *)

(** The month directories and the markdown files that the loops visit. *)
Definition monthsOf (fs : LearningFS) (cat : Category) : list DirEntry :=
match fs cat with
| Some entries => filter (fun d => isMonthDir (dname d)) entries
| None => []
end.

Definition filesOf (m : DirEntry) : list FileEntry :=
match dlist m with
| Some entries => filter (fun f => endsWith (fname f) ".md") entries
| None => []
end.

(** Every visited directory can be listed and every visited file can be
    examined by [statSync]; both calls are outside the [try]. *)
Definition statOk (f : FileEntry) : bool :=
match fstat f with Some _ => true | None => false end.

Definition monthOk (m : DirEntry) : bool :=
match dlist m with
| Some _ => forallb statOk (filesOf m)
| None => false
end.

Definition statable (fs : LearningFS) : bool :=
forallb (fun cat => forallb monthOk (monthsOf fs cat)) [ALGORITHM; SYSTEM].

(** The visited files, each with its category and month directory. *)
Definition visited (fs : LearningFS) : list (Category * string * FileEntry) :=
flat_map (fun cat =>
            flat_map (fun m =>
                        map (fun f => (cat, join (join LEARNING_DIR (categoryName cat)) (dname m), f))
                            (filesOf m))
                     (monthsOf fs cat))
         [ALGORITHM; SYSTEM].

(** What one visited file contributes: a learning when it is in range
    and readable, a warning when it is in range and unreadable. *)
Definition learned (startDate endDate : JSDate) (v : Category * string * FileEntry)
  : list Learning :=
let '(cat, dir, f) := v in
match fstat f, fdata f with
| Some mtime, Some text =>
    if inRange mtime startDate endDate
    then [parseLearning cat dir (fname f) mtime text] else []
| _, _ => []
end.

Definition warned (startDate endDate : JSDate) (v : Category * string * FileEntry)
  : list ConsoleLine :=
let '(cat, dir, f) := v in
match fstat f, fdata f with
| Some mtime, None =>
    if inRange mtime startDate endDate then [CouldNotRead (fname f)] else []
| _, _ => []
end.

End Loader.

(** A learning tree of two months; [2026-02-04_locked.md] cannot be
    read. *)
Definition sampleTree : LearningFS :=
fun cat =>
  match cat with
  | ALGORITHM =>
      Some [ mkDir "2026-02"
                   (Some [ mkFile "2026-02-03_first.md" (Some 1770100000000%Z)
                                  (Some "# First #bug");
                           mkFile "2026-02-04_locked.md" (Some 1770200000000%Z) None;
                           mkFile "2026-02-05_third.md" (Some 1770300000000%Z)
                                  (Some "# Third");
                           mkFile "notes.txt" (Some 1770300000000%Z) (Some "skipped") ]);
             mkDir "README.md" None ]
  | SYSTEM =>
      Some [ mkDir "2026-01"
                   (Some [ mkFile "2026-01-02_early.md" (Some 1767312000000%Z)
                                  (Some "# Early") ]) ]
  end.

Definition sampleLoad : option (list Learning * list ConsoleLine) :=
loadLearnings "/home/u/.claude/MEMORY/LEARNING"
              (fun text => if startsWith text "# " then Some (substring 2 (String.length text) text)
                           else None)
              (fun _ => None)
              (fun _ => "2026-02-06")
              (fun a b => match String.compare a b with Lt => (-1)%Z | Eq => 0%Z | Gt => 1%Z end)
              sampleTree (Some 1769904000000%Z) (Some 1770508800000%Z).

End WeeklySynthesis.

(** ** src/unnamed/part_000, first file: the memory search tool *)

Module MemorySearch.
Import JS.

Inductive MemType := ALGORITHM | SYSTEM | WORK.

Definition CONTEXT_LINES : nat := 3.

(** [interface MatchContext]. *)
Record MatchContext := mkMatch {
  lineNumber : nat;
  before : list string;
  matchLine : string;
  after : list string
}.

(** [interface SearchResult]. *)
Record SearchResult := mkSearchResult {
  filePath : string;
  relativePath : string;
  type : MemType;
  timestamp : option JSDate;
  score : nat;
  matches : list MatchContext
}.

(** The mutable state the search runs in: the [lastIndex] property of
    the one pattern object that [search] creates, and what has been
    written to the console. *)
Record World := mkWorld {
  lastIndex : nat;
  console : list string
}.

Definition newline : ascii := "010"%char.

(** [content.split("\n")] *)
Fixpoint splitLines (s : string) : list string :=
  match s with
  | EmptyString => [EmptyString]
  | String c r =>
      if Ascii.eqb c newline then EmptyString :: splitLines r
      else match splitLines r with
           | l :: ls => String c l :: ls
           | [] => [String c EmptyString]
           end
  end.

(** [xs.slice(a, b)] *)
Definition sliceList {A} (xs : list A) (a b : nat) : list A :=
  firstn (b - a) (skipn a xs).

(** [s.replace(pat, rep)] with a string pattern: the first occurrence. *)
Fixpoint replaceFirst (s pat rep : string) : string :=
  if startsWith s pat then (rep ++ substring (String.length pat) (String.length s) s)%string
  else match s with
       | EmptyString => EmptyString
       | String c r => String c (replaceFirst r pat rep)
       end.

(** *** extractDate *)

Section Dates.

(** [new Date(year, monthIndex, day)], local time. *)
Variable Date_ymd : Z -> Z -> Z -> JSDate.
(** [new Date(text)]. *)
Variable Date_parse : string -> JSDate.

Definition extractDate (filePath : string) : option JSDate :=
  match findPattern (lits "WORK/" ++ digits 8 ++ [Lit "-"%char] ++ digits 6 ++ [Lit "_"%char])
                    filePath with
  | Some m =>
      let dateStr := slice m 5 13 in
      let year := Z.of_nat (parseInt (slice dateStr 0 4)) in
      let month := (Z.of_nat (parseInt (slice dateStr 4 6)) - 1)%Z in
      let day := Z.of_nat (parseInt (slice dateStr 6 8)) in
      Some (Date_ymd year month day)
  | None =>
      match findPattern (digits 4 ++ [Lit "-"%char] ++ digits 2 ++ [Lit "-"%char] ++ digits 2
                                ++ [AnyOf ["-"%char; "_"%char]])
                        filePath with
      | Some m => Some (Date_parse (slice m 0 10))
      | None =>
          match findPattern (digits 4 ++ [Lit "-"%char] ++ digits 2 ++ [Lit "/"%char])
                            filePath with
          | Some m => Some (Date_parse (slice m 0 7 ++ "-01")%string)
          | None => None
          end
      end
  end.

End Dates.

(** *** The pattern object *)

(** A compiled pattern: [rx input from] is the leftmost match of the
    pattern in [input] that starts at index [from] or later, as its
    start and end index. *)
Definition Matcher := string -> nat -> option (nat * nat).

(** What every engine guarantees: a match reported for a scan from
    [from] does not start before [from] nor end before its start. *)
Definition wellBehaved (rx : Matcher) : Prop :=
forall input from s e, rx input from = Some (s, e) -> from <= s /\ s <= e.

(** [regexPattern.test(input)] on a pattern with the [g] flag, as a
    function of [lastIndex]: the scan starts at [lastIndex]; a success
    moves [lastIndex] to the end of the match, a failure resets it to 0. *)
Definition test (rx : Matcher) (input : string) (lastIdx : nat) : bool * nat :=
if (String.length input <? lastIdx)%nat then (false, 0)
else
  match rx input lastIdx with
  | Some (_, e) => (true, e)
  | None => (false, 0)
  end.

(** The iteration of [String.prototype.match] on a global pattern,
    counting the matches; an empty match advances the index by one. *)
Fixpoint countFrom (rx : Matcher) (input : string) (fuel from : nat) : nat :=
match fuel with
| O => 0
| S fuel' =>
    if (String.length input <? from)%nat then 0
    else match rx input from with
         | Some (s, e) =>
             S (countFrom rx input fuel' (if (e =? s)%nat then S e else e))
         | None => 0
         end
end.

(** [(input.match(regexPattern) || []).length]: the call starts from
    index 0 whatever [lastIndex] was, and leaves [lastIndex = 0]. *)
Definition matchCount (rx : Matcher) (input : string) : nat :=
countFrom rx input (String.length input + 2) 0.

(** *** searchFile *)

(** The loop over the lines, from line [i] on, threading [lastIndex]. *)
Fixpoint scanLines (rx : Matcher) (lines : list string) (i : nat) (rest : list string)
         (lastIdx : nat) : list MatchContext * nat :=
match rest with
| [] => ([], lastIdx)
| line :: rest' =>
    let (hit, idx1) := test rx line lastIdx in
    let (found, idx2) := scanLines rx lines (S i) rest' idx1 in
    if hit then
      ({| lineNumber := i + 1;
          before := sliceList lines (i - CONTEXT_LINES) i;
          matchLine := line;
          after := sliceList lines (i + 1)
                             (Nat.min (List.length lines) (i + 1 + CONTEXT_LINES)) |}
         :: found, idx2)
    else (found, idx2)
end.

(** [matches.reduce((sum, m) => sum + (m.matchLine.match(rx) || []).length, 0)],
    threading [lastIndex]. *)
Fixpoint scoreOf (rx : Matcher) (ms : list MatchContext) (sum : nat) (lastIdx : nat)
  : nat * nat :=
match ms with
| [] => (sum, lastIdx)
| m :: r => scoreOf rx r (sum + matchCount rx (matchLine m)) 0
end.

Section Search.

Variable MEMORY_DIR : string.
(** [new RegExp(query, "gi")]. *)
Variable RegExp_gi : string -> Matcher.
(** [fs.readFileSync(path, "utf-8")]; [None] when it throws. *)
Variable readFileSync : string -> option string.
(** The three directory scans of [getFilesToSearch]; [None] when the
    directory does not exist. *)
Variable workGlob algoGlob sysGlob : option (list string).
Variable Date_ymd : Z -> Z -> Z -> JSDate.
Variable Date_parse : string -> JSDate.

(** [searchFile]: the body of the [try] reads the file and scans its
    lines; the [catch] leaves [matches] empty, the pattern object as it
    was, and writes nothing. *)
Definition searchFile (filePath : string) (rx : Matcher) (w : World)
  : list MatchContext * World :=
match readFileSync filePath with
| Some text =>
    let lines := splitLines text in
    let (ms, idx) := scanLines rx lines 0 lines (lastIndex w) in
    (ms, {| lastIndex := idx; console := console w |})
| None => ([], w)
end.

Definition wants (typeFilter : option string) (name : string) : bool :=
  match typeFilter with
  | None => true
  | Some EmptyString => true
  | Some t => String.eqb t name
  end.

Definition scanDir (dir : string) (t : MemType) (glob : option (list string))
  : list (string * MemType) :=
  match glob with
  | Some fs => map (fun f => ((dir ++ "/" ++ f)%string, t)) fs
  | None => []
  end.

Definition getFilesToSearch (typeFilter : option string) : list (string * MemType) :=
  (if wants typeFilter "WORK"
   then scanDir (MEMORY_DIR ++ "/WORK")%string WORK workGlob else [])
  ++ (if wants typeFilter "ALGORITHM"
      then scanDir (MEMORY_DIR ++ "/LEARNING/ALGORITHM")%string ALGORITHM algoGlob else [])
  ++ (if wants typeFilter "SYSTEM"
      then scanDir (MEMORY_DIR ++ "/LEARNING/SYSTEM")%string SYSTEM sysGlob else []).

(** [sinceDate && fileDate && fileDate < sinceDate]: the file is
    left out. *)
Definition tooOld (sinceDate : option JSDate) (filePath : string) : bool :=
  match sinceDate with
  | Some since =>
      match extractDate Date_ymd Date_parse filePath with
      | Some fileDate => dateLt fileDate since
      | None => false
      end
  | None => false
  end.

Definition searchStep (rx : Matcher) (sinceDate : option JSDate)
           (st : list SearchResult * World) (f : string * MemType)
  : list SearchResult * World :=
  let (results, w) := st in
  let (filePath, t) := f in
  if tooOld sinceDate filePath then (results, w)
  else
    let (ms, w1) := searchFile filePath rx w in
    match ms with
    | [] => (results, w1)
    | _ :: _ =>
        let (sc, idx) := scoreOf rx ms 0 (lastIndex w1) in
        let w2 := {| lastIndex := idx; console := console w1 |} in
        (results ++ [ {| filePath := filePath;
                         relativePath := replaceFirst filePath (MEMORY_DIR ++ "/")%string "";
                         type := t;
                         timestamp := extractDate Date_ymd Date_parse filePath;
                         score := sc;
                         matches := ms |} ], w2)
    end.

Definition byScore (a b : SearchResult) : bool := (score b <=? score a)%nat.

(** [search], run in a world whose console is [out]; the pattern
    object is new, so its [lastIndex] is 0. *)
Definition searchIn (out : list string) (query : string) (typeFilter : option string)
           (sinceDate : option JSDate) : list SearchResult * World :=
  let rx := RegExp_gi query in
  let files := getFilesToSearch typeFilter in
  let (results, w) :=
    fold_left (searchStep rx sinceDate) files ([], {| lastIndex := 0; console := out |}) in
  (sortBy byScore results, w).

Definition search (query : string) (typeFilter : option string)
           (sinceDate : option JSDate) : list SearchResult :=
  fst (searchIn [] query typeFilter sinceDate).

(** What [search] pushes for one file when the pattern object is at
    [lastIndex = 0]. *)
Definition fileResults (rx : Matcher) (sinceDate : option JSDate) (f : string * MemType)
  : list SearchResult :=
fst (searchStep rx sinceDate ([], {| lastIndex := 0; console := [] |}) f).

End Search.

(** An instance of the pattern engine for a query without special
    characters: case-insensitive search for the literal text. *)
Fixpoint findFrom (needle hay : string) (pos from : nat) : option nat :=
  if (from <=? pos)%nat && startsWith hay needle then Some pos
  else match hay with
       | EmptyString => None
       | String _ r => findFrom needle r (S pos) from
       end.

Definition literalPattern (query : string) : Matcher :=
  fun input from =>
    match findFrom (toLowerCase query) (toLowerCase input) 0 from with
    | Some s => Some (s, s + String.length query)
    | None => None
    end.

(** An instance of the two Date constructors, for a platform whose local
    time zone is UTC: days are counted in the proleptic Gregorian
    calendar, a month index outside 0-11 carries into the year, and a
    text is a date when it reads [YYYY-MM-DD] with a month 1-12 and a
    day 1-31. *)
Definition daysFromCivil (y m d : Z) : Z :=
let y' := if (m <=? 2)%Z then (y - 1)%Z else y in
let era := (y' / 400)%Z in
let yoe := (y' - era * 400)%Z in
let mp := ((m + 9) mod 12)%Z in
let doy := ((153 * mp + 2) / 5 + d - 1)%Z in
let doe := (yoe * 365 + yoe / 4 - yoe / 100 + doy)%Z in
(era * 146097 + doe - 719468)%Z.

Definition msPerDay : Z := 86400000.

Definition utcDate (year monthIndex day : Z) : JSDate :=
let year := if ((0 <=? year) && (year <=? 99))%Z then (1900 + year)%Z else year in
Some (daysFromCivil (year + monthIndex / 12) (monthIndex mod 12 + 1) day * msPerDay)%Z.

Definition isoDate (text : string) : JSDate :=
match matchPrefix (digits 4 ++ [Lit "-"%char] ++ digits 2 ++ [Lit "-"%char] ++ digits 2) text with
| Some _ =>
    let y := Z.of_nat (parseInt (slice text 0 4)) in
    let m := Z.of_nat (parseInt (slice text 5 7)) in
    let d := Z.of_nat (parseInt (slice text 8 10)) in
    if (String.length text =? 10)%nat
       && ((1 <=? m) && (m <=? 12) && (1 <=? d) && (d <=? 31))%Z
    then Some (daysFromCivil y m d * msPerDay)%Z
    else None
| None => None
end.

(** A small memory tree.  The file [twice] has the term twice on its
    first line and once on its second; [notes] has no date in its path;
    [locked] cannot be read. *)
Definition nl : string := String newline EmptyString.

Definition sampleDir : string := "/home/u/.claude/MEMORY".

Definition sampleAlgo : list string :=
[ "2026-02/2026-02-03_twice.md"; "2026-01/2026-01-05_old.md"; "notes.md" ].

Definition sampleSys : list string :=
[ "2026-02/2026-02-04_locked.md"; "2026-02/2026-02-05_after.md" ].

Definition sampleRead (p : string) : option string :=
if String.eqb p "/home/u/.claude/MEMORY/LEARNING/ALGORITHM/2026-02/2026-02-03_twice.md"
then Some ("foo foo" ++ nl ++ "foo")%string
else if String.eqb p "/home/u/.claude/MEMORY/LEARNING/ALGORITHM/2026-01/2026-01-05_old.md"
then Some "an old foo"
else if String.eqb p "/home/u/.claude/MEMORY/LEARNING/ALGORITHM/notes.md"
then Some ("undated" ++ nl ++ "Foo")%string
else if String.eqb p "/home/u/.claude/MEMORY/LEARNING/SYSTEM/2026-02/2026-02-05_after.md"
then Some "the foo after the locked file"
else None.

Definition twicePath : string :=
"/home/u/.claude/MEMORY/LEARNING/ALGORITHM/2026-02/2026-02-03_twice.md".
Definition notesPath : string := "/home/u/.claude/MEMORY/LEARNING/ALGORITHM/notes.md".
Definition oldPath : string :=
"/home/u/.claude/MEMORY/LEARNING/ALGORITHM/2026-01/2026-01-05_old.md".
Definition lockedPath : string :=
"/home/u/.claude/MEMORY/LEARNING/SYSTEM/2026-02/2026-02-04_locked.md".

Definition sampleSearch (query : string) (sinceDate : option JSDate) : list SearchResult :=
search sampleDir literalPattern sampleRead None (Some sampleAlgo) (Some sampleSys)
       utcDate isoDate query None sinceDate.

End MemorySearch.

(** ** src/unnamed/part_000, second file: the memory database *)

Module MemoryDatabase.
Import JS.

Inductive MemKind := learning | session | synthesis | work.

(** [interface Memory]. *)
Record Memory := mkMemory {
  id : string;
  timestamp : string;
  type : MemKind;
  topic : string;
  content : string;
  rating : option Z;
  tags : string;
  file_path : string;
  importance : Z;
  stability : Z
}.

(** A row of the table [memories] created by [initDatabase]; [rowid]
    is SQLite's hidden integer key, on which the full-text index is
    joined.  Timestamps are stored as the text that [extractTimestamp]
    writes ([YYYY-MM-DD HH:MM:SS]). *)
Record Row := mkRow {
  rowid : Z;
  c_id : string;
  c_timestamp : string;
  c_type : MemKind;
  c_topic : string;
  c_content : string;
  c_rating : option Z;
  c_tags : string;
  c_file_path : string;
  c_importance : Z;
  c_stability : Z;
  created_at : string
}.

Definition Table := list Row.

(** The columns bound by the ten [?] of the [INSERT]. *)
Definition columns (r : Row) : Memory :=
  {| id := c_id r; timestamp := c_timestamp r; type := c_type r; topic := c_topic r;
     content := c_content r; rating := c_rating r; tags := c_tags r;
     file_path := c_file_path r; importance := c_importance r;
     stability := c_stability r |}.

(** The rowid SQLite gives to a new row: one more than the largest in
    use. *)
Definition nextRowid (t : Table) : Z :=
  (fold_right (fun r m => Z.max (rowid r) m) 0 t + 1)%Z.

(** [INSERT INTO memories (id, ..., stability) VALUES (...)]: the
    column [created_at] takes its default [CURRENT_TIMESTAMP]. *)
Definition insertedRow (rid : Z) (now : string) (m : Memory) : Row :=
  {| rowid := rid; c_id := id m; c_timestamp := timestamp m; c_type := type m;
     c_topic := topic m; c_content := content m; c_rating := rating m;
     c_tags := tags m; c_file_path := file_path m; c_importance := importance m;
     c_stability := stability m; created_at := now |}.

(** [ON CONFLICT(id) DO UPDATE SET timestamp = excluded.timestamp, ...]:
    the nine listed columns are assigned. *)
Definition updatedRow (r : Row) (m : Memory) : Row :=
  {| rowid := rowid r; c_id := c_id r;
     c_timestamp := timestamp m; c_type := type m; c_topic := topic m;
     c_content := content m; c_rating := rating m; c_tags := tags m;
     c_file_path := file_path m; c_importance := importance m;
     c_stability := stability m;
     created_at := created_at r |}.

Definition conflicts (m : Memory) (r : Row) : bool := String.eqb (c_id r) (id m).

(** [insertMemory]; [now] is the value of [CURRENT_TIMESTAMP] when the
    statement runs. *)
Definition insertMemory (now : string) (db : Table) (m : Memory) : Table :=
  if existsb (conflicts m) db then
    map (fun r => if conflicts m r then updatedRow r m else r) db
  else db ++ [insertedRow (nextRowid db) now m].

(** The primary key constraint on [id]. *)
Definition primaryKey (db : Table) : Prop := NoDup (map c_id db).

(** [SELECT ... WHERE id = ?] *)
Definition selectById (db : Table) (key : string) : list Row :=
  filter (fun r => String.eqb (c_id r) key) db.

(** *** searchMemories *)

(** [ORDER BY rank, m.importance DESC, m.timestamp DESC]: [a] is not
    after [b].  Text is compared bytewise. *)
Definition rowBefore (a b : Row * Q) : bool :=
  match Qcompare (snd a) (snd b) with
  | Lt => true
  | Gt => false
  | Eq =>
      match Z.compare (c_importance (fst b)) (c_importance (fst a)) with
      | Lt => true
      | Gt => false
      | Eq =>
          match String.compare (c_timestamp (fst b)) (c_timestamp (fst a)) with
          | Gt => false
          | _ => true
          end
      end
  end.

Section Search.

(** The FTS5 index: [fts5 db query rid] is the [rank] of the index
    entry of row [rid] when it satisfies [MATCH query], [None] when it
    does not.  The query is taken to be one that FTS5 accepts. *)
Variable fts5 : Table -> string -> Z -> option Q.

(** [FROM memories m JOIN memories_fts ON m.rowid = memories_fts.rowid
     WHERE memories_fts MATCH ?] *)
Definition joinMatch (db : Table) (query : string) : list (Row * Q) :=
  flat_map (fun r => match fts5 db query (rowid r) with
                     | Some rk => [(r, rk)]
                     | None => []
                     end) db.

(** [searchMemories]; a negative [LIMIT] is no limit in SQLite. *)
Definition searchMemories (db : Table) (query : string) (limit : Z) : list (Row * Q) :=
  let ordered := sortBy rowBefore (joinMatch db query) in
  if (limit <? 0)%Z then ordered else firstn (Z.to_nat limit) ordered.

End Search.

(** The order of [ORDER BY rank, m.importance DESC, m.timestamp DESC] as
    a relation: smaller rank first; at equal rank, larger importance
    first; at equal importance, the timestamp that is not smaller first. *)
Definition rowOrder (a b : Row * Q) : Prop :=
(snd a < snd b)%Q \/
((snd a == snd b)%Q /\
 ((c_importance (fst b) < c_importance (fst a))%Z \/
  (c_importance (fst a) = c_importance (fst b) /\
   String.compare (c_timestamp (fst b)) (c_timestamp (fst a)) <> Gt))).

(** An instance of the index: a row matches when its content contains
    the query, and all matching rows have the same rank. *)
Definition sampleFts (db : Table) (query : string) (rid : Z) : option Q :=
match find (fun r => Z.eqb (rowid r) rid) db with
| Some r => if includes (toLowerCase (c_content r)) (toLowerCase query)
            then Some (-1 # 1)%Q else None
| None => None
end.

Definition memo (key stamp text : string) (imp : Z) : Memory :=
{| id := key; timestamp := stamp; type := learning; topic := key; content := text;
   rating := None; tags := ""; file_path := ("MEMORY/LEARNING/" ++ key ++ ".md")%string;
   importance := imp; stability := 4 |}.

(** Two documents with the same term: importance 5 at the earlier time,
    importance 3 at the later time; a third one without the term. *)
Definition sampleDb : Table :=
insertMemory "2026-02-10 09:00:02"
  (insertMemory "2026-02-10 09:00:01"
     (insertMemory "2026-02-10 09:00:00" []
        (memo "algo_late" "2026-02-05 12:00:00" "the budget review" 3))
     (memo "algo_early" "2026-02-01 12:00:00" "a budget plan" 5))
  (memo "algo_other" "2026-02-06 12:00:00" "nothing here" 4).

End MemoryDatabase.

(** ** Vocabulary of the further statements *)

Module SynthesisVocabulary.
Import JS WeeklySynthesis.

(** The groups as they leave the threshold loop of [identifyPatterns],
    in the order of the map, before the sort. *)
Definition emitted (toFixed1 : Q -> string) (ls : list Learning) : list Pattern :=
flat_map (emitPattern toFixed1) (groupLearnings ls).

(** All characters of the text are of the tag class. *)
Fixpoint allTagChars (s : string) : bool :=
match s with
| EmptyString => true
| String c r => isTagChar c && allTagChars r
end.

(** The rules of [generateInsight] after the low-rating rule. *)
Definition themeInsight (theme : string) (n : nat) : string :=
if includes theme "bug" || includes theme "fix" || includes theme "error" then bugInsight
else if includes theme "refactor" || includes theme "optimize" then debtInsight
else genericInsight n.

(** The text does not go on with a character of the tag class. *)
Definition tagEnds (post : string) : bool :=
match post with
| EmptyString => true
| String c _ => negb (isTagChar c)
end.

(** A tree with a learning in range and, after it, a file that is
    gone by the time [statSync] is called on it. *)
Definition brokenTree : LearningFS :=
fun cat =>
  match cat with
  | ALGORITHM =>
      Some [ mkDir "2026-02"
                   (Some [ mkFile "2026-02-03_first.md" (Some 1770100000000%Z)
                                  (Some "# First #bug");
                           mkFile "2026-02-09_gone.md" None None ]) ]
  | SYSTEM => None
  end.

End SynthesisVocabulary.

Module SearchVocabulary.
Import JS MemorySearch.

(** The name under which [--type] selects a tree. *)
Definition typeName (t : MemType) : string :=
match t with
| ALGORITHM => "ALGORITHM"
| SYSTEM => "SYSTEM"
| WORK => "WORK"
end.

(** An engine that scans from the left: when a scan from a later index
    finds a match, so does the scan from index 0. *)
Definition scansFromLeft (rx : Matcher) : Prop :=
forall input from, rx input from <> None -> rx input 0 <> None.

(** The result and the recorded line that a search for [foo] gives for
    the undated notes file of the sample tree. *)
Definition notesHit : MatchContext :=
{| lineNumber := 2; before := ["undated"]; matchLine := "Foo"; after := [] |}.

Definition notesResult : SearchResult :=
{| filePath := notesPath;
   relativePath := "LEARNING/ALGORITHM/notes.md";
   type := ALGORITHM;
   timestamp := None;
   score := 1;
   matches := [notesHit] |}.

End SearchVocabulary.

(** ** MemoryDatabase.ts: from files to records *)

Module MemorySync.
Import JS MemoryDatabase.

(** The [Partial<Memory>] that [extractMetadata] fills. *)
Record Metadata := mkMetadata {
  md_topic : string;
  md_rating : option Z;
  md_tags : string;
  md_importance : Z;
  md_stability : Z
}.

(** [a || b] on strings, on numbers, and [rating || null]. *)
Definition orString (a b : string) : string := if String.eqb a "" then b else a.
Definition orNumber (a b : Z) : Z := if (a =? 0)%Z then b else a.
Definition orNull (r : option Z) : option Z :=
match r with
| Some n => if (n =? 0)%Z then None else Some n
| None => None
end.

(** [if (metadata.rating) { >= 8: 5; >= 6: 4; >= 4: 3; else 2 }] on the
    default 3. *)
Definition importanceOf (rating : option Z) : Z :=
match rating with
| None => 3
| Some r =>
    if (r =? 0)%Z then 3
    else if (8 <=? r)%Z then 5
    else if (6 <=? r)%Z then 4
    else if (4 <=? r)%Z then 3
    else 2
end%Z.

(** The chain on [filePath.includes] on the default 3. *)
Definition stabilityOf (filePath : string) : Z :=
(if includes filePath "goals" || includes filePath "user-context" then 5
 else if includes filePath "LEARNING/ALGORITHM" then 4
 else if includes filePath "WORK" then 2
 else 3)%Z.

(** [.replace(/^\d{4}-\d{2}-\d{2}[-_]/, "")] *)
Definition stripDatePrefix (s : string) : string :=
match matchPrefix (digits 4 ++ [Lit "-"%char] ++ digits 2 ++ [Lit "-"%char] ++ digits 2
                          ++ [AnyOf ["-"%char; "_"%char]]) s with
| Some m => substring (String.length m) (String.length s) s
| None => s
end.

(** [.replace(/[-_]/g, " ")] *)
Fixpoint spaces (s : string) : string :=
match s with
| EmptyString => EmptyString
| String c r =>
    String (if Ascii.eqb c "-"%char || Ascii.eqb c "_"%char then " "%char else c) (spaces r)
end.

(** [file.replace(/\//g, "_")] *)
Fixpoint underscores (s : string) : string :=
match s with
| EmptyString => EmptyString
| String c r => String (if Ascii.eqb c "/"%char then "_"%char else c) (underscores r)
end.

(** The text before the last [/] of a path, if it has one. *)
Fixpoint beforeLastSlash (s : string) : option string :=
match s with
| EmptyString => None
| String c r =>
    match beforeLastSlash r with
    | Some d => Some (String c d)
    | None => if Ascii.eqb c "/"%char then Some EmptyString else None
    end
end.

(** [path.dirname] on the normalised relative paths that a scan
    yields. *)
Definition dirname (file : string) : string :=
match beforeLastSlash file with
| Some EmptyString => "/"
| Some d => d
| None => "."
end.

(** [iso.replace("T", " ").slice(0, 19)] *)
Definition sqlTime (iso : string) : string :=
slice (MemorySearch.replaceFirst iso "T" " ") 0 19.

Definition workStamp : list CharClass :=
lits "WORK/" ++ digits 8 ++ [Lit "-"%char] ++ digits 6 ++ [Lit "_"%char].

Definition dayStamp : list CharClass :=
digits 4 ++ [Lit "-"%char] ++ digits 2 ++ [Lit "-"%char] ++ digits 2.

(** The shape of the text that SQLite compares as a date and time. *)
Definition sqlStamp : list CharClass :=
digits 4 ++ [Lit "-"%char] ++ digits 2 ++ [Lit "-"%char] ++ digits 2 ++ [Lit " "%char]
       ++ digits 2 ++ [Lit ":"%char] ++ digits 2 ++ [Lit ":"%char] ++ digits 2.

(** The result of [syncAllMemories]: the table it leaves and the count
    it returns, or the table it leaves when a file system call throws. *)
Inductive Outcome :=
| Done (db : Table) (count : nat)
| Thrown (db : Table).

Definition andThen (o : Outcome) (k : Table -> nat -> Outcome) : Outcome :=
match o with
| Done db n => k db n
| Thrown db => Thrown db
end.

Definition tableOf (o : Outcome) : Table :=
match o with
| Done db _ => db
| Thrown db => db
end.

Section Sync.

(** [process.env.HOME]. *)
Variable HOME : string.

Definition PAI_HOME : string := (HOME ++ "/.claude")%string.
Definition MEMORY_DIR : string := (PAI_HOME ++ "/MEMORY")%string.

(** The four patterns of [extractMetadata], each with what the code
    takes from its match: the number after the rating word, the file
    name without its extension, the text of the first header line, and
    all the tags. *)
Variable matchRating : string -> option N.
Variable matchFileName : string -> option string.
Variable matchHeader : string -> option string.
Variable matchTags : string -> option (list string).

(** [fs.statSync(p).mtime] as a time value, [None] when the call
    throws; [Date.prototype.toISOString]; the time value of [new Date()]
    and of the day thirty days before it. *)
Variable statSync : string -> option Z.
Variable toISOString : Z -> string.
Variable now : Z.
Variable thirtyDaysAgo : Z.

(** [fs.readFileSync(p, "utf-8")], [None] when it throws. *)
Variable readFileSync : string -> option string.

(** [path.basename(file, ".md")]. *)
Variable basename_md : string -> string.

(** The six scans, [None] when the directory does not exist. *)
Variable workGlob algoGlob sysGlob vaultWorkGlob vaultProjectsGlob journalGlob
  : option (list string).

(** [CURRENT_TIMESTAMP] when the statement for the file counted
    [count + 1] in this run is executed. *)
Variable clock : nat -> string.

Definition extractMetadata (content filePath : string) : Metadata :=
let rating :=
  match matchRating content with
  | Some n => Some (Z.of_N n)
  | None => None
  end in
let fileTopic :=
  match matchFileName filePath with
  | Some name => spaces (stripDatePrefix name)
  | None => ""
  end in
let topic :=
  match matchHeader content with
  | Some h => if String.eqb h "" then fileTopic else h
  | None => fileTopic
  end in
let tags :=
  match matchTags content with
  | Some ts => String.concat " " ts
  | None => ""
  end in
{| md_topic := topic;
   md_rating := rating;
   md_tags := tags;
   md_importance := importanceOf rating;
   md_stability := stabilityOf filePath |}.

Definition extractTimestamp (filePath : string) : string :=
match findPattern workStamp filePath with
| Some m =>
    let dateStr := slice m 5 13 in
    let timeStr := slice m 14 20 in
    (slice dateStr 0 4 ++ "-" ++ slice dateStr 4 6 ++ "-" ++ slice dateStr 6 8 ++ " "
       ++ slice timeStr 0 2 ++ ":" ++ slice timeStr 2 4 ++ ":" ++ slice timeStr 4 6)%string
| None =>
    match findPattern dayStamp filePath with
    | Some d => (d ++ " 12:00:00")%string
    | None =>
        match statSync filePath with
        | Some t => sqlTime (toISOString t)
        | None => sqlTime (toISOString now)
        end
    end
end.

(** The record that each loop builds from the name a scan yields and
    from the content of the file. *)
Definition workDir : string := (MEMORY_DIR ++ "/WORK")%string.
Definition algoDir : string := (MEMORY_DIR ++ "/LEARNING/ALGORITHM")%string.
Definition sysDir : string := (MEMORY_DIR ++ "/LEARNING/SYSTEM")%string.
Definition vaultWork : string := (HOME ++ "/vault/work")%string.
Definition vaultProjects : string := (HOME ++ "/vault/projects")%string.
Definition vaultJournal : string := (HOME ++ "/vault/journal")%string.

Definition workMemory (file content : string) : Memory :=
let filePath := (workDir ++ "/" ++ file)%string in
let metadata := extractMetadata content filePath in
{| id := ("work_" ++ dirname file)%string;
   timestamp := extractTimestamp filePath;
   type := work;
   topic := orString (md_topic metadata) "Work Session";
   content := slice content 0 5000;
   rating := orNull (md_rating metadata);
   tags := orString (md_tags metadata) "";
   file_path := MemorySearch.replaceFirst filePath (PAI_HOME ++ "/")%string "";
   importance := orNumber (md_importance metadata) 3;
   stability := orNumber (md_stability metadata) 2 |}.

Definition algoMemory (file content : string) : Memory :=
let filePath := (algoDir ++ "/" ++ file)%string in
let metadata := extractMetadata content filePath in
{| id := ("algo_" ++ stripMdTitle (underscores file))%string;
   timestamp := extractTimestamp filePath;
   type := learning;
   topic := orString (md_topic metadata) "Algorithm Learning";
   content := content;
   rating := orNull (md_rating metadata);
   tags := orString (md_tags metadata) "";
   file_path := MemorySearch.replaceFirst filePath (PAI_HOME ++ "/")%string "";
   importance := orNumber (md_importance metadata) 4;
   stability := orNumber (md_stability metadata) 4 |}.

Definition sysMemory (file content : string) : Memory :=
let filePath := (sysDir ++ "/" ++ file)%string in
let metadata := extractMetadata content filePath in
{| id := ("sys_" ++ stripMdTitle (underscores file))%string;
   timestamp := extractTimestamp filePath;
   type := learning;
   topic := orString (md_topic metadata) "System Learning";
   content := content;
   rating := orNull (md_rating metadata);
   tags := orString (md_tags metadata) "";
   file_path := MemorySearch.replaceFirst filePath (PAI_HOME ++ "/")%string "";
   importance := orNumber (md_importance metadata) 4;
   stability := orNumber (md_stability metadata) 4 |}.

Definition vaultWorkMemory (file content : string) : Memory :=
let filePath := (vaultWork ++ "/" ++ file)%string in
let metadata := extractMetadata content filePath in
{| id := ("vault_work_" ++ stripMdTitle (underscores file))%string;
   timestamp := extractTimestamp filePath;
   type := work;
   topic := orString (md_topic metadata) (basename_md file);
   content := content;
   rating := orNull (md_rating metadata);
   tags := orString (md_tags metadata) "";
   file_path := MemorySearch.replaceFirst filePath (HOME ++ "/")%string "~/";
   importance := orNumber (md_importance metadata) 4;
   stability := orNumber (md_stability metadata) 3 |}.

Definition vaultProjectMemory (file content : string) : Memory :=
let filePath := (vaultProjects ++ "/" ++ file)%string in
let metadata := extractMetadata content filePath in
{| id := ("vault_project_" ++ stripMdTitle (underscores file))%string;
   timestamp := extractTimestamp filePath;
   type := work;
   topic := orString (md_topic metadata) (basename_md file);
   content := content;
   rating := orNull (md_rating metadata);
   tags := orString (md_tags metadata) "";
   file_path := MemorySearch.replaceFirst filePath (HOME ++ "/")%string "~/";
   importance := orNumber (md_importance metadata) 5;
   stability := orNumber (md_stability metadata) 4 |}.

Definition journalMemory (file content : string) : Memory :=
let filePath := (vaultJournal ++ "/" ++ file)%string in
let metadata := extractMetadata content filePath in
{| id := ("vault_journal_" ++ stripMdTitle file)%string;
   timestamp := extractTimestamp filePath;
   type := session;
   topic := orString (md_topic metadata) ("Journal " ++ stripMdTitle file)%string;
   content := slice content 0 3000;
   rating := orNull (md_rating metadata);
   tags := orString (md_tags metadata) "";
   file_path := MemorySearch.replaceFirst filePath (HOME ++ "/")%string "~/";
   importance := orNumber (md_importance metadata) 3;
   stability := orNumber (md_stability metadata) 2 |}.

(** The body of one [for await] loop over a scan: the read is not
    guarded, so a file that cannot be read ends the run. *)
Fixpoint syncFiles (mk : string -> string -> Memory) (dir : string) (files : list string)
         (db : Table) (count : nat) : Outcome :=
match files with
| [] => Done db count
| file :: rest =>
    match readFileSync (dir ++ "/" ++ file)%string with
    | Some content =>
        syncFiles mk dir rest (insertMemory (clock count) db (mk file content)) (S count)
    | None => Thrown db
    end
end.

(** [if (fs.existsSync(dir)) { for await (...) {...} }] *)
Definition syncTree (mk : string -> string -> Memory) (dir : string)
           (glob : option (list string)) (db : Table) (count : nat) : Outcome :=
match glob with
| Some files => syncFiles mk dir files db count
| None => Done db count
end.

(** The loop over the journal: only the entries modified after the day
    thirty days ago are read and written. *)
Fixpoint syncJournalFiles (files : list string) (db : Table) (count : nat) : Outcome :=
match files with
| [] => Done db count
| file :: rest =>
    match statSync (vaultJournal ++ "/" ++ file)%string with
    | Some mtime =>
        if (thirtyDaysAgo <? mtime)%Z then
          match readFileSync (vaultJournal ++ "/" ++ file)%string with
          | Some content =>
              syncJournalFiles rest (insertMemory (clock count) db (journalMemory file content))
                               (S count)
          | None => Thrown db
          end
        else syncJournalFiles rest db count
    | None => Thrown db
    end
end.

Definition syncJournal (db : Table) (count : nat) : Outcome :=
match journalGlob with
| Some files => syncJournalFiles files db count
| None => Done db count
end.

Definition syncAllMemories (db : Table) : Outcome :=
andThen (syncTree workMemory workDir workGlob db 0) (fun db count =>
andThen (syncTree algoMemory algoDir algoGlob db count) (fun db count =>
andThen (syncTree sysMemory sysDir sysGlob db count) (fun db count =>
andThen (syncTree vaultWorkMemory vaultWork vaultWorkGlob db count) (fun db count =>
andThen (syncTree vaultProjectMemory vaultProjects vaultProjectsGlob db count) (fun db count =>
syncJournal db count))))).

(** What the run meets, in order: for every file that it reads the
    record it builds, or nothing when the file system call throws. *)
Definition treeSteps (mk : string -> string -> Memory) (dir : string)
           (glob : option (list string)) : list (option Memory) :=
match glob with
| Some files =>
    map (fun file => option_map (mk file) (readFileSync (dir ++ "/" ++ file)%string)) files
| None => []
end.

Definition journalSteps : list (option Memory) :=
match journalGlob with
| Some files =>
    flat_map (fun file =>
                match statSync (vaultJournal ++ "/" ++ file)%string with
                | Some mtime =>
                    if (thirtyDaysAgo <? mtime)%Z
                    then [option_map (journalMemory file)
                                     (readFileSync (vaultJournal ++ "/" ++ file)%string)]
                    else []
                | None => [None]
                end) files
| None => []
end.

Definition steps : list (option Memory) :=
treeSteps workMemory workDir workGlob
++ treeSteps algoMemory algoDir algoGlob
++ treeSteps sysMemory sysDir sysGlob
++ treeSteps vaultWorkMemory vaultWork vaultWorkGlob
++ treeSteps vaultProjectMemory vaultProjects vaultProjectsGlob
++ journalSteps.

End Sync.

(** The records of a list of steps up to the first one that throws. *)
Fixpoint written (steps : list (option Memory)) : list Memory :=
match steps with
| Some m :: rest => m :: written rest
| _ => []
end.

Definition completes (steps : list (option Memory)) : bool :=
forallb (fun s => match s with Some _ => true | None => false end) steps.

(** The writes of a run, one after the other. *)
Fixpoint writeAll (clock : nat -> string) (ms : list Memory) (db : Table) (count : nat)
  : Table :=
match ms with
| [] => db
| m :: rest => writeAll clock rest (insertMemory (clock count) db m) (S count)
end.

(** The run over a list of steps that starts with the table [db] and
    the count [count]. *)
Definition outcomeOf (clock : nat -> string) (steps : list (option Memory))
           (db : Table) (count : nat) : Outcome :=
if completes steps
then Done (writeAll clock (written steps) db count) (count + List.length steps)
else Thrown (writeAll clock (written steps) db count).

(** What every record that a sync writes satisfies: the rating is not
    0, the importance is the one that goes with the rating, and the
    stability is one of the four of the chain. *)
Definition syncedMemory (m : Memory) : Prop :=
rating m <> Some 0%Z
/\ importance m = importanceOf (rating m)
/\ In (stability m) [2; 3; 4; 5]%Z.

Definition syncedRow (r : Row) : Prop := syncedMemory (columns r).

(** The ids in the batch that the table does not hold yet, each once. *)
Definition newIds (db : Table) (ms : list Memory) : list string :=
filter (fun k => negb (existsb (String.eqb k) (map c_id db))) (dedupe (map id ms)).

(** A small world: a work directory with both of its files, one
    learning, and no vault. *)
Definition sampleHome : string := "/home/u".

Definition sampleRating (content : string) : option N :=
if includes content "Rating: 8" then Some 8%N else None.

Definition noMatch {A} (text : string) : option A := None.

Definition sampleWork : list string :=
[ "20260129-150618_plan/summary.md"; "20260129-150618_plan/IDEAL.md" ].

Definition sampleLearnings : list string := [ "2026-02/2026-02-03_notes.md" ].

Definition sampleFiles (p : string) : option string :=
if String.eqb p "/home/u/.claude/MEMORY/WORK/20260129-150618_plan/summary.md"
then Some "what was done"
else if String.eqb p "/home/u/.claude/MEMORY/WORK/20260129-150618_plan/IDEAL.md"
then Some "what should be. Rating: 8"
else if String.eqb p "/home/u/.claude/MEMORY/LEARNING/ALGORITHM/2026-02/2026-02-03_notes.md"
then Some "notes"
else None.

Definition sampleClock (n : nat) : string :=
("2026-02-10 09:00:0" ++ numberToString n)%string.

Definition laterClock (n : nat) : string :=
("2026-03-01 18:30:0" ++ numberToString n)%string.

Definition sampleSync (clock : nat -> string) (db : Table) : Outcome :=
syncAllMemories sampleHome sampleRating noMatch noMatch noMatch (fun _ => None)
                (fun _ => "2026-02-10T09:00:00.000Z") 0 0 sampleFiles (fun f => f)
                (Some sampleWork) (Some sampleLearnings) None None None None clock db.

Definition sampleSteps : list (option Memory) :=
steps sampleHome sampleRating noMatch noMatch noMatch (fun _ => None)
      (fun _ => "2026-02-10T09:00:00.000Z") 0 0 sampleFiles (fun f => f)
      (Some sampleWork) (Some sampleLearnings) None None None None.

(** The same world with one journal entry, at a given time of the run. *)
Definition journalPath : string := "/home/u/vault/journal/2026-02-09.md".

Definition journalStat (p : string) : option Z :=
if String.eqb p journalPath then Some 1770600000000%Z else None.

Definition journalFiles (p : string) : option string :=
if String.eqb p journalPath then Some "a quiet day" else sampleFiles p.

Definition sampleIso (ms : Z) : string :=
if (ms <? 1770750000000)%Z then "2026-02-10T05:06:40.000Z" else "2026-02-11T05:06:40.000Z".

Definition sampleSyncAt (now thirtyDaysAgo : Z) (clock : nat -> string) (db : Table)
  : Outcome :=
syncAllMemories sampleHome sampleRating noMatch noMatch noMatch journalStat sampleIso
                now thirtyDaysAgo journalFiles (fun f => f)
                (Some sampleWork) (Some sampleLearnings) None None None
                (Some ["2026-02-09.md"]) clock db.

End MemorySync.

(** ** MemoryDatabase.ts: the statistics *)

Module MemoryStats.
Import JS MemoryDatabase.

Definition kind_eqb (a b : MemKind) : bool :=
match a, b with
| learning, learning | session, session | synthesis, synthesis | work, work => true
| _, _ => false
end.

(** The four values of the column [type], in the order of their text. *)
Definition kinds : list MemKind := [learning; session; synthesis; work].

(** The count of all rows of [memories]. *)
Definition total (db : Table) : nat := List.length db.

Definition countOf (k : MemKind) (db : Table) : nat :=
List.length (filter (fun r => kind_eqb (c_type r) k) db).

(** [GROUP BY type]: one line for each type that has rows. *)
Definition by_type (db : Table) : list (MemKind * nat) :=
filter (fun p => negb (snd p =? 0)%nat) (map (fun k => (k, countOf k db)) kinds).

(** [FROM memories WHERE rating IS NOT NULL] *)
Definition ratings (db : Table) : list Z :=
flat_map (fun r => match c_rating r with
                   | Some n => [n]
                   | None => []
                   end) db.

(** The line of the aggregates [AVG], [MIN], [MAX] and the count over
    the rated rows; the three aggregates are null over no rows.  The
    average is taken in exact arithmetic. *)
Record RatingStats := mkRatingStats {
  avg_rating : option Q;
  min_rating : option Z;
  max_rating : option Z;
  rated_count : nat
}.

Definition ratingStats (db : Table) : RatingStats :=
match ratings db with
| [] => {| avg_rating := None; min_rating := None; max_rating := None; rated_count := 0 |}
| x :: rest =>
    {| avg_rating :=
         Some (fold_right Z.add 0%Z (x :: rest) # Pos.of_succ_nat (List.length rest))%Q;
       min_rating := Some (fold_left Z.min rest x);
       max_rating := Some (fold_left Z.max rest x);
       rated_count := S (List.length rest) |}
end.

(** [getStats] *)
Definition getStats (db : Table) : nat * list (MemKind * nat) * RatingStats :=
(total db, by_type db, ratingStats db).

End MemoryStats.

(** ** WeeklySynthesis.ts: the memory index *)

Module MemoryIndex.
Import JS WeeklySynthesis.

(** An element of [index.weeks]. *)
Record WeekEntry := mkWeekEntry {
  e_start : string;
  e_end : string;
  e_learnings : nat;
  e_patterns : nat;
  e_file : string
}.

(** A value of [index.patterns]. *)
Record ThemeStat := mkThemeStat {
  st_count : nat;
  st_weeks : list string
}.

(** The index as the function writes it: [index.patterns] is an object
    used as a map, here the list of its own properties. *)
Record Index := mkIndex {
  ix_weeks : list WeekEntry;
  ix_patterns : list (string * ThemeStat)
}.

(** [{ weeks: [], patterns: {} }] *)
Definition freshIndex : Index := {| ix_weeks := []; ix_patterns := [] |}.

(** The properties that an object literal and an object read by
    [JSON.parse] inherit from [Object.prototype]: each of them is there,
    and is truthy, under its name without being an own property. *)
Definition inheritedNames : list string :=
[ "constructor"; "__proto__"; "hasOwnProperty"; "isPrototypeOf"; "propertyIsEnumerable";
  "toLocaleString"; "toString"; "valueOf"; "__defineGetter__"; "__defineSetter__";
  "__lookupGetter__"; "__lookupSetter__" ].

Definition inherited (name : string) : bool := existsb (String.eqb name) inheritedNames.

(** The own property of the object under a name. *)
Definition own (obj : list (string * ThemeStat)) (name : string) : option ThemeStat :=
match find (fun e => String.eqb (fst e) name) obj with
| Some e => Some (snd e)
| None => None
end.

(** [obj[name] = st], and a change of the value that is there. *)
Fixpoint setOwn (obj : list (string * ThemeStat)) (name : string) (st : ThemeStat)
  : list (string * ThemeStat) :=
match obj with
| [] => [(name, st)]
| (k, v) :: rest =>
    if String.eqb k name then (k, st) :: rest else (k, v) :: setOwn rest name st
end.

(** The body of the loop over [result.patterns].  When the theme is
    the name of an inherited property, [index.patterns[theme]] is that
    property: no entry is created, and [.weeks.push] throws a TypeError
    since the property has no [weeks]. *)
Definition countPattern (wkStart : string) (obj : list (string * ThemeStat)) (p : Pattern)
  : option (list (string * ThemeStat)) :=
match own obj (theme p) with
| Some st =>
    Some (setOwn obj (theme p)
                 {| st_count := st_count st + occurrences p;
                    st_weeks := st_weeks st ++ [wkStart] |})
| None =>
    if inherited (theme p) then None
    else Some (setOwn obj (theme p)
                      {| st_count := 0 + occurrences p; st_weeks := [] ++ [wkStart] |})
end.

Fixpoint countPatterns (wkStart : string) (obj : list (string * ThemeStat))
         (ps : list Pattern) : option (list (string * ThemeStat)) :=
match ps with
| [] => Some obj
| p :: rest =>
    match countPattern wkStart obj p with
    | Some obj' => countPatterns wkStart obj' rest
    | None => None
    end
end.

Definition weekEntry (PAI_HOME : string) (result : SynthesisResult) (synthesisPath : string)
  : WeekEntry :=
{| e_start := weekStart result;
   e_end := weekEnd result;
   e_learnings := totalLearnings result;
   e_patterns := List.length (patterns result);
   e_file := MemorySearch.replaceFirst synthesisPath (PAI_HOME ++ "/")%string "" |}.

(** [updateMemoryIndex]: [stored] is the index read from the file,
    [None] when there is no file or no index can be read from it; the
    result is the index written to the file, [None] when the function
    throws before it writes. *)
Definition updateMemoryIndex (PAI_HOME : string) (stored : option Index)
           (result : SynthesisResult) (synthesisPath : string) : option Index :=
let index := match stored with
             | Some i => i
             | None => freshIndex
             end in
let weeks := ix_weeks index ++ [weekEntry PAI_HOME result synthesisPath] in
match countPatterns (weekStart result) (ix_patterns index) (patterns result) with
| Some obj => Some {| ix_weeks := weeks; ix_patterns := obj |}
| None => None
end.




Definition noInheritedTheme (ps : list Pattern) : bool :=
forallb (fun p => negb (inherited (theme p))) ps.

Definition noInheritedOwn (obj : list (string * ThemeStat)) : bool :=
forallb (fun e => negb (inherited (fst e))) obj.

(** Three documents of one week with the tag [#constructor]. *)
Definition constructorCorpus : list Learning :=
[ doc "2026-02-02_point.md" "Point class #constructor";
  doc "2026-02-03_shape.md" "Default arguments #constructor";
  doc "2026-02-04_pool.md" "Pool set-up #constructor" ].


End MemoryIndex.

(** ** MemorySearch.ts: the command line *)

Module SearchArgs.
Import JS MemorySearch.

(** [String.prototype.toUpperCase] restricted to ASCII. *)
Definition upperChar (c : ascii) : ascii :=
let n := nat_of_ascii c in
if (97 <=? n)%nat && (n <=? 122)%nat then ascii_of_nat (n - 32) else c.

Fixpoint toUpperCase (s : string) : string :=
match s with
| EmptyString => EmptyString
| String c r => String (upperChar c) (toUpperCase r)
end.

Definition typeNames : list string := [ "ALGORITHM"; "SYSTEM"; "WORK" ].

(** How [parseArgs] ends: with the usage text and exit code 0, with an
    error message and exit code 1, or with its result. *)
Inductive ArgError :=
| InvalidType (t : string)
| InvalidDate (dateStr : string)
| NoQuery.

Inductive Parse :=
| Usage
| Failed (e : ArgError)
| Parsed (query : string) (type : option string) (since : option JSDate).

Section Args.

(** [new Date(text)]. *)
Variable Date_parse : string -> JSDate.

(** The loop over [args] from index [i] on, with the three variables as
    they are at that point; [i++] in a branch skips the value of the
    option. *)
Fixpoint parseLoop (args : list string) (query : string) (type : option string)
         (since : option JSDate) : Parse :=
match args with
| [] => if String.eqb query "" then Failed NoQuery else Parsed query type since
| a :: rest =>
    match rest with
    | v :: rest' =>
        if String.eqb a "--type" && negb (String.eqb v "") then
          let t := toUpperCase v in
          if existsb (String.eqb t) typeNames
          then parseLoop rest' query (Some t) since
          else Failed (InvalidType t)
        else if String.eqb a "--since" && negb (String.eqb v "") then
          match Date_parse v with
          | Some ms => parseLoop rest' query type (Some (Some ms))
          | None => Failed (InvalidDate v)
          end
        else if negb (startsWith a "--") then parseLoop rest a type since
        else parseLoop rest query type since
    | [] =>
        if negb (startsWith a "--") then parseLoop rest a type since
        else parseLoop rest query type since
    end
end.

Definition parseArgs (args : list string) : Parse :=
match args with
| [] => Usage
| a :: _ =>
    if String.eqb a "--help" || String.eqb a "-h" then Usage
    else parseLoop args "" None None
end.

End Args.

(** The arguments that carry no option: none of them starts with
    [--]. *)
Definition plainWords (args : list string) : bool :=
forallb (fun a => negb (startsWith a "--")) args.

End SearchArgs.

(** ** MemorySearch.ts: the output *)

Module SearchOutput.
Import JS MemorySearch SearchVocabulary.

Definition esc : string := String (ascii_of_nat 27) EmptyString.
Definition quote : string := String (ascii_of_nat 34) EmptyString.

Definition reset : string := (esc ++ "[0m")%string.
Definition bold : string := (esc ++ "[1m")%string.
Definition dim : string := (esc ++ "[2m")%string.
Definition cyan : string := (esc ++ "[36m")%string.
Definition yellow : string := (esc ++ "[33m")%string.
Definition green : string := (esc ++ "[32m")%string.
Definition magenta : string := (esc ++ "[35m")%string.

(** [s.split(sep)[0]] *)
Fixpoint firstPart (sep : ascii) (s : string) : string :=
match s with
| EmptyString => EmptyString
| String c r => if Ascii.eqb c sep then EmptyString else String c (firstPart sep r)
end.

(** ["=".repeat(n)] *)
Fixpoint repeatString (s : string) (n : nat) : string :=
match n with
| O => EmptyString
| S k => (s ++ repeatString s k)%string
end.

(** How the printing of the results ends: with all of them on the
    console, or with an exception after those printed so far. *)
Inductive Printed :=
| Complete (out : list string)
| Crashed (out : list string).

Section Output.

(** [Date.prototype.toISOString] on a valid date; on an invalid date it
    throws a RangeError. *)
Variable toISOString : Z -> string.

(** [text.replace(regexPattern, ...)] with the escape codes around each
    match. *)
Variable highlightMatches : string -> string.

Definition typeColor (t : MemType) : string :=
match t with
| WORK => cyan
| ALGORITHM => green
| SYSTEM => magenta
end.

Definition matchLines (m : MatchContext) : list string :=
[ ("   " ++ dim ++ "Line " ++ numberToString (lineNumber m) ++ ":" ++ reset)%string ]
++ map (fun line => ("   " ++ dim ++ line ++ reset)%string) (before m)
++ [ ("   " ++ yellow ++ ">" ++ reset ++ " " ++ highlightMatches (matchLine m))%string ]
++ map (fun line => ("   " ++ dim ++ line ++ reset)%string) (after m)
++ [ EmptyString ].

Definition headerLine (result : SearchResult) : string :=
(nl ++ bold ++ typeColor (type result) ++ "[" ++ typeName (type result) ++ "]" ++ reset
    ++ " " ++ bold ++ relativePath result ++ reset
    ++ " " ++ dim ++ "(Score: " ++ numberToString (score result) ++ ")" ++ reset)%string.

(** [formatResult]: a timestamp is a [Date] object and so truthy
    whether it is valid or not; [None] is the RangeError. *)
Definition formatResult (result : SearchResult) : option string :=
match timestamp result with
| Some (Some ms) =>
    Some (String.concat nl
            (headerLine result
             :: ("   " ++ dim ++ "Timestamp: " ++ firstPart "T"%char (toISOString ms)
                       ++ reset)%string
             :: flat_map matchLines (matches result)))
| Some None => None
| None => Some (String.concat nl (headerLine result :: flat_map matchLines (matches result)))
end.

(** The loop of [main] over the results. *)
Fixpoint printResults (results : list SearchResult) (out : list string) : Printed :=
match results with
| [] => Complete out
| r :: rest =>
    match formatResult r with
    | Some text => printResults rest (out ++ [text])
    | None => Crashed out
    end
end.

(** What [main] prints once the search has returned. *)
Definition report (query : string) (results : list SearchResult) : Printed :=
match results with
| [] => Complete [ (yellow ++ "No results found for " ++ quote ++ query ++ quote ++ reset)%string ]
| _ :: _ =>
    printResults results
      [ (green ++ "Found " ++ numberToString (List.length results) ++ " files with "
               ++ numberToString (list_sum (map score results)) ++ " matches" ++ reset)%string;
        repeatString "=" 60 ]
end.

End Output.

Definition crashed (p : Printed) : bool :=
match p with
| Crashed _ => true
| Complete _ => false
end.

(** A tree with one learning whose name carries a day that does not
    exist. *)
Definition oddRead (p : string) : option string :=
if String.eqb p "/home/u/.claude/MEMORY/LEARNING/ALGORITHM/2026-13-45_odd.md"
then Some "foo" else None.

Definition oddSearch (sinceDate : option JSDate) : list SearchResult :=
search sampleDir literalPattern oddRead None (Some ["2026-13-45_odd.md"]) None
       utcDate isoDate "foo" None sinceDate.

End SearchOutput.

(** ** WeeklySynthesis.ts: a run *)

Module WeeklyRun.
Import JS WeeklySynthesis MemoryIndex.

(** [s.split(sep)[0]] *)
Fixpoint upTo (sep : ascii) (s : string) : string :=
match s with
| EmptyString => EmptyString
| String c r => if Ascii.eqb c sep then EmptyString else String c (upTo sep r)
end.

(** [args.find(a => a.startsWith('--date='))?.split('=')[1]] *)
Definition dateArg (args : list string) : option string :=
match find (fun a => startsWith a "--date=") args with
| Some a => Some (upTo "="%char (substring 7 (String.length a) a))
| None => None
end.

(** What a run writes: the synthesis document, whose text is that of
    [generateMarkdown] for the result, and the index. *)
Inductive Write :=
| SynthesisFile (filepath : string) (result : SynthesisResult)
| IndexFile (index : Index).

Record Run := mkRun {
  writes : list Write;
  exitCode : nat
}.

Section Main.

Variable HOME : string.
Variable matchTitle : string -> option string.
Variable matchRating : string -> option N.
Variable formatDate : Z -> string.
Variable localeCompare : string -> string -> Z.
Variable toFixed1 : Q -> string.
(** [new Date(text)], the time value of [new Date()], and
    [d.setDate(d.getDate() - 7)]. *)
Variable Date_parse : string -> JSDate.
Variable now : Z.
Variable weekBefore : JSDate -> JSDate.
(** The learning tree and the index that the index file holds, [None]
    when there is no file or none can be read from it. *)
Variable fs : LearningFS.
Variable stored : option Index.

Definition PAI_HOME : string := (HOME ++ "/.claude")%string.
Definition LEARNING_DIR : string := (PAI_HOME ++ "/MEMORY/LEARNING")%string.
Definition SYNTHESIS_DIR : string := (LEARNING_DIR ++ "/SYNTHESIS")%string.

(** [formatDate] on a date that may be invalid. *)
Definition formatDay (d : JSDate) : string :=
match d with
| Some ms => formatDate ms
| None => "NaN-NaN-NaN"
end.

Definition endDateOf (args : list string) : JSDate :=
match dateArg args with
| Some text => if String.eqb text "" then Some now else Date_parse text
| None => Some now
end.

Definition synthesisPath (wkEnd : string) : string :=
(SYNTHESIS_DIR ++ "/" ++ slice wkEnd 0 7 ++ "/" ++ "Weekly-Synthesis-" ++ wkEnd ++ ".md")%string.

(** [main], with the writes to the file system taken to succeed; an
    exception ends the run with exit code 1. *)
Definition main (args : list string) : Run :=
let dryRun := existsb (String.eqb "--dry-run") args in
let endDate := endDateOf args in
let start := weekBefore endDate in
let wkStart := formatDay start in
let wkEnd := formatDay endDate in
match loadLearnings LEARNING_DIR matchTitle matchRating formatDate localeCompare fs
                    start endDate with
| None => {| writes := []; exitCode := 1 |}
| Some (learnings, _) =>
    match learnings with
    | [] => {| writes := []; exitCode := 0 |}
    | _ :: _ =>
        let result := synthesize toFixed1 learnings wkStart wkEnd in
        if dryRun then {| writes := []; exitCode := 0 |}
        else
          let filepath := synthesisPath wkEnd in
          match updateMemoryIndex PAI_HOME stored result filepath with
          | Some index =>
              {| writes := [SynthesisFile filepath result; IndexFile index]; exitCode := 0 |}
          | None => {| writes := [SynthesisFile filepath result]; exitCode := 1 |}
          end
    end
end.

End Main.

(** A run over the week of the sample tree, and the same tree with the
    tag [#constructor] in three learnings. *)
Definition sampleTitle (text : string) : option string :=
if startsWith text "# " then Some (substring 2 (String.length text) text) else None.

Definition sampleCompare (a b : string) : Z :=
match String.compare a b with
| Eq => 0%Z
| Lt => (-1)%Z
| Gt => 1%Z
end.

Definition constructorTree : LearningFS :=
fun cat =>
  match cat with
  | ALGORITHM =>
      Some [ {| dname := "2026-02";
                dlist := Some [ {| fname := "2026-02-03_point.md"; fstat := Some 1770100000000%Z;
                                   fdata := Some "# Point #constructor" |};
                                {| fname := "2026-02-04_shape.md"; fstat := Some 1770200000000%Z;
                                   fdata := Some "# Shape #constructor" |};
                                {| fname := "2026-02-05_pool.md"; fstat := Some 1770300000000%Z;
                                   fdata := Some "# Pool #constructor" |} ] |} ]
  | SYSTEM => None
  end.

Definition sampleRun (fs : LearningFS) (args : list string) : Run :=
main "/home/u" sampleTitle (fun _ => None) (fun _ => "2026-02-06") sampleCompare
     toFixed1_exact MemorySearch.isoDate 1770508800000%Z
     (fun d => match d with Some ms => Some (ms - 7 * 86400000)%Z | None => None end)
     fs None args.

End WeeklyRun.

(** ** CurrentWorkManager.ts *)

Module CurrentWorkManager.
Import JS.

(** [interface OpenItem], [interface LastSession] and
    [interface CurrentWorkState]. *)
Record OpenItem := mkOpenItem {
  description : string;
  context : option string;
  createdAt : string;
  priority : option string
}.

Record LastSession := mkLastSession {
  date : string;
  summary : string;
  nextSteps : list string;
  filesModified : option (list string)
}.

Record CurrentWorkState := mkState {
  activeProjects : list string;
  lastSession : LastSession;
  openItems : list OpenItem;
  lastUpdated : string
}.

(** The file [session-continuity.json]: not there, holding the text of
    a state, or holding a text that cannot be read as JSON. *)
Inductive StateFile :=
| Missing
| Unreadable
| Holds (s : CurrentWorkState).

(** [iso.split('T')[0]] *)
Fixpoint dayOf (iso : string) : string :=
match iso with
| EmptyString => EmptyString
| String c r => if Ascii.eqb c "T"%char then EmptyString else String c (dayOf r)
end.

Section Manager.

(** [new Date().toISOString()]; the calls of one command are taken to
    fall into one millisecond. *)
Variable nowIso : string.

Definition getDefaultState : CurrentWorkState :=
{| activeProjects := [];
   lastSession := {| date := dayOf nowIso; summary := "No previous session";
                     nextSteps := []; filesModified := None |};
   openItems := [];
   lastUpdated := nowIso |}.

(** The [catch] turns a text that cannot be read into the default
    state. *)
Definition getCurrentWorkState (file : StateFile) : CurrentWorkState :=
match file with
| Holds s => s
| Missing => getDefaultState
| Unreadable => getDefaultState
end.

(** The write is taken to succeed. *)
Definition saveCurrentWorkState (state : CurrentWorkState) : StateFile :=
Holds {| activeProjects := activeProjects state;
         lastSession := lastSession state;
         openItems := openItems state;
         lastUpdated := nowIso |}.

Definition orMedium (p : option string) : string :=
match p with
| Some text => if String.eqb text "" then "medium" else text
| None => "medium"
end.

Definition addOpenItem (file : StateFile) (text : string) (prio : option string) : StateFile :=
let state := getCurrentWorkState file in
let newItem := {| description := text; context := None; createdAt := nowIso;
                  priority := Some (orMedium prio) |} in
saveCurrentWorkState {| activeProjects := activeProjects state;
                        lastSession := lastSession state;
                        openItems := openItems state ++ [newItem];
                        lastUpdated := lastUpdated state |}.

Definition updateLastSession (file : StateFile) (text : string) (steps : list string)
           (files : option (list string)) : StateFile :=
let state := getCurrentWorkState file in
saveCurrentWorkState {| activeProjects := activeProjects state;
                        lastSession := {| date := dayOf nowIso; summary := text;
                                          nextSteps := steps; filesModified := files |};
                        openItems := openItems state;
                        lastUpdated := lastUpdated state |}.

Definition addActiveProject (file : StateFile) (projectName : string) : StateFile :=
let state := getCurrentWorkState file in
if existsb (String.eqb projectName) (activeProjects state) then file
else saveCurrentWorkState {| activeProjects := activeProjects state ++ [projectName];
                             lastSession := lastSession state;
                             openItems := openItems state;
                             lastUpdated := lastUpdated state |}.

Definition removeActiveProject (file : StateFile) (projectName : string) : StateFile :=
let state := getCurrentWorkState file in
saveCurrentWorkState {| activeProjects :=
                          filter (fun p => negb (String.eqb p projectName))
                                 (activeProjects state);
                        lastSession := lastSession state;
                        openItems := openItems state;
                        lastUpdated := lastUpdated state |}.

Definition clearOpenItem (file : StateFile) (text : string) : StateFile :=
let state := getCurrentWorkState file in
saveCurrentWorkState {| activeProjects := activeProjects state;
                        lastSession := lastSession state;
                        openItems :=
                          filter (fun item => negb (String.eqb (description item) text))
                                 (openItems state);
                        lastUpdated := lastUpdated state |}.

(** The [switch] of the command line: the file after the command. *)
Definition run (args : list string) (file : StateFile) : StateFile :=
match args with
| [] => file
| command :: rest =>
    if String.eqb command "add-item" then
      match rest with
      | text :: more => if String.eqb text "" then file
                        else addOpenItem file text (hd_error more)
      | [] => file
      end
    else if String.eqb command "add-project" then
      match rest with
      | project :: _ => if String.eqb project "" then file
                        else addActiveProject file project
      | [] => file
      end
    else if String.eqb command "update-session" then
      match rest with
      | text :: steps =>
          if String.eqb text "" then file
          else match steps with
               | [] => file
               | _ :: _ => updateLastSession file text steps None
               end
      | [] => file
      end
    else file
end.

End Manager.

Definition projectsOf (file : StateFile) : list string :=
match file with
| Holds s => activeProjects s
| _ => []
end.

Definition itemsOf (file : StateFile) : list OpenItem :=
match file with
| Holds s => openItems s
| _ => []
end.

End CurrentWorkManager.

(** * Properties *)

(** ** Facts about the array primitives *)

Module JSFacts.
Import JS.

Lemma existsb_eqb_In (x : string) (l : list string) :
  existsb (String.eqb x) l = true <-> In x l.
Proof.
  rewrite existsb_exists. split.
  - intros [y [Hy He]]. apply String.eqb_eq in He. now subst.
  - intros H. exists x. split; [assumption | apply String.eqb_refl].
Qed.

Lemma dedupeFrom_In (xs seen : list string) (x : string) :
  In x (dedupeFrom seen xs) <-> In x xs /\ ~ In x seen.
Proof.
  revert seen. induction xs as [|y r IH]; intros seen; simpl.
  - tauto.
  - destruct (existsb (String.eqb y) seen) eqn:E.
    + apply existsb_eqb_In in E. rewrite IH. split.
      * tauto.
      * intros [[->|H] Hn]; tauto.
    + assert (Hy : ~ In y seen).
      { intro H. apply existsb_eqb_In in H. congruence. }
      simpl. rewrite IH. simpl. split.
      * intros [->|[H Hn]]; [tauto|]. split; [tauto|]. intro; apply Hn; tauto.
      * intros [[->|H] Hn]; [tauto|].
        destruct (string_dec y x) as [->|Hne]; [tauto|]. right. split; [assumption|].
        intros [?|?]; tauto.
Qed.

Lemma dedupeFrom_NoDup (xs seen : list string) : NoDup (dedupeFrom seen xs).
Proof.
  revert seen. induction xs as [|y r IH]; intros seen; simpl.
  - constructor.
  - destruct (existsb (String.eqb y) seen); [apply IH|].
    constructor; [|apply IH].
    rewrite dedupeFrom_In. simpl. tauto.
Qed.

Lemma dedupe_In (xs : list string) (x : string) : In x (dedupe xs) <-> In x xs.
Proof. unfold dedupe. rewrite dedupeFrom_In. simpl. tauto. Qed.

Lemma dedupe_NoDup (xs : list string) : NoDup (dedupe xs).
Proof. apply dedupeFrom_NoDup. Qed.

Lemma dedupeFrom_length_le (xs seen : list string) :
  List.length (dedupeFrom seen xs) <= List.length xs.
Proof.
  revert seen. induction xs as [|y r IH]; intros seen; simpl; [lia|].
  destruct (existsb (String.eqb y) seen); simpl.
  - specialize (IH seen). lia.
  - specialize (IH (y :: seen)). lia.
Qed.

Lemma dedupe_length_le (xs : list string) :
  List.length (dedupe xs) <= List.length xs.
Proof. apply dedupeFrom_length_le. Qed.

(** *** The stable sort *)

Section Sorting.
Context {A : Type} (before : A -> A -> bool).

Lemma insertBy_perm (x : A) (l : list A) :
  Permutation (insertBy before x l) (x :: l).
Proof.
  induction l as [|y r IH]; simpl; [reflexivity|].
  destruct (before x y); [reflexivity|].
  rewrite IH. apply perm_swap.
Qed.

Lemma sortBy_perm (l : list A) : Permutation (sortBy before l) l.
Proof.
  induction l as [|x r IH]; simpl; [reflexivity|].
  rewrite insertBy_perm. now constructor.
Qed.

Lemma sortBy_In (l : list A) (x : A) : In x (sortBy before l) <-> In x l.
Proof.
  split; apply Permutation_in; [|symmetry]; apply sortBy_perm.
Qed.

Lemma sortBy_length (l : list A) : List.length (sortBy before l) = List.length l.
Proof. apply Permutation_length, sortBy_perm. Qed.

Hypothesis before_total : forall x y, before x y = true \/ before y x = true.
Hypothesis before_trans :
  forall x y z, before x y = true -> before y z = true -> before x z = true.

Let ordered (x y : A) : Prop := before x y = true.

Lemma insertBy_sorted (x : A) (l : list A) :
  StronglySorted ordered l -> StronglySorted ordered (insertBy before x l).
Proof.
  induction 1 as [|y r Hr IH Hy]; simpl.
  - constructor; constructor.
  - destruct (before x y) eqn:E.
    + constructor; [constructor; assumption|].
      constructor; [exact E|].
      rewrite Forall_forall in *. intros z Hz.
      eapply before_trans; [exact E|]. now apply Hy.
    + constructor; [assumption|].
      rewrite Forall_forall in *. intros z Hz.
      apply (Permutation_in _ (insertBy_perm x r)) in Hz.
      destruct Hz as [<-|Hz]; [|now apply Hy].
      destruct (before_total x y) as [H|H]; [congruence|exact H].
Qed.

Lemma sortBy_sorted (l : list A) : StronglySorted ordered (sortBy before l).
Proof.
  induction l as [|x r IH]; simpl; [constructor|].
  now apply insertBy_sorted.
Qed.

End Sorting.

End JSFacts.

(** ** Facts about strings *)

Module StringFacts.
Import JS WeeklySynthesis.

Lemma append_assoc (a b c : string) : ((a ++ b) ++ c = a ++ (b ++ c))%string.
Proof. induction a as [|x a IH]; simpl; [reflexivity|]. now rewrite IH. Qed.

Lemma append_nil_r (a : string) : (a ++ "")%string = a.
Proof. induction a as [|x a IH]; simpl; [reflexivity|]. now rewrite IH. Qed.

Lemma toLowerCase_app (a b : string) :
  toLowerCase (a ++ b) = (toLowerCase a ++ toLowerCase b)%string.
Proof. induction a as [|x a IH]; simpl; [reflexivity|]. now rewrite IH. Qed.

Lemma startsWith_iff (s p : string) :
  startsWith s p = true <-> exists post, s = (p ++ post)%string.
Proof.
  revert s. induction p as [|a p IH]; intros s; simpl.
  - split; [intros _; now exists s|reflexivity].
  - destruct s as [|b s].
    + split; [discriminate|intros [post H]; discriminate].
    + rewrite andb_true_iff, IH. split.
      * intros [E [post ->]]. apply Ascii.eqb_eq in E. subst. now exists post.
      * intros [post H]. injection H as -> ->. split; [apply Ascii.eqb_refl|now exists post].
Qed.

Lemma includes_iff (s sub : string) :
  includes s sub = true <-> exists pre post, s = (pre ++ sub ++ post)%string.
Proof.
  induction s as [|c s IH]; simpl.
  - rewrite orb_false_r, startsWith_iff. split.
    + intros [post H]. now exists EmptyString, post.
    + intros [[|x pre] [post H]]; [now exists post|discriminate].
  - rewrite orb_true_iff, startsWith_iff, IH. split.
    + intros [[post H]|[pre [post H]]].
      * now exists EmptyString, post.
      * exists (String c pre), post. simpl. now rewrite H.
    + intros [[|x pre] [post H]].
      * left. now exists post.
      * right. simpl in H. injection H as -> ->. now exists pre, post.
Qed.

(** Every tag found by the scan is a piece of the text that was read. *)
Lemma scanHashtags_sub (s : string) :
  forall cur t, In t (scanHashtags cur s) ->
                exists pre post, (tagText cur ++ s = pre ++ t ++ post)%string.
Proof.
  induction s as [|c r IH]; intros cur t; simpl scanHashtags.
  - destruct cur as [[|x run]|]; simpl; try tauto.
    intros [<-|[]]. exists EmptyString, EmptyString. simpl. now rewrite !append_nil_r.
  - assert (Hnext : In t (scanHashtags (if Ascii.eqb c "#"%char then Some EmptyString else None) r) ->
                    exists pre post, (String c r = pre ++ t ++ post)%string).
    { intros H. apply IH in H as [pre [post H]].
      destruct (Ascii.eqb c "#"%char) eqn:E.
      - apply Ascii.eqb_eq in E. subst c. simpl in H. now exists pre, post.
      - simpl in H. exists (String c pre), post. simpl. now rewrite H. }
    destruct cur as [run|].
    + destruct (isTagChar c).
      * intros H. apply IH in H as [pre [post H]]. exists pre, post.
        rewrite <- H. simpl. now rewrite append_assoc.
      * intros H. apply in_app_or in H as [H|H].
        -- destruct run as [|x run]; simpl in H; [contradiction|].
           destruct H as [<-|[]]. now exists EmptyString, (String c r).
        -- apply Hnext in H as [pre [post H]].
           exists (String "#"%char run ++ pre)%string, post.
           rewrite H. cbn [tagText]. now rewrite !append_assoc.
    + intros H. apply Hnext in H as [pre [post H]]. now exists pre, post.
Qed.

Lemma matchHashtags_sub (s t : string) :
  In t (matchHashtags s) -> exists pre post, s = (pre ++ t ++ post)%string.
Proof. intros H. apply scanHashtags_sub in H. exact H. Qed.

(** Every tag starts with [#] and is longer than that. *)
Lemma scanHashtags_hash (s : string) :
  forall cur t, In t (scanHashtags cur s) -> exists x w, t = String "#"%char (String x w).
Proof.
  induction s as [|c r IH]; intros cur t; simpl scanHashtags.
  - destruct cur as [[|x run]|]; simpl; try tauto. intros [<-|[]]. now exists x, run.
  - destruct cur as [run|].
    + destruct (isTagChar c); [apply IH|].
      intros H. apply in_app_or in H as [H|H]; [|now apply IH in H].
      destruct run as [|x run]; simpl in H; [contradiction|].
      destruct H as [<-|[]]. now exists x, run.
    + apply IH.
Qed.

Lemma techTerms_lower (t : string) : In t techTerms -> toLowerCase t = t.
Proof.
  unfold techTerms. simpl.
  intros H. repeat (destruct H as [<-|H]; [reflexivity|]). contradiction.
Qed.

Lemma techTerms_no_hash (t : string) : In t techTerms -> stripHash t = t.
Proof.
  unfold techTerms. simpl.
  intros H. repeat (destruct H as [<-|H]; [reflexivity|]). contradiction.
Qed.

End StringFacts.

(** ** The pattern grouper *)

Module GroupingFacts.
Import JS JSFacts WeeklySynthesis.

Lemma itemsOf_groupPush (g : list (string * list Learning)) (k k' : string) (l : Learning) :
  itemsOf k (groupPush g k' l) =
  if String.eqb k' k then itemsOf k g ++ [l] else itemsOf k g.
Proof.
  unfold itemsOf. induction g as [|[k0 items] r IH]; simpl.
  - destruct (String.eqb k' k); reflexivity.
  - destruct (String.eqb k0 k') eqn:E0; simpl.
    + apply String.eqb_eq in E0. subst k0.
      destruct (String.eqb k' k); reflexivity.
    + destruct (String.eqb k0 k) eqn:E1; simpl.
      * apply String.eqb_eq in E1. subst k0. rewrite String.eqb_sym, E0. reflexivity.
      * exact IH.
Qed.

Lemma keys_groupPush (g : list (string * list Learning)) (k : string) (l : Learning) :
  forall x, In x (map fst (groupPush g k l)) <-> In x (map fst g) \/ x = k.
Proof.
  induction g as [|[k0 items] r IH]; intros x; simpl.
  - intuition.
  - destruct (String.eqb k0 k) eqn:E; simpl.
    + apply String.eqb_eq in E. subst. intuition.
    + rewrite IH. intuition.
Qed.

Lemma groupPush_ok (g : list (string * list Learning)) (k : string) (l : Learning) :
  groupedOk g -> groupedOk (groupPush g k l).
Proof.
  unfold groupedOk. induction g as [|[k0 items] r IH]; simpl; intros [Hnd Hne].
  - split; repeat constructor; [intros []|discriminate].
  - inversion Hnd as [|? ? Hk0 Hnd']; subst. inversion Hne as [|? ? Hi Hne']; subst.
    destruct (String.eqb k0 k) eqn:E; simpl.
    + split; [assumption|]. constructor; [|assumption].
      simpl. intro H. now apply app_eq_nil in H as [_ H].
    + destruct (IH (conj Hnd' Hne')) as [IH1 IH2]. split.
      * constructor; [|assumption]. rewrite keys_groupPush. intros [H|H]; [tauto|].
        subst. rewrite String.eqb_refl in E. discriminate.
      * constructor; assumption.
Qed.

Lemma pushAll_ok (kws : list string) (l : Learning) (g : list (string * list Learning)) :
  groupedOk g -> groupedOk (fold_left (fun g k => groupPush g k l) kws g).
Proof.
  revert g. induction kws as [|k r IH]; simpl; intros g H; [assumption|].
  apply IH, groupPush_ok, H.
Qed.

Lemma itemsOf_pushAll (kws : list string) (l : Learning) (k : string) :
  NoDup kws ->
  forall g, itemsOf k (fold_left (fun g k' => groupPush g k' l) kws g) =
            itemsOf k g ++ (if existsb (String.eqb k) kws then [l] else []).
Proof.
  induction 1 as [|k' r Hk' Hnd IH]; intros g; simpl.
  - now rewrite app_nil_r.
  - rewrite IH, itemsOf_groupPush. rewrite (String.eqb_sym k k').
    destruct (String.eqb k' k) eqn:E; simpl; [|reflexivity].
    apply String.eqb_eq in E. subst k'.
    destruct (existsb (String.eqb k) r) eqn:Er.
    + apply existsb_eqb_In in Er. contradiction.
    + now rewrite app_nil_r.
Qed.

Lemma groupStep_ok (ls : list Learning) (g : list (string * list Learning)) :
  groupedOk g ->
  groupedOk (fold_left
               (fun g l => fold_left (fun g k => groupPush g k l) (extractKeywords (content l)) g)
               ls g).
Proof.
  revert g. induction ls as [|l r IH]; simpl; intros g H; [assumption|].
  apply IH, pushAll_ok, H.
Qed.

Lemma groupLearnings_ok (ls : list Learning) : groupedOk (groupLearnings ls).
Proof. apply groupStep_ok. split; constructor. Qed.

Lemma itemsOf_groupStep (ls : list Learning) (k : string) :
  forall g, itemsOf k (fold_left
               (fun g l => fold_left (fun g k => groupPush g k l) (extractKeywords (content l)) g)
               ls g) = itemsOf k g ++ docsWith k ls.
Proof.
  induction ls as [|l r IH]; intros g; simpl.
  - now rewrite app_nil_r.
  - rewrite IH, itemsOf_pushAll by apply dedupe_NoDup.
    unfold hasKeyword. rewrite <- app_assoc.
    destruct (existsb (String.eqb k) (extractKeywords (content l))); reflexivity.
Qed.

(** The entry of a keyword holds the documents that contain it, in the
    order of the input. *)
Lemma itemsOf_groupLearnings (ls : list Learning) (k : string) :
  itemsOf k (groupLearnings ls) = docsWith k ls.
Proof. unfold groupLearnings. now rewrite itemsOf_groupStep. Qed.

Lemma entry_itemsOf (g : list (string * list Learning)) (k : string) (items : list Learning) :
  NoDup (map fst g) -> In (k, items) g -> itemsOf k g = items.
Proof.
  unfold itemsOf. induction g as [|[k0 it0] r IH]; simpl; intros Hnd Hin; [contradiction|].
  inversion Hnd as [|? ? Hk0 Hnd']; subst.
  destruct Hin as [Heq|Hin].
  - inversion Heq; subst. now rewrite String.eqb_refl.
  - destruct (String.eqb k0 k) eqn:E.
    + apply String.eqb_eq in E. subst k0. exfalso. apply Hk0.
      apply (in_map fst) in Hin. exact Hin.
    + now apply IH.
Qed.

Lemma itemsOf_entry (g : list (string * list Learning)) (k : string) :
  itemsOf k g <> [] -> In (k, itemsOf k g) g.
Proof.
  unfold itemsOf. destruct (find _ g) as [[k0 it0]|] eqn:F; [|congruence].
  intros _. apply find_some in F as [Hin E]. simpl in *.
  apply String.eqb_eq in E. now subst.
Qed.

Lemma flat_map_singletons {A B} (f : A -> list B) (l : list A) :
  (forall x, In x l -> exists y, f x = [y]) ->
  List.length (flat_map f l) = List.length l.
Proof.
  induction l as [|x r IH]; simpl; intros H; [reflexivity|].
  destruct (H x (or_introl eq_refl)) as [y ->]. simpl. f_equal.
  apply IH. intros z Hz. apply H. now right.
Qed.

(** The non-null assertion of [uniqueLearnings] is justified: every path
    of the set is the path of an item. *)
Lemma uniqueLearnings_length (items : list Learning) :
  List.length (uniqueLearnings items) = List.length (dedupe (map path items)).
Proof.
  unfold uniqueLearnings. apply flat_map_singletons.
  intros p Hp. apply dedupe_In, in_map_iff in Hp as [l [Hl Hin]].
  destruct (find (fun l0 => String.eqb (path l0) p) items) as [l'|] eqn:F.
  - now exists l'.
  - exfalso. apply (find_none _ _ F) in Hin. subst p.
    now rewrite String.eqb_refl in Hin.
Qed.

Lemma uniqueLearnings_le (items : list Learning) :
  List.length (uniqueLearnings items) <= List.length items.
Proof.
  rewrite uniqueLearnings_length.
  etransitivity; [apply dedupe_length_le|]. now rewrite length_map.
Qed.


(** *** Keywords and themes *)

Lemma extractKeywords_In (text k : string) :
  In k (extractKeywords text) <->
  In k (matchHashtags text) \/ (In k techTerms /\ includes (toLowerCase text) k = true).
Proof. unfold extractKeywords. now rewrite dedupe_In, in_app_iff, filter_In. Qed.

Lemma hasKeyword_iff (k : string) (l : Learning) :
  hasKeyword k l = true <-> In k (extractKeywords (content l)).
Proof. apply existsb_eqb_In. Qed.

Lemma hasTheme_iff (t : string) (l : Learning) :
  hasTheme t l = true <-> exists k, In k (extractKeywords (content l)) /\ stripHash k = t.
Proof.
  unfold hasTheme. rewrite existsb_exists.
  split; intros [k [H1 H2]]; exists k; (split; [exact H1|]); now apply String.eqb_eq.
Qed.

(** A document tagged with a vocabulary term also has the term itself
    as a keyword: the tag contains it. *)
Lemma tag_implies_term (text t : string) :
  In t techTerms -> In (String "#"%char t) (matchHashtags text) ->
  In t (extractKeywords text).
Proof.
  intros Ht Htag. apply extractKeywords_In. right. split; [exact Ht|].
  apply StringFacts.matchHashtags_sub in Htag as [pre [post ->]].
  apply StringFacts.includes_iff.
  exists (toLowerCase pre ++ "#")%string, (toLowerCase post).
  rewrite !StringFacts.toLowerCase_app. cbn [toLowerCase].
  rewrite (StringFacts.techTerms_lower t Ht).
  change (lowerChar "#"%char) with "#"%char.
  rewrite StringFacts.append_assoc. reflexivity.
Qed.

Lemma hash_not_term (t : string) : ~ In (String "#"%char t) techTerms.
Proof.
  intros H. apply StringFacts.techTerms_no_hash in H. simpl in H.
  apply (f_equal String.length) in H. simpl in H. lia.
Qed.

Lemma stripHash_themeKey (t : string) : stripHash (themeKey t) = t.
Proof.
  unfold themeKey. destruct (in_dec string_dec t techTerms) as [H|H].
  - now apply StringFacts.techTerms_no_hash.
  - reflexivity.
Qed.

Lemma hasTheme_key (t : string) (l : Learning) :
  hasTheme t l = true -> hasKeyword (themeKey t) l = true.
Proof.
  rewrite hasTheme_iff, hasKeyword_iff. intros [k [Hk Hs]].
  pose proof Hk as Hk'. apply extractKeywords_In in Hk' as [Htag|[Hterm _]].
  - destruct (StringFacts.scanHashtags_hash _ _ _ Htag) as [x [w ->]].
    simpl in Hs. subst t. unfold themeKey.
    destruct (in_dec string_dec (String x w) techTerms) as [H|H]; [|exact Hk].
    now apply tag_implies_term.
  - rewrite (StringFacts.techTerms_no_hash k Hterm) in Hs. subst t. unfold themeKey.
    destruct (in_dec string_dec k techTerms) as [H|H]; [exact Hk|contradiction].
Qed.

Lemma hasKeyword_theme (k : string) (l : Learning) :
  hasKeyword k l = true -> hasTheme (stripHash k) l = true.
Proof. rewrite hasTheme_iff, hasKeyword_iff. intros H. now exists k. Qed.

Lemma distinct_mono (f g : Learning -> bool) (ls : list Learning) :
  (forall l, f l = true -> g l = true) ->
  List.length (dedupe (map path (filter f ls)))
  <= List.length (dedupe (map path (filter g ls))).
Proof.
  intros H. apply NoDup_incl_length; [apply dedupe_NoDup|].
  intros p Hp. apply dedupe_In, in_map_iff in Hp as [l [Hl Hin]].
  apply filter_In in Hin as [Hin Hf].
  apply dedupe_In, in_map_iff. exists l. split; [exact Hl|].
  apply filter_In. split; [exact Hin|now apply H].
Qed.

(** The documents of a theme are those of its key. *)
Lemma distinctThemeDocs_key (t : string) (ls : list Learning) :
  distinctThemeDocs t ls = distinctDocs (themeKey t) ls.
Proof.
  apply Nat.le_antisymm; unfold distinctThemeDocs, distinctDocs, themeDocs, docsWith.
  - apply distinct_mono. apply hasTheme_key.
  - apply distinct_mono. intros l H. apply hasKeyword_theme in H.
    now rewrite stripHash_themeKey in H.
Qed.

Lemma distinctDocs_theme (k : string) (ls : list Learning) :
  distinctDocs k ls <= distinctThemeDocs (stripHash k) ls.
Proof. apply distinct_mono. apply hasKeyword_theme. Qed.

Lemma distinctDocs_tag_term (t : string) (ls : list Learning) :
  In t techTerms -> distinctDocs (String "#"%char t) ls <= distinctDocs t ls.
Proof.
  intros Ht. apply distinct_mono. intros l. rewrite !hasKeyword_iff. intros H.
  apply tag_implies_term; [exact Ht|].
  apply extractKeywords_In in H as [H|[H _]]; [exact H|].
  now apply hash_not_term in H.
Qed.

Lemma filter_perm_length {A} (P : A -> bool) (l l' : list A) :
  Permutation l l' -> List.length (filter P l) = List.length (filter P l').
Proof.
  induction 1 as [|x l l' _ IH|x y l|l l' l'' _ IH1 _ IH2]; simpl.
  - reflexivity.
  - destruct (P x); simpl; now rewrite IH.
  - destruct (P x), (P y); reflexivity.
  - now rewrite IH1.
Qed.

Lemma filter_flat_map_pos {A B} (P : B -> bool) (f : A -> list B) (l : list A) (e : A) (p : B) :
  In e l -> In p (f e) -> P p = true -> 1 <= List.length (filter P (flat_map f l)).
Proof.
  intros He Hp HP.
  assert (H : In p (filter P (flat_map f l))).
  { apply filter_In. split; [|exact HP]. apply in_flat_map. now exists e. }
  destruct (filter P (flat_map f l)); [contradiction|simpl; lia].
Qed.

(** Two entries of the map that both pass the threshold give two
    groups. *)
Lemma two_entries_two_groups {A B} (P : B -> bool) (f : A -> list B) (l : list A)
      (e1 e2 : A) (p1 p2 : B) :
  In e1 l -> In e2 l -> e1 <> e2 ->
  In p1 (f e1) -> In p2 (f e2) -> P p1 = true -> P p2 = true ->
  2 <= List.length (filter P (flat_map f l)).
Proof.
  intros H1 H2 Hne Hp1 Hp2 HP1 HP2.
  apply in_split in H1 as [l1 [l2 ->]].
  rewrite flat_map_app. cbn [flat_map]. rewrite !filter_app, !length_app.
  assert (M : 1 <= List.length (filter P (f e1))).
  { assert (H : In p1 (filter P (f e1))) by (apply filter_In; now split).
    destruct (filter P (f e1)); [contradiction|simpl; lia]. }
  apply in_app_or in H2 as [H2|[H2|H2]].
  - pose proof (filter_flat_map_pos P f l1 e2 p2 H2 Hp2 HP2). lia.
  - congruence.
  - pose proof (filter_flat_map_pos P f l2 e2 p2 H2 Hp2 HP2). lia.
Qed.

Section Patterns.
Variable toFixed1 : Q -> string.

(** The groups that leave the threshold loop, before sorting. *)
Lemma emitted_iff (ls : list Learning) (p : Pattern) :
  In p (flat_map (emitPattern toFixed1) (groupLearnings ls)) <->
  exists k, 3 <= distinctDocs k ls /\
            p = toPattern toFixed1 k (uniqueLearnings (docsWith k ls)).
Proof.
  rewrite in_flat_map. split.
  - intros [[k items] [Hin Hp]].
    apply entry_itemsOf in Hin; [|apply groupLearnings_ok].
    rewrite itemsOf_groupLearnings in Hin. subst items.
    unfold emitPattern in Hp.
    destruct (Nat.leb 3 (List.length (docsWith k ls))); [|contradiction].
    destruct (Nat.leb 3 (List.length (uniqueLearnings (docsWith k ls)))) eqn:E; [|contradiction].
    destruct Hp as [<-|[]]. exists k. split; [|reflexivity].
    apply Nat.leb_le in E. unfold distinctDocs. now rewrite <- uniqueLearnings_length.
  - intros [k [Hk ->]]. exists (k, docsWith k ls).
    unfold distinctDocs in Hk. rewrite <- uniqueLearnings_length in Hk.
    pose proof (uniqueLearnings_le (docsWith k ls)) as Hle. split.
    + rewrite <- itemsOf_groupLearnings. apply itemsOf_entry.
      rewrite itemsOf_groupLearnings. intro E. apply (f_equal (@List.length _)) in E. simpl in E. lia.
    + unfold emitPattern.
      destruct (Nat.leb_spec 3 (List.length (docsWith k ls))); [|lia].
      destruct (Nat.leb_spec 3 (List.length (uniqueLearnings (docsWith k ls)))); [|lia].
      now left.
Qed.

Lemma identifyPatterns_iff (ls : list Learning) (p : Pattern) :
  In p (identifyPatterns toFixed1 ls) <->
  exists k, 3 <= distinctDocs k ls /\
            p = toPattern toFixed1 k (uniqueLearnings (docsWith k ls)).
Proof. unfold identifyPatterns. rewrite sortBy_In. apply emitted_iff. Qed.

Lemma entry_of_keyword (ls : list Learning) (k : string) :
  3 <= distinctDocs k ls ->
  In (k, docsWith k ls) (groupLearnings ls) /\
  emitPattern toFixed1 (k, docsWith k ls) = [groupOf toFixed1 k ls].
Proof.
  intros Hk. unfold distinctDocs in Hk. rewrite <- uniqueLearnings_length in Hk.
  pose proof (uniqueLearnings_le (docsWith k ls)) as Hle. split.
  - rewrite <- itemsOf_groupLearnings. apply itemsOf_entry.
    rewrite itemsOf_groupLearnings. intro E.
    apply (f_equal (@List.length _)) in E. simpl in E. lia.
  - unfold emitPattern.
    destruct (Nat.leb_spec 3 (List.length (docsWith k ls))); [|lia].
    destruct (Nat.leb_spec 3 (List.length (uniqueLearnings (docsWith k ls)))); [|lia].
    reflexivity.
Qed.

(** A vocabulary term used as a tag in three distinct documents is
    grouped twice, under two keys with one theme. *)
Lemma tagged_term_two_groups (ls : list Learning) (t : string) :
  In t techTerms -> 3 <= distinctDocs (String "#"%char t) ls ->
  2 <= List.length (filter (fun p => String.eqb (theme p) t) (identifyPatterns toFixed1 ls)).
Proof.
  intros Ht H1.
  assert (H2 : 3 <= distinctDocs t ls).
  { etransitivity; [exact H1|]. now apply distinctDocs_tag_term. }
  destruct (entry_of_keyword ls _ H1) as [I1 E1].
  destruct (entry_of_keyword ls _ H2) as [I2 E2].
  unfold identifyPatterns.
  rewrite (filter_perm_length _ _ _ (sortBy_perm byOccurrences _)).
  apply (two_entries_two_groups _ _ _ _ _ (groupOf toFixed1 (String "#"%char t) ls)
                                (groupOf toFixed1 t ls) I1 I2).
  - intros E. injection E as E _. apply (f_equal String.length) in E. simpl in E. lia.
  - rewrite E1. now left.
  - rewrite E2. now left.
  - cbn. apply String.eqb_refl.
  - cbn [theme groupOf toPattern]. rewrite (StringFacts.techTerms_no_hash t Ht).
    apply String.eqb_refl.
Qed.

End Patterns.

End GroupingFacts.

(** ** The synthesis run *)

Module SynthesisFacts.
Import JS JSFacts WeeklySynthesis GroupingFacts.

Lemma sum_truthy_pos (ls : list Learning) (acc : N) :
  Forall (fun l => ratingTruthy l = true) ls ->
  (acc + N.of_nat (List.length ls) <=
   fold_left (fun sum l => (sum + ratingOr0 l)%N) ls acc)%N.
Proof.
  intros H. revert acc. induction H as [|l r Hl Hr IH]; intros acc; cbn [fold_left List.length].
  - cbn. lia.
  - specialize (IH (acc + ratingOr0 l)%N).
    assert (Hpos : (1 <= ratingOr0 l)%N).
    { unfold ratingTruthy, ratingOr0 in *. destruct (rating l) as [x|]; [|discriminate].
      apply negb_true_iff, N.eqb_neq in Hl. lia. }
    rewrite Nat2N.inj_succ.
    set (total := fold_left _ r _) in *. lia.
Qed.

(** When the average is defined it is positive, so the truthiness test
    in front of [avgRating < 5] never hides it. *)
Lemma avgRating_pos (ls : list Learning) (a : Q) :
  avgRating ls = Some a -> (0 < a)%Q.
Proof.
  unfold avgRating.
  remember (filter ratingTruthy ls) as rated eqn:E.
  assert (Hall : Forall (fun l => ratingTruthy l = true) rated).
  { subst rated. apply Forall_forall. intros x Hx. now apply filter_In in Hx. }
  pose proof (sum_truthy_pos rated 0 Hall) as H.
  remember (fold_left (fun sum l => (sum + ratingOr0 l)%N) rated 0%N) as total.
  destruct rated as [|l r]; [discriminate|].
  intros [= <-]. unfold Qlt. cbn [Qnum Qden].
  cbn [List.length] in H. rewrite Nat2N.inj_succ in H. lia.
Qed.

Lemma avgRating_unrated (ls : list Learning) :
  (forall l, In l ls -> rating l = None) -> avgRating ls = None.
Proof.
  intros H. unfold avgRating.
  replace (filter ratingTruthy ls) with (@nil Learning); [reflexivity|].
  symmetry. induction ls as [|l r IH]; [reflexivity|]. simpl.
  unfold ratingTruthy at 1. rewrite (H l (or_introl eq_refl)).
  apply IH. intros x Hx. apply H. now right.
Qed.



(** C8. For every group in which no member document has a rating, the
    average is undefined and the low-rating rule is skipped: the insight
    is chosen by the theme rules and, failing them, the generic rule. *)
Theorem unrated_group_falls_through (toFixed1 : Q -> string) (theme : string)
        (ls : list Learning) :
  (forall l, In l ls -> rating l = None) ->
  avgRating ls = None /\
  generateInsight toFixed1 theme ls =
  if includes theme "bug" || includes theme "fix" || includes theme "error" then bugInsight
  else if includes theme "refactor" || includes theme "optimize" then debtInsight
  else genericInsight (List.length ls).
Proof.
  intros H. pose proof (avgRating_unrated ls H) as E. split; [exact E|].
  unfold generateInsight. rewrite E. reflexivity.
Qed.

Lemma unrated_group_falls_through_witness :
  avgRating bugCorpus = None /\
  generateInsight toFixed1_exact "session" bugCorpus
  = "Recurring theme requiring attention - 5 instances this week".
Proof.
  apply (unrated_group_falls_through toFixed1_exact "session" bugCorpus).
  intros l Hl. simpl in Hl.
  repeat (destruct Hl as [<-|Hl]; [reflexivity|]). contradiction.
Defined.

(** C3. For every keyword and every input sequence, the group of the
    keyword is in the synthesis output if and only if at least three
    distinct documents, counted by path, contain the keyword; every
    group of the output is the group of such a keyword, and its
    occurrence count is that number of distinct documents.  The same
    holds of themes (keywords without their [#]): a theme is in the
    output if and only if it is present in at least three distinct
    documents, so never with two and always with three. *)
Theorem keyword_retained_iff_three_distinct (toFixed1 : Q -> string)
        (ls : list Learning) (wkStart wkEnd : string) (k : string) :
  let out := patterns (synthesize toFixed1 ls wkStart wkEnd) in
  (In (groupOf toFixed1 k ls) out <-> 3 <= distinctDocs k ls) /\
  (forall p, In p out ->
             exists k', p = groupOf toFixed1 k' ls /\ 3 <= distinctDocs k' ls) /\
  occurrences (groupOf toFixed1 k ls) = distinctDocs k ls /\
  (forall t, (exists p, In p out /\ theme p = t) <-> 3 <= distinctThemeDocs t ls).
Proof.
  cbn zeta. unfold synthesize. cbn [patterns].
  assert (Hocc : forall k0, occurrences (groupOf toFixed1 k0 ls) = distinctDocs k0 ls).
  { intros k0. unfold groupOf, toPattern, distinctDocs. cbn [occurrences].
    apply uniqueLearnings_length. }
  split; [|split; [|split]].
  - rewrite identifyPatterns_iff. split.
    + intros [k' [Hk' E]]. fold (groupOf toFixed1 k' ls) in E.
      rewrite <- Hocc, E, Hocc. exact Hk'.
    + intros Hk. exists k. split; [exact Hk|reflexivity].
  - intros p Hp. apply identifyPatterns_iff in Hp as [k' [Hk' ->]].
    exists k'. split; [reflexivity|exact Hk'].
  - apply Hocc.
  - intros t. split.
    + intros [p [Hp <-]]. apply identifyPatterns_iff in Hp as [k' [Hk' ->]].
      cbn [theme toPattern]. etransitivity; [exact Hk'|apply distinctDocs_theme].
    + intros Ht. rewrite distinctThemeDocs_key in Ht.
      exists (groupOf toFixed1 (themeKey t) ls). split.
      * apply identifyPatterns_iff. now exists (themeKey t).
      * cbn [theme groupOf toPattern]. apply stripHash_themeKey.
Qed.

(** C1, on the code.  Whenever three distinct documents carry the tag
    [#bug], the run yields at least two groups with theme "bug", never
    exactly one: the tag [#bug] and the vocabulary term [bug], which
    every document with the tag contains, are two keys of the map, and
    both are shown under the theme "bug".  On five documents of one
    week, three of them tagged and none rated, these two groups are the
    whole output. *)
Theorem tagged_bug_grouped_twice (toFixed1 : Q -> string) :
  (forall ls wkStart wkEnd,
      3 <= distinctDocs "#bug" ls ->
      2 <= List.length (filter (fun p => String.eqb (theme p) "bug")
                               (patterns (synthesize toFixed1 ls wkStart wkEnd)))) /\
  map (fun l => existsb (String.eqb "#bug") (matchHashtags (content l))) bugCorpus
  = [true; true; true; false; false] /\
  map rating bugCorpus = [None; None; None; None; None] /\
  let r := synthesize toFixed1 bugCorpus "2026-02-01" "2026-02-08" in
  map (fun p => (theme p, occurrences p, insight p)) (patterns r)
  = [("bug", 3, bugInsight); ("bug", 3, bugInsight)] /\
  lowRatings r = [].
Proof.
  split.
  - intros ls wkStart wkEnd H. unfold synthesize. cbn [patterns].
    apply tagged_term_two_groups; [|exact H]. cbn. tauto.
  - repeat split.
Qed.

End SynthesisFacts.

(** ** The linear search engine *)

Module SearchFacts.
Import JS JSFacts MemorySearch.

Lemma test_miss (rx : Matcher) (input : string) (idx : nat) :
  fst (test rx input idx) = false -> snd (test rx input idx) = 0.
Proof.
  unfold test. destruct (String.length input <? idx)%nat; [reflexivity|].
  destruct (rx input idx) as [[s e]|]; [discriminate|reflexivity].
Qed.

(** A scan that finds nothing leaves the pattern object at index 0 when
    it started there. *)
Lemma scanLines_nothing (rx : Matcher) (lines rest : list string) :
  forall i idx, idx = 0 -> fst (scanLines rx lines i rest idx) = [] ->
                snd (scanLines rx lines i rest idx) = 0.
Proof.
  induction rest as [|line r IH]; intros i idx Hidx; simpl.
  - intros _. exact Hidx.
  - pose proof (test_miss rx line idx) as Hm.
    destruct (test rx line idx) as [hit idx1]. simpl in Hm.
    specialize (IH (S i) idx1).
    destruct (scanLines rx lines (S i) r idx1) as [found idx2]. simpl in IH.
    destruct hit; simpl; [discriminate|]. intros ->. apply IH; auto.
Qed.

Lemma scoreOf_resets (rx : Matcher) (ms : list MatchContext) :
  forall sum idx, ms <> [] -> snd (scoreOf rx ms sum idx) = 0.
Proof.
  induction ms as [|m r IH]; intros sum idx H; [congruence|]. simpl.
  destruct r as [|m' r']; [reflexivity|]. apply IH. discriminate.
Qed.

Lemma scoreOf_sum (rx : Matcher) (ms : list MatchContext) :
  forall sum idx, fst (scoreOf rx ms sum idx) =
                  sum + list_sum (map (fun m => matchCount rx (matchLine m)) ms).
Proof.
  induction ms as [|m r IH]; intros sum idx; simpl; [lia|].
  rewrite IH. lia.
Qed.

Lemma scoreOf_start (rx : Matcher) (ms : list MatchContext) (sum idx idx' : nat) :
  fst (scoreOf rx ms sum idx) = fst (scoreOf rx ms sum idx').
Proof. now rewrite !scoreOf_sum. Qed.

(** The iteration of [match] ends within the fuel given by [matchCount]:
    more fuel does not change the count. *)
Lemma countFrom_fuel (rx : Matcher) (input : string) :
  wellBehaved rx ->
  forall fuel from, String.length input + 2 <= fuel + from ->
                    countFrom rx input (S fuel) from = countFrom rx input fuel from.
Proof.
  intros Hw. induction fuel as [|f IH]; intros from Hf.
  - cbn [countFrom]. destruct (Nat.ltb_spec (String.length input) from); [reflexivity|lia].
  - change (countFrom rx input (S (S f)) from)
      with (if (String.length input <? from)%nat then 0
            else match rx input from with
                 | Some (s, e) =>
                     S (countFrom rx input (S f) (if (e =? s)%nat then S e else e))
                 | None => 0
                 end).
    cbn [countFrom].
    destruct (String.length input <? from)%nat; [reflexivity|].
    destruct (rx input from) as [[s e]|] eqn:E; [|reflexivity].
    f_equal. apply IH. apply Hw in E.
    destruct (Nat.eqb_spec e s); lia.
Qed.

Lemma matchCount_stable (rx : Matcher) (input : string) (extra : nat) :
  wellBehaved rx ->
  countFrom rx input (String.length input + 2 + extra) 0 = matchCount rx input.
Proof.
  intros Hw. unfold matchCount. induction extra as [|n IH].
  - now rewrite Nat.add_0_r.
  - rewrite Nat.add_succ_r, countFrom_fuel; [exact IH|exact Hw|lia].
Qed.

Lemma findFrom_bounds (needle hay : string) :
  forall pos from s, findFrom needle hay pos from = Some s -> from <= s /\ pos <= s.
Proof.
  induction hay as [|c r IH]; intros pos from s; simpl.
  - destruct ((from <=? pos)%nat && startsWith "" needle) eqn:E; [|discriminate].
    intros [= <-]. apply andb_true_iff in E as [E _]. apply Nat.leb_le in E. lia.
  - destruct ((from <=? pos)%nat && startsWith (String c r) needle) eqn:E.
    + intros [= <-]. apply andb_true_iff in E as [E _]. apply Nat.leb_le in E. lia.
    + intros H. apply IH in H. lia.
Qed.

Lemma literalPattern_wellBehaved (query : string) : wellBehaved (literalPattern query).
Proof.
  intros input from s e. unfold literalPattern.
  destruct (findFrom _ _ 0 from) as [s0|] eqn:E; [|discriminate].
  intros [= <- <-]. apply findFrom_bounds in E. lia.
Qed.

Section Engine.
Variable MEMORY_DIR : string.
Variable RegExp_gi : string -> Matcher.
Variable readFileSync : string -> option string.
Variable workGlob algoGlob sysGlob : option (list string).
Variable Date_ymd : Z -> Z -> Z -> JSDate.
Variable Date_parse : string -> JSDate.

Local Abbreviation searchStep := (searchStep MEMORY_DIR readFileSync Date_ymd Date_parse).
Local Abbreviation fileResults := (fileResults MEMORY_DIR readFileSync Date_ymd Date_parse).
Local Abbreviation searchFile := (searchFile readFileSync).
Local Abbreviation search := (search MEMORY_DIR RegExp_gi readFileSync workGlob algoGlob sysGlob
                           Date_ymd Date_parse).
Local Abbreviation searchIn := (searchIn MEMORY_DIR RegExp_gi readFileSync workGlob algoGlob sysGlob
                               Date_ymd Date_parse).
Local Abbreviation extractDate := (extractDate Date_ymd Date_parse).
Local Abbreviation tooOld := (tooOld Date_ymd Date_parse).

(** Every file is scanned with the pattern object at index 0: the step
    for one file does not depend on the files before it, and the
    console is not written. *)
Lemma searchStep_from_zero (rx : Matcher) (since : option JSDate)
      (acc : list SearchResult) (out : list string) (f : string * MemType) :
  searchStep rx since (acc, {| lastIndex := 0; console := out |}) f
  = (acc ++ fileResults rx since f, {| lastIndex := 0; console := out |}).
Proof.
  unfold MemorySearch.fileResults, MemorySearch.searchStep. destruct f as [p t].
  destruct (tooOld since p); [now rewrite app_nil_r|].
  unfold MemorySearch.searchFile. destruct (readFileSync p) as [text|];
    cbn [lastIndex console]; [|now rewrite app_nil_r].
  pose proof (scanLines_nothing rx (splitLines text) (splitLines text) 0 0 eq_refl) as H0.
  destruct (scanLines rx (splitLines text) 0 (splitLines text) 0) as [ms idx].
  cbn [fst snd] in H0. destruct ms as [|m r]; cbn [lastIndex console].
  - rewrite H0 by reflexivity. now rewrite app_nil_r.
  - pose proof (scoreOf_resets rx (m :: r) 0 idx) as H1.
    destruct (scoreOf rx (m :: r) 0 idx) as [sc idx']. cbn [fst snd] in *.
    rewrite H1 by discriminate. reflexivity.
Qed.

Lemma search_fold (rx : Matcher) (since : option JSDate) (files : list (string * MemType)) :
  forall acc out,
    fold_left (searchStep rx since) files (acc, {| lastIndex := 0; console := out |})
    = (acc ++ flat_map (fileResults rx since) files, {| lastIndex := 0; console := out |}).
Proof.
  induction files as [|f r IH]; intros acc out; cbn [fold_left flat_map].
  - now rewrite app_nil_r.
  - rewrite searchStep_from_zero, IH. now rewrite app_assoc.
Qed.

Lemma searchIn_eq (out : list string) (query : string) (typeFilter : option string)
      (since : option JSDate) :
  searchIn out query typeFilter since
  = (sortBy byScore (flat_map (fileResults (RegExp_gi query) since)
                              (getFilesToSearch MEMORY_DIR workGlob algoGlob sysGlob typeFilter)),
     {| lastIndex := 0; console := out |}).
Proof. unfold MemorySearch.searchIn. now rewrite search_fold. Qed.

Lemma search_In (query : string) (typeFilter : option string) (since : option JSDate)
      (r : SearchResult) :
  In r (search query typeFilter since) <->
  exists f, In f (getFilesToSearch MEMORY_DIR workGlob algoGlob sysGlob typeFilter) /\
            In r (fileResults (RegExp_gi query) since f).
Proof.
  unfold MemorySearch.search. rewrite searchIn_eq. simpl.
  rewrite sortBy_In. apply in_flat_map.
Qed.

Lemma fileResults_path (rx : Matcher) (since : option JSDate) (f : string * MemType)
      (r : SearchResult) :
  In r (fileResults rx since f) -> filePath r = fst f /\ tooOld since (fst f) = false.
Proof.
  unfold MemorySearch.fileResults, MemorySearch.searchStep. destruct f as [p t].
  destruct (tooOld since p) eqn:Eold; [intros []|].
  destruct (searchFile p rx _) as [ms w1]. destruct ms as [|m ms]; [intros []|].
  destruct (scoreOf rx (m :: ms) 0 (lastIndex w1)) as [sc idx]. cbn [fst snd app].
  intros [<-|[]]. split; [reflexivity|exact Eold].
Qed.

Lemma fileResults_since (rx : Matcher) (since : option JSDate) (f : string * MemType) :
  tooOld since (fst f) = false -> fileResults rx since f = fileResults rx None f.
Proof.
  unfold MemorySearch.fileResults, MemorySearch.searchStep. destruct f as [p t]. simpl.
  intros ->. reflexivity.
Qed.

(** The score of a result is the sum, over the lines it recorded, of the
    number of matches of the pattern in the line. *)
Lemma fileResults_score (rx : Matcher) (since : option JSDate) (f : string * MemType)
      (r : SearchResult) :
  In r (fileResults rx since f) ->
  score r = list_sum (map (fun m => matchCount rx (matchLine m)) (matches r)).
Proof.
  unfold MemorySearch.fileResults, MemorySearch.searchStep. destruct f as [p t].
  destruct (tooOld since p); [intros []|].
  destruct (searchFile p rx _) as [ms w1]. destruct ms as [|m ms]; [intros []|].
  pose proof (scoreOf_sum rx (m :: ms) 0 (lastIndex w1)) as H.
  destruct (scoreOf rx (m :: ms) 0 (lastIndex w1)) as [sc idx]. cbn [fst snd app] in H |- *.
  intros [<-|[]]. cbn [score matches]. exact H.
Qed.

(** A file that cannot be read contributes no result. *)
Lemma fileResults_unreadable (rx : Matcher) (since : option JSDate) (f : string * MemType) :
  readFileSync (fst f) = None -> fileResults rx since f = [].
Proof.
  unfold MemorySearch.fileResults, MemorySearch.searchStep. destruct f as [p t]. simpl.
  intros H. destruct (tooOld since p); [reflexivity|].
  unfold MemorySearch.searchFile. now rewrite H.
Qed.

(** Every result carries the score of the lines it recorded. *)
Lemma search_score (query : string) (typeFilter : option string) (since : option JSDate)
      (r : SearchResult) :
  In r (search query typeFilter since) ->
  score r = list_sum (map (fun m => matchCount (RegExp_gi query) (matchLine m)) (matches r)).
Proof.
  intros H. apply search_In in H as [f [_ H]]. eapply fileResults_score, H.
Qed.

(** C7. For every since-date, a document whose date cannot be resolved
    from its path (no date in the path, or an invalid one) is not
    excluded: a result that the search returns for it without the filter
    is returned with the filter, whatever the cutoff.  A document whose
    resolved date is strictly earlier than the cutoff is excluded. *)
Theorem since_filter_passes_undated (query : string) (typeFilter : option string)
        (since : JSDate) (p : string) :
  (extractDate p = None \/ extractDate p = Some None ->
   forall r, filePath r = p ->
             In r (search query typeFilter None) ->
             In r (search query typeFilter (Some since))) /\
  (forall d, extractDate p = Some d -> dateLt d since = true ->
             forall r, In r (search query typeFilter (Some since)) -> filePath r <> p).
Proof.
  split.
  - intros Hp r Hr Hin. apply search_In in Hin as [f [Hf Hin]].
    apply search_In. exists f. split; [exact Hf|].
    pose proof (fileResults_path _ _ _ _ Hin) as [Hpath _].
    rewrite fileResults_since; [exact Hin|].
    rewrite <- Hpath, Hr. unfold MemorySearch.tooOld.
    destruct Hp as [-> | ->]; reflexivity.
  - intros d Hd Hlt r Hin Hr. apply search_In in Hin as [f [_ Hin]].
    apply fileResults_path in Hin as [Hpath Hold].
    rewrite <- Hpath, Hr in Hold. unfold MemorySearch.tooOld in Hold.
    rewrite Hd, Hlt in Hold. discriminate.
Qed.

End Engine.

Lemma since_filter_passes_undated_witness :
  (forall r, filePath r = notesPath ->
             In r (sampleSearch "foo" None) ->
             In r (sampleSearch "foo" (Some (isoDate "2026-02-01")))) /\
  (forall r, In r (sampleSearch "foo" (Some (isoDate "2026-02-01"))) ->
             filePath r <> oldPath).
Proof.
  split.
  - apply (since_filter_passes_undated sampleDir literalPattern sampleRead None
             (Some sampleAlgo) (Some sampleSys) utcDate isoDate
             "foo" None (isoDate "2026-02-01") notesPath).
    left. reflexivity.
  - apply (since_filter_passes_undated sampleDir literalPattern sampleRead None
             (Some sampleAlgo) (Some sampleSys) utcDate isoDate
             "foo" None (isoDate "2026-02-01") oldPath) with (d := isoDate "2026-01-05");
      reflexivity.
Defined.

(** C2, on the code.  The score of every result is the number of
    pattern matches summed over the lines that the search recorded.  The
    recorded lines are not all the lines with a match: in a file with
    the term twice on its first line and once on its second, three
    matches in all, the search records the first line only and scores 2.
    The test of the first line leaves the pattern object at index 3,
    from where the second line, three characters long, has no match. *)
Theorem twice_then_once_scores_two :
  (forall MEMORY_DIR RegExp_gi readFileSync workGlob algoGlob sysGlob Date_ymd Date_parse
          query typeFilter since r,
      In r (search MEMORY_DIR RegExp_gi readFileSync workGlob algoGlob sysGlob
                   Date_ymd Date_parse query typeFilter since) ->
      score r = list_sum (map (fun m => matchCount (RegExp_gi query) (matchLine m))
                              (matches r))) /\
  sampleRead twicePath = Some ("foo foo" ++ nl ++ "foo")%string /\
  map (fun l => matchCount (literalPattern "foo") l) (splitLines ("foo foo" ++ nl ++ "foo"))
  = [2; 1] /\
  map (fun r => (score r, map lineNumber (matches r)))
      (filter (fun r => String.eqb (filePath r) twicePath) (sampleSearch "foo" None))
  = [(2, [1])].
Proof.
  split; [|repeat split].
  intros. eapply search_score. eassumption.
Qed.

End SearchFacts.

(** ** The learning loader *)

Module LoaderFacts.
Import JS JSFacts WeeklySynthesis.

Lemma flat_map_nested {A B C} (f : B -> list C) (g : A -> list B) (l : list A) :
  flat_map f (flat_map g l) = flat_map (fun x => flat_map f (g x)) l.
Proof.
  induction l as [|x r IH]; simpl; [reflexivity|].
  now rewrite flat_map_app, IH.
Qed.

Lemma flat_map_over_map {A B C} (f : B -> list C) (g : A -> B) (l : list A) :
  flat_map f (map g l) = flat_map (fun x => f (g x)) l.
Proof. induction l as [|x r IH]; simpl; [reflexivity|]. now rewrite IH. Qed.

Section Loading.
Variable LEARNING_DIR : string.
Variable matchTitle : string -> option string.
Variable matchRating : string -> option N.
Variable formatDate : Z -> string.
Variable localeCompare : string -> string -> Z.
Variable startDate endDate : JSDate.

Local Abbreviation loadFile := (loadFile matchTitle matchRating formatDate).
Local Abbreviation loadMonth := (loadMonth matchTitle matchRating formatDate).
Local Abbreviation loadCategory := (loadCategory LEARNING_DIR matchTitle matchRating formatDate).
Local Abbreviation learned := (learned matchTitle matchRating formatDate startDate endDate).
Local Abbreviation warned := (warned startDate endDate).

Lemma loadFiles_ok (cat : Category) (dir : string) (files : list FileEntry) :
  forallb statOk files = true ->
  forall st,
    foldM (loadFile cat dir startDate endDate) files st
    = Some (fst st ++ flat_map (fun f => learned (cat, dir, f)) files,
            snd st ++ flat_map (fun f => warned (cat, dir, f)) files).
Proof.
  induction files as [|f r IH]; intros Hs [ls out]; cbn [foldM flat_map fst snd].
  - now rewrite !app_nil_r.
  - cbn [forallb] in Hs. apply andb_true_iff in Hs as [Hf Hr].
    unfold WeeklySynthesis.loadFile, WeeklySynthesis.learned, WeeklySynthesis.warned.
    unfold statOk in Hf. destruct (fstat f) as [mtime|]; [|discriminate].
    cbn [fst snd].
    destruct (inRange mtime startDate endDate); destruct (fdata f) as [text|];
      rewrite (IH Hr); cbn [fst snd app]; rewrite <- ?app_assoc, ?app_nil_r; reflexivity.
Qed.

Lemma loadMonths_ok (cat : Category) (categoryDir : string) (months : list DirEntry) :
  forallb monthOk months = true ->
  forall st,
    foldM (loadMonth cat categoryDir startDate endDate) months st
    = Some (fst st ++ flat_map (fun m => flat_map (fun f => learned (cat, join categoryDir (dname m), f))
                                                  (filesOf m)) months,
            snd st ++ flat_map (fun m => flat_map (fun f => warned (cat, join categoryDir (dname m), f))
                                                  (filesOf m)) months).
Proof.
  induction months as [|m r IH]; intros Hs st; cbn [foldM flat_map].
  - destruct st. cbn [fst snd]. now rewrite !app_nil_r.
  - cbn [forallb] in Hs. apply andb_true_iff in Hs as [Hm Hr].
    unfold WeeklySynthesis.loadMonth. unfold monthOk, filesOf in Hm. unfold filesOf at 1 3.
    destruct (dlist m) as [entries|]; [|discriminate].
    rewrite (loadFiles_ok _ _ _ Hm). rewrite (IH Hr). cbn [fst snd].
    now rewrite <- !app_assoc.
Qed.

Lemma loadCategories_ok (fs : LearningFS) (cats : list Category) :
  forallb (fun cat => forallb monthOk (monthsOf fs cat)) cats = true ->
  forall st,
    foldM (loadCategory fs startDate endDate) cats st
    = Some (fst st ++
            flat_map (fun cat =>
                        flat_map (fun m =>
                                    flat_map (fun f => learned
                                                         (cat, join (join LEARNING_DIR (categoryName cat))
                                                                    (dname m), f))
                                             (filesOf m))
                                 (monthsOf fs cat)) cats,
            snd st ++
            flat_map (fun cat =>
                        flat_map (fun m =>
                                    flat_map (fun f => warned
                                                         (cat, join (join LEARNING_DIR (categoryName cat))
                                                                    (dname m), f))
                                             (filesOf m))
                                 (monthsOf fs cat)) cats).
Proof.
  induction cats as [|cat r IH]; intros Hs st; cbn [foldM flat_map].
  - destruct st. cbn [fst snd]. now rewrite !app_nil_r.
  - cbn [forallb] in Hs. apply andb_true_iff in Hs as [Hc Hr].
    unfold WeeklySynthesis.loadCategory. unfold monthsOf in Hc. unfold monthsOf at 1 3.
    destruct (fs cat) as [entries|].
    + rewrite (loadMonths_ok _ _ _ Hc). rewrite (IH Hr). cbn [fst snd].
      now rewrite <- !app_assoc.
    + rewrite (IH Hr). reflexivity.
Qed.

Lemma visited_flat {X} (h : Category * string * FileEntry -> list X) (fs : LearningFS) :
  flat_map h (visited LEARNING_DIR fs)
  = flat_map (fun cat =>
                flat_map (fun m =>
                            flat_map (fun f => h (cat, join (join LEARNING_DIR (categoryName cat))
                                                            (dname m), f))
                                     (filesOf m))
                         (monthsOf fs cat)) [ALGORITHM; SYSTEM].
Proof.
  unfold visited. rewrite flat_map_nested. apply flat_map_ext. intros cat.
  rewrite flat_map_nested. apply flat_map_ext. intros m.
  apply flat_map_over_map.
Qed.

(** When the directory listings and [statSync] succeed, a load returns:
    each visited file in range contributes its learning, or, when it
    cannot be read, one warning on the console. *)
Lemma loadLearnings_ok (fs : LearningFS) :
  statable fs = true ->
  loadLearnings LEARNING_DIR matchTitle matchRating formatDate localeCompare
                fs startDate endDate
  = Some (sortBy (byDate localeCompare) (flat_map learned (visited LEARNING_DIR fs)),
          flat_map warned (visited LEARNING_DIR fs)).
Proof.
  intros Hs. unfold loadLearnings.
  rewrite (loadCategories_ok fs [ALGORITHM; SYSTEM]).
  - cbn [fst snd app]. now rewrite !visited_flat.
  - exact Hs.
Qed.

End Loading.

End LoaderFacts.

(** ** Unreadable files in the two batch operations *)

Module BatchFacts.
Import JS JSFacts WeeklySynthesis MemorySearch LoaderFacts SearchFacts.

(** C9, as it stands, fails for the linear search: the tree holds a file
    that cannot be read, the search skips it, and nothing is written to
    the console. *)
Lemma search_skips_without_warning :
  In lockedPath
     (map fst (getFilesToSearch sampleDir None (Some sampleAlgo) (Some sampleSys) None)) /\
  sampleRead lockedPath = None /\
  ~ (exists line,
        In line (console (snd (searchIn sampleDir literalPattern sampleRead None
                                        (Some sampleAlgo) (Some sampleSys) utcDate isoDate
                                        [] "foo" None None)))).
Proof.
  split; [|split].
  - vm_compute. tauto.
  - reflexivity.
  - rewrite searchIn_eq. cbn [snd console]. intros [line []].
Qed.

Section Batch.
Variable LEARNING_DIR : string.
Variable matchTitle : string -> option string.
Variable matchRating : string -> option N.
Variable formatDate : Z -> string.
Variable localeCompare : string -> string -> Z.
Variable MEMORY_DIR : string.
Variable RegExp_gi : string -> Matcher.
Variable readFileSync : string -> option string.
Variable workGlob algoGlob sysGlob : option (list string).
Variable Date_ymd : Z -> Z -> Z -> JSDate.
Variable Date_parse : string -> JSDate.

(** C9, amended.  A file whose read fails never aborts the batch.  In
    the learning load (all listings and [statSync] calls succeeding) the
    result is made of what each visited file contributes: a file in
    range that cannot be read contributes no learning and one warning on
    the console; a file in range that can be read contributes its
    learning, with the fallback title, date and rating when the text
    lacks the patterns.  In the linear search the result is made of what
    each file contributes, a file that cannot be read contributes
    nothing, and the console is left as it was: the skip is silent. *)
Theorem unreadable_files_are_skipped
        (fs : LearningFS) (startDate endDate : JSDate)
        (out : list string) (query : string) (typeFilter : option string)
        (since : option JSDate) :
  statable fs = true ->
  (loadLearnings LEARNING_DIR matchTitle matchRating formatDate localeCompare
                 fs startDate endDate
   = Some (sortBy (byDate localeCompare)
                  (flat_map (learned matchTitle matchRating formatDate startDate endDate)
                            (visited LEARNING_DIR fs)),
           flat_map (warned startDate endDate) (visited LEARNING_DIR fs))
   /\ (forall cat dir f mtime,
          fstat f = Some mtime -> inRange mtime startDate endDate = true -> fdata f = None ->
          learned matchTitle matchRating formatDate startDate endDate (cat, dir, f) = []
          /\ warned startDate endDate (cat, dir, f) = [CouldNotRead (fname f)])
   /\ (forall cat dir f mtime text,
          fstat f = Some mtime -> inRange mtime startDate endDate = true ->
          fdata f = Some text ->
          learned matchTitle matchRating formatDate startDate endDate (cat, dir, f)
          = [parseLearning matchTitle matchRating formatDate cat dir (fname f) mtime text]
          /\ warned startDate endDate (cat, dir, f) = []))
  /\
  (searchIn MEMORY_DIR RegExp_gi readFileSync workGlob algoGlob sysGlob Date_ymd Date_parse
            out query typeFilter since
   = (sortBy byScore
             (flat_map (fileResults MEMORY_DIR readFileSync Date_ymd Date_parse
                                    (RegExp_gi query) since)
                       (getFilesToSearch MEMORY_DIR workGlob algoGlob sysGlob typeFilter)),
      {| lastIndex := 0; console := out |})
   /\ forall f, readFileSync (fst f) = None ->
                fileResults MEMORY_DIR readFileSync Date_ymd Date_parse
                            (RegExp_gi query) since f = []).
Proof.
  intros Hs. split; [split; [|split]|split].
  - now apply loadLearnings_ok.
  - intros cat dir f mtime Hst Hin Hrd. unfold learned, warned.
    now rewrite Hst, Hrd, Hin.
  - intros cat dir f mtime text Hst Hin Hrd. unfold learned, warned.
    now rewrite Hst, Hrd, Hin.
  - apply searchIn_eq.
  - intros f Hf. now apply fileResults_unreadable.
Qed.

End Batch.

Lemma unreadable_files_are_skipped_witness :
  sampleLoad
  = Some (map (fun n => parseLearning
                          (fun text => if startsWith text "# "
                                       then Some (substring 2 (String.length text) text)
                                       else None)
                          (fun _ => None) (fun _ => "2026-02-06")
                          WeeklySynthesis.ALGORITHM
                          "/home/u/.claude/MEMORY/LEARNING/ALGORITHM/2026-02"
                          (fst n) 0 (snd n))
              [("2026-02-03_first.md", "# First #bug"); ("2026-02-05_third.md", "# Third")],
          [CouldNotRead "2026-02-04_locked.md"])
  /\ map filePath (sampleSearch "foo" None)
     = [twicePath; oldPath; notesPath;
        "/home/u/.claude/MEMORY/LEARNING/SYSTEM/2026-02/2026-02-05_after.md"].
Proof.
  pose proof (unreadable_files_are_skipped
                "/home/u/.claude/MEMORY/LEARNING"
                (fun text => if startsWith text "# "
                             then Some (substring 2 (String.length text) text) else None)
                (fun _ => None) (fun _ => "2026-02-06")
                (fun a b => match String.compare a b with
                            | Lt => (-1)%Z | Eq => 0%Z | Gt => 1%Z end)
                sampleDir literalPattern sampleRead None (Some sampleAlgo) (Some sampleSys)
                utcDate isoDate
                sampleTree (Some 1769904000000%Z) (Some 1770508800000%Z)
                [] "foo" None None eq_refl) as [[Hload _] [Hsearch _]].
  split.
  - unfold sampleLoad. rewrite Hload. reflexivity.
  - unfold sampleSearch, search. rewrite Hsearch. reflexivity.
Defined.

End BatchFacts.

(** ** The index store *)

Module DatabaseFacts.
Import JS JSFacts MemoryDatabase.

(** *** Upsert *)

Lemma select_absent (db : Table) (key : string) :
  ~ In key (map c_id db) -> selectById db key = [].
Proof.
  induction db as [|r rest IH]; simpl; intros H; [reflexivity|].
  destruct (String.eqb (c_id r) key) eqn:E.
  - apply String.eqb_eq in E. tauto.
  - apply IH. tauto.
Qed.

Lemma existsb_conflicts (db : Table) (m : Memory) :
  existsb (conflicts m) db = true <-> In (id m) (map c_id db).
Proof.
  rewrite existsb_exists, in_map_iff. unfold conflicts.
  split; intros [r [H1 H2]]; exists r.
  - apply String.eqb_eq in H2. tauto.
  - split; [tauto|]. apply String.eqb_eq. tauto.
Qed.

Lemma update_keeps_ids (db : Table) (m : Memory) :
  map c_id (map (fun r => if conflicts m r then updatedRow r m else r) db) = map c_id db.
Proof.
  rewrite map_map. apply map_ext. intros r. now destruct (conflicts m r).
Qed.

Lemma insertMemory_ids (now : string) (db : Table) (m : Memory) :
  map c_id (insertMemory now db m)
  = if existsb (conflicts m) db then map c_id db else map c_id db ++ [id m].
Proof.
  unfold insertMemory. destruct (existsb (conflicts m) db).
  - apply update_keeps_ids.
  - now rewrite map_app.
Qed.

(** The primary key constraint is an invariant of [insertMemory]. *)
Lemma insertMemory_primaryKey (now : string) (db : Table) (m : Memory) :
  primaryKey db -> primaryKey (insertMemory now db m).
Proof.
  unfold primaryKey. intros H. rewrite insertMemory_ids.
  destruct (existsb (conflicts m) db) eqn:E; [exact H|].
  assert (Hn : ~ In (id m) (map c_id db)).
  { intro Hin. apply existsb_conflicts in Hin. congruence. }
  apply NoDup_rev in H. rewrite <- (rev_involutive (map c_id db ++ [id m])).
  apply NoDup_rev. rewrite rev_app_distr. simpl. constructor; [|exact H].
  now rewrite <- in_rev.
Qed.

Lemma select_updated (m : Memory) (db : Table) (r0 : Row) :
  primaryKey db -> In r0 db -> c_id r0 = id m ->
  selectById (map (fun r => if conflicts m r then updatedRow r m else r) db) (id m)
  = [updatedRow r0 m].
Proof.
  unfold primaryKey. induction db as [|r rest IH]; intros Hnd Hin Hid; [contradiction|].
  cbn [map] in *. inversion Hnd as [|? ? Hr Hrest]; subst.
  destruct Hin as [->|Hin].
  - assert (Ec : conflicts m r0 = true).
    { unfold conflicts. rewrite Hid. apply String.eqb_refl. }
    rewrite Ec. unfold selectById. cbn [filter c_id updatedRow].
    rewrite Hid, String.eqb_refl. f_equal.
    apply select_absent. rewrite update_keeps_ids. now rewrite <- Hid.
  - assert (Ec : conflicts m r = false).
    { unfold conflicts. apply String.eqb_neq. intro E. apply Hr.
      rewrite E, <- Hid. now apply in_map. }
    rewrite Ec. unfold selectById. cbn [filter]. unfold conflicts in Ec. rewrite Ec.
    now apply IH.
Qed.

Lemma select_inserted (now : string) (m : Memory) (db : Table) :
  existsb (conflicts m) db = false ->
  selectById (db ++ [insertedRow (nextRowid db) now m]) (id m)
  = [insertedRow (nextRowid db) now m].
Proof.
  intros E. unfold selectById. rewrite filter_app. simpl. rewrite String.eqb_refl.
  fold (selectById db (id m)). rewrite select_absent; [reflexivity|].
  intro Hin. apply existsb_conflicts in Hin. congruence.
Qed.

Lemma columns_updated (r0 : Row) (m : Memory) :
  c_id r0 = id m -> columns (updatedRow r0 m) = m.
Proof. intros H. destruct m. unfold columns. simpl in *. now rewrite H. Qed.

Lemma columns_inserted (rid : Z) (now : string) (m : Memory) :
  columns (insertedRow rid now m) = m.
Proof. now destruct m. Qed.

(** After an insert there is exactly one record of the identity, and it
    carries the inserted values. *)
Lemma select_after_insert (now : string) (db : Table) (m : Memory) :
  primaryKey db ->
  exists r, selectById (insertMemory now db m) (id m) = [r] /\ columns r = m.
Proof.
  intros Hpk. unfold insertMemory. destruct (existsb (conflicts m) db) eqn:E.
  - apply existsb_exists in E as [r0 [Hin Hc]]. unfold conflicts in Hc.
    apply String.eqb_eq in Hc. exists (updatedRow r0 m). split.
    + now apply select_updated.
    + now apply columns_updated.
  - exists (insertedRow (nextRowid db) now m). split.
    + now apply select_inserted.
    + apply columns_inserted.
Qed.

Lemma select_other (now : string) (db : Table) (m : Memory) (key : string) :
  key <> id m -> selectById (insertMemory now db m) key = selectById db key.
Proof.
  intros Hne. unfold insertMemory, selectById. destruct (existsb (conflicts m) db).
  - induction db as [|r rest IH]; [reflexivity|]. cbn [map filter].
    destruct (conflicts m r) eqn:Ec.
    + unfold conflicts in Ec. apply String.eqb_eq in Ec. cbn [c_id updatedRow].
      assert (E' : String.eqb (c_id r) key = false).
      { apply String.eqb_neq. congruence. }
      now rewrite E'.
    + destruct (String.eqb (c_id r) key); [f_equal|]; exact IH.
  - rewrite filter_app. cbn [filter c_id insertedRow].
    assert (E' : String.eqb (id m) key = false).
    { apply String.eqb_neq. congruence. }
    rewrite E'. apply app_nil_r.
Qed.

(** C5. Inserting the same identity twice yields exactly one record for
    it, and the record carries the values of the second insert: id,
    timestamp, type, topic, content, rating, tags, file_path, importance
    and stability. *)
Theorem upsert_twice_one_record (now1 now2 : string) (db : Table) (m1 m2 : Memory) :
  primaryKey db -> id m1 = id m2 ->
  exists r,
    selectById (insertMemory now2 (insertMemory now1 db m1) m2) (id m2) = [r]
    /\ columns r = m2
    /\ List.length (insertMemory now2 (insertMemory now1 db m1) m2)
       = List.length (insertMemory now1 db m1).
Proof.
  intros Hpk Hid.
  pose proof (insertMemory_primaryKey now1 db m1 Hpk) as Hpk1.
  destruct (select_after_insert now2 _ m2 Hpk1) as [r [Hsel Hcol]].
  exists r. split; [exact Hsel|]. split; [exact Hcol|].
  destruct (select_after_insert now1 db m1 Hpk) as [r1 [Hsel1 _]].
  unfold insertMemory at 1.
  assert (E : existsb (conflicts m2) (insertMemory now1 db m1) = true).
  { apply existsb_exists. exists r1.
    assert (Hin : In r1 (selectById (insertMemory now1 db m1) (id m1))).
    { rewrite Hsel1. now left. }
    apply filter_In in Hin as [Hin Hc]. split; [exact Hin|].
    unfold conflicts. now rewrite <- Hid. }
  rewrite E. apply length_map.
Qed.

Ltac distinct_keys :=
  repeat (constructor; [cbn; intuition discriminate|]); constructor.

Lemma sampleDb_primaryKey : primaryKey sampleDb.
Proof. unfold primaryKey. vm_compute. distinct_keys. Qed.

Lemma upsert_twice_one_record_witness :
  exists r,
    selectById (insertMemory "2026-02-11 08:00:01"
                  (insertMemory "2026-02-11 08:00:00" sampleDb
                                (memo "algo_new" "2026-02-07 12:00:00" "first text" 3))
                  (memo "algo_new" "2026-02-08 12:00:00" "second text" 2))
               "algo_new" = [r]
    /\ columns r = memo "algo_new" "2026-02-08 12:00:00" "second text" 2
    /\ List.length (insertMemory "2026-02-11 08:00:01"
                      (insertMemory "2026-02-11 08:00:00" sampleDb
                                    (memo "algo_new" "2026-02-07 12:00:00" "first text" 3))
                      (memo "algo_new" "2026-02-08 12:00:00" "second text" 2))
       = List.length (insertMemory "2026-02-11 08:00:00" sampleDb
                                   (memo "algo_new" "2026-02-07 12:00:00" "first text" 3)).
Proof.
  apply (upsert_twice_one_record "2026-02-11 08:00:00" "2026-02-11 08:00:01" sampleDb
           (memo "algo_new" "2026-02-07 12:00:00" "first text" 3)
           (memo "algo_new" "2026-02-08 12:00:00" "second text" 2)).
  - unfold primaryKey. vm_compute. distinct_keys.
  - reflexivity.
Defined.

(** The first insert of an identity stamps [created_at] with the time
    of the statement. *)
Lemma first_insert_created_at (now : string) (db : Table) (m : Memory) :
  ~ In (id m) (map c_id db) ->
  selectById (insertMemory now db m) (id m) = [insertedRow (nextRowid db) now m].
Proof.
  intros Hn. assert (E : existsb (conflicts m) db = false).
  { destruct (existsb (conflicts m) db) eqn:E; [|reflexivity].
    apply existsb_conflicts in E. contradiction. }
  unfold insertMemory. rewrite E. now apply select_inserted.
Qed.

(** C10. When a record that exists is upserted under its identity, its
    [created_at] keeps the value it had, every column listed in the
    statement takes the new value, and the records of the other
    identities are as before. *)
Theorem upsert_keeps_created_at (now : string) (db : Table) (m : Memory) (r0 : Row) :
  primaryKey db -> In r0 db -> c_id r0 = id m ->
  (exists r,
      selectById (insertMemory now db m) (id m) = [r]
      /\ created_at r = created_at r0
      /\ columns r = m)
  /\ forall key, key <> id m -> selectById (insertMemory now db m) key = selectById db key.
Proof.
  intros Hpk Hin Hid. split.
  - exists (updatedRow r0 m). split; [|split].
    + unfold insertMemory.
      assert (E : existsb (conflicts m) db = true).
      { apply existsb_exists. exists r0. split; [exact Hin|].
        unfold conflicts. rewrite Hid. apply String.eqb_refl. }
      rewrite E. now apply select_updated.
    + reflexivity.
    + now apply columns_updated.
  - intros key Hk. now apply select_other.
Qed.

(** The record "algo_late" was first inserted at 09:00:00; an upsert two
    days later keeps that value. *)
Lemma upsert_keeps_created_at_witness :
  (exists r,
      selectById (insertMemory "2026-02-12 10:00:00" sampleDb
                               (memo "algo_late" "2026-02-07 12:00:00" "rewritten" 2))
                 "algo_late" = [r]
      /\ created_at r = "2026-02-10 09:00:00"
      /\ columns r = memo "algo_late" "2026-02-07 12:00:00" "rewritten" 2)
  /\ forall key, key <> "algo_late" ->
                 selectById (insertMemory "2026-02-12 10:00:00" sampleDb
                                          (memo "algo_late" "2026-02-07 12:00:00" "rewritten" 2))
                            key
                 = selectById sampleDb key.
Proof.
  apply (upsert_keeps_created_at "2026-02-12 10:00:00" sampleDb
           (memo "algo_late" "2026-02-07 12:00:00" "rewritten" 2)
           (insertedRow 1 "2026-02-10 09:00:00"
                        (memo "algo_late" "2026-02-05 12:00:00" "the budget review" 3))).
  - unfold primaryKey. vm_compute. distinct_keys.
  - vm_compute. tauto.
  - reflexivity.
Defined.

(** *** Ranked search *)

Lemma string_compare_refl (s : string) : String.compare s s = Eq.
Proof.
  induction s as [|c r IH]; simpl; [reflexivity|].
  unfold Ascii.compare. now rewrite N.compare_refl.
Qed.

Lemma string_compare_lt_trans (a b c : string) :
  String.compare a b = Lt -> String.compare b c = Lt -> String.compare a c = Lt.
Proof.
  revert b c. induction a as [|x a IH]; intros [|y b] [|z c]; simpl;
    try discriminate; try reflexivity.
  unfold Ascii.compare.
  destruct (N.compare_spec (N_of_ascii x) (N_of_ascii y)) as [Exy|Lxy|Gxy];
    try discriminate;
    destruct (N.compare_spec (N_of_ascii y) (N_of_ascii z)) as [Eyz|Lyz|Gyz];
    try discriminate; intros H1 H2.
  - rewrite Exy, Eyz, N.compare_refl. now apply (IH b c).
  - apply N.compare_lt_iff in Lyz. rewrite Exy. now rewrite Lyz.
  - rewrite <- Eyz. apply N.compare_lt_iff in Lxy. now rewrite Lxy.
  - assert (L : (N_of_ascii x < N_of_ascii z)%N) by lia.
    apply N.compare_lt_iff in L. now rewrite L.
Qed.

Lemma string_not_gt_trans (a b c : string) :
  String.compare a b <> Gt -> String.compare b c <> Gt -> String.compare a c <> Gt.
Proof.
  intros H1 H2.
  destruct (String.compare a b) eqn:E1; [| |congruence].
  - apply String.compare_eq_iff in E1. now subst.
  - destruct (String.compare b c) eqn:E2; [| |congruence].
    + apply String.compare_eq_iff in E2. subst. now rewrite E1.
    + now rewrite (string_compare_lt_trans a b c E1 E2).
Qed.

Lemma string_not_gt_total (a b : string) :
  String.compare a b <> Gt \/ String.compare b a <> Gt.
Proof.
  rewrite (String.compare_antisym a b).
  destruct (String.compare b a); simpl; intuition discriminate.
Qed.

Lemma rowBefore_iff (a b : Row * Q) : rowBefore a b = true <-> rowOrder a b.
Proof.
  unfold rowBefore, rowOrder.
  destruct (Qcompare_spec (snd a) (snd b)) as [He|Hl|Hg].
  - destruct (Z.compare_spec (c_importance (fst b)) (c_importance (fst a))) as [Ze|Zl|Zg].
    + destruct (String.compare (c_timestamp (fst b)) (c_timestamp (fst a))) eqn:Es; split;
        try (intros _; right; split; [exact He|]; right; split; [now symmetry|discriminate]);
        try reflexivity; try discriminate.
      intros [H|[_ [H|[_ H]]]]; [|lia|congruence].
      rewrite He in H. now apply Qlt_irrefl in H.
    + split; [intros _; right; split; [exact He|]; now left|reflexivity].
    + split; [discriminate|].
      intros [H|[_ [H|[H _]]]]; [|lia|lia].
      rewrite He in H. now apply Qlt_irrefl in H.
  - split; [intros _; now left|reflexivity].
  - split; [discriminate|].
    intros [H|[H _]].
    + exfalso. apply (Qlt_irrefl (snd a)). now apply (Qlt_trans _ (snd b)).
    + rewrite H in Hg. now apply Qlt_irrefl in Hg.
Qed.

Lemma rowOrder_total (a b : Row * Q) : rowOrder a b \/ rowOrder b a.
Proof.
  unfold rowOrder.
  destruct (Qcompare_spec (snd a) (snd b)) as [He|Hl|Hg];
    [|left; left; exact Hl|right; left; exact Hg].
  destruct (Z.compare_spec (c_importance (fst a)) (c_importance (fst b))) as [Ze|Zl|Zg].
  - destruct (string_not_gt_total (c_timestamp (fst b)) (c_timestamp (fst a))) as [H|H].
    + left. right. split; [exact He|]. right. now split.
    + right. right. split; [now symmetry|]. right. split; [now symmetry|exact H].
  - right. right. split; [now symmetry|]. now left.
  - left. right. split; [exact He|]. now left.
Qed.

Lemma rowOrder_trans (a b c : Row * Q) : rowOrder a b -> rowOrder b c -> rowOrder a c.
Proof.
  unfold rowOrder. intros [H1|[E1 H1]] [H2|[E2 H2]].
  - left. now apply (Qlt_trans _ (snd b)).
  - left. now rewrite <- E2.
  - left. now rewrite E1.
  - right. split; [now rewrite E1|].
    destruct H1 as [H1|[I1 T1]], H2 as [H2|[I2 T2]].
    + left. lia.
    + left. lia.
    + left. lia.
    + right. split; [lia|]. now apply (string_not_gt_trans _ (c_timestamp (fst b))).
Qed.

Lemma rowBefore_total (a b : Row * Q) : rowBefore a b = true \/ rowBefore b a = true.
Proof. rewrite !rowBefore_iff. apply rowOrder_total. Qed.

Lemma rowBefore_trans (a b c : Row * Q) :
  rowBefore a b = true -> rowBefore b c = true -> rowBefore a c = true.
Proof. rewrite !rowBefore_iff. apply rowOrder_trans. Qed.

Lemma sorted_rows (l : list (Row * Q)) : StronglySorted rowOrder (sortBy rowBefore l).
Proof.
  pose proof (sortBy_sorted rowBefore rowBefore_total rowBefore_trans l) as H.
  induction H as [|x r Hr IH Hx]; constructor; [exact IH|].
  rewrite Forall_forall in *. intros y Hy. apply rowBefore_iff. now apply Hx.
Qed.

Lemma In_firstn {A} (n : nat) (l : list A) (x : A) : In x (firstn n l) -> In x l.
Proof. intros H. rewrite <- (firstn_skipn n l). apply in_or_app. now left. Qed.

Lemma In_skipn {A} (n : nat) (l : list A) (x : A) : In x (skipn n l) -> In x l.
Proof. intros H. rewrite <- (firstn_skipn n l). apply in_or_app. now right. Qed.

Lemma sorted_firstn {A} (R : A -> A -> Prop) (l : list A) (n : nat) :
  StronglySorted R l -> StronglySorted R (firstn n l).
Proof.
  intros H. revert n. induction H as [|x r Hr IH Hx]; intros [|n]; simpl; constructor.
  - apply IH.
  - rewrite Forall_forall in *. intros y Hy. apply Hx. eapply In_firstn; exact Hy.
Qed.

Lemma sorted_nth {A} (R : A -> A -> Prop) (l : list A) :
  StronglySorted R l ->
  forall i j a b, i < j -> nth_error l i = Some a -> nth_error l j = Some b -> R a b.
Proof.
  induction 1 as [|x r Hr IH Hx]; intros i j a b Hij Ha Hb.
  - destruct i; discriminate.
  - destruct j as [|j]; [lia|]. simpl in Hb. destruct i as [|i]; simpl in Ha.
    + injection Ha as <-. rewrite Forall_forall in Hx. apply Hx.
      eapply nth_error_In; exact Hb.
    + apply (IH i j); [lia|assumption|assumption].
Qed.

Lemma sorted_split {A} (R : A -> A -> Prop) (l : list A) (n : nat) :
  StronglySorted R l ->
  forall x y, In x (firstn n l) -> In y (skipn n l) -> R x y.
Proof.
  intros H. revert n. induction H as [|z r Hr IH Hz]; intros [|n] x y Hx Hy; simpl in *;
    try contradiction.
  destruct Hx as [<-|Hx].
  - rewrite Forall_forall in Hz. apply Hz. eapply In_skipn; exact Hy.
  - apply (IH n); assumption.
Qed.

Section Ranked.
Variable fts5 : Table -> string -> Z -> option Q.

Lemma joinMatch_In (db : Table) (query : string) (x : Row * Q) :
  In x (joinMatch fts5 db query) <->
  In (fst x) db /\ fts5 db query (rowid (fst x)) = Some (snd x).
Proof.
  unfold joinMatch. rewrite in_flat_map. split.
  - intros [r [Hr Hx]]. destruct (fts5 db query (rowid r)) as [rk|] eqn:E; [|contradiction].
    destruct Hx as [<-|[]]. now split.
  - intros [Hr Hx]. exists (fst x). split; [exact Hr|]. rewrite Hx.
    left. now destruct x.
Qed.

(** C6, amended. For every query and every limit that is not negative,
    [searchMemories] returns at most [limit] records, all of them
    matching records of the table, in the order of the index rank with
    ties broken by importance descending and then timestamp descending;
    the matching records that are left out come after every returned
    one in that order.  In particular, of two returned records with
    equal rank the one with the larger importance comes first, whatever
    their timestamps. *)
Theorem search_ranked_and_limited (db : Table) (query : string) (limit : Z) :
  (0 <= limit)%Z ->
  let res := searchMemories fts5 db query limit in
  List.length res = Nat.min (Z.to_nat limit) (List.length (joinMatch fts5 db query))
  /\ List.length res <= Z.to_nat limit
  /\ StronglySorted rowOrder res
  /\ (forall x, In x res ->
                In (fst x) db /\ fts5 db query (rowid (fst x)) = Some (snd x))
  /\ (forall x y, In x res -> In y (joinMatch fts5 db query) -> ~ In y res -> rowOrder x y)
  /\ (forall i j a b,
         nth_error res i = Some a -> nth_error res j = Some b ->
         (snd a == snd b)%Q -> (c_importance (fst b) < c_importance (fst a))%Z ->
         i < j).
Proof.
  intros Hl. cbn zeta. unfold searchMemories.
  destruct (Z.ltb_spec limit 0) as [Hneg|_]; [lia|].
  set (all := sortBy rowBefore (joinMatch fts5 db query)).
  assert (Hs : StronglySorted rowOrder all) by apply sorted_rows.
  assert (Hres : StronglySorted rowOrder (firstn (Z.to_nat limit) all))
    by now apply sorted_firstn.
  split; [|split; [|split; [|split; [|split]]]].
  - rewrite length_firstn. unfold all. now rewrite sortBy_length.
  - apply firstn_le_length.
  - exact Hres.
  - intros x Hx. apply In_firstn in Hx. unfold all in Hx. apply sortBy_In in Hx.
    now apply joinMatch_In.
  - intros x y Hx Hy Hny. apply (sorted_split rowOrder all (Z.to_nat limit) Hs); [exact Hx|].
    apply (sortBy_In rowBefore) in Hy. fold all in Hy.
    rewrite <- (firstn_skipn (Z.to_nat limit) all) in Hy.
    apply in_app_or in Hy as [Hy|Hy]; [contradiction|exact Hy].
  - intros i j a b Ha Hb Hrank Himp.
    destruct (Nat.lt_trichotomy i j) as [Hij|[Hij|Hij]]; [exact Hij| |].
    + subst j. rewrite Ha in Hb. injection Hb as <-. lia.
    + pose proof (sorted_nth rowOrder _ Hres j i b a Hij Hb Ha) as [H|[_ [H|[H _]]]].
      * rewrite Hrank in H. now apply Qlt_irrefl in H.
      * lia.
      * lia.
Qed.

End Ranked.

(** The scenario of the specification: the term is in two documents of
    equal rank, one of importance 5 with the earlier timestamp, one of
    importance 3 with the later timestamp. *)
Lemma search_ranked_and_limited_witness :
  map (fun x => (c_id (fst x), c_importance (fst x), c_timestamp (fst x)))
      (searchMemories sampleFts sampleDb "budget" 20)
  = [("algo_early", 5%Z, "2026-02-01 12:00:00"); ("algo_late", 3%Z, "2026-02-05 12:00:00")]
  /\ List.length (searchMemories sampleFts sampleDb "budget" 1) <= Z.to_nat 1.
Proof.
  split; [reflexivity|].
  apply (search_ranked_and_limited sampleFts sampleDb "budget" 1). lia.
Defined.

(** C6, as it stands, fails for a negative limit, which SQLite reads as
    no limit: at limit -1 the search returns both matching records of
    the sample table, more than the limit. *)
Lemma negative_limit_returns_all :
  map (fun x => c_id (fst x)) (searchMemories sampleFts sampleDb "budget" (-1))
  = ["algo_early"; "algo_late"]
  /\ ~ (Z.of_nat (List.length (searchMemories sampleFts sampleDb "budget" (-1))) <= -1)%Z.
Proof.
  split; [reflexivity|].
  change (List.length (searchMemories sampleFts sampleDb "budget" (-1))) with 2. lia.
Qed.

End DatabaseFacts.

(** ** More on the synthesis run *)

Module SynthesisMore.
Import JS JSFacts WeeklySynthesis SynthesisVocabulary GroupingFacts.

(** *** Stability of the sort *)

Lemma insertBy_filter {A} (before : A -> A -> bool) (P : A -> bool) (x : A) (l : list A) :
  (forall y, In y l -> P x = true -> P y = true -> before x y = true) ->
  filter P (insertBy before x l) = if P x then x :: filter P l else filter P l.
Proof.
  induction l as [|y r IH]; intros H; cbn [insertBy filter].
  - reflexivity.
  - destruct (before x y) eqn:E; cbn [filter].
    + reflexivity.
    + rewrite IH by (intros z Hz; apply H; now right).
      pose proof (H y (or_introl eq_refl)) as Hxy.
      destruct (P x), (P y); try reflexivity.
      rewrite Hxy in E by reflexivity. discriminate.
Qed.

Lemma sortBy_stable {A} (before : A -> A -> bool) (P : A -> bool) (l : list A) :
  (forall x y, P x = true -> P y = true -> before x y = true) ->
  filter P (sortBy before l) = filter P l.
Proof.
  intros H. induction l as [|x r IH]; cbn [sortBy fold_right filter]; [reflexivity|].
  fold (sortBy before r). rewrite insertBy_filter by (intros; now apply H).
  now rewrite IH.
Qed.

Lemma uniqueLearnings_paths (items : list Learning) :
  map path (uniqueLearnings items) = dedupe (map path items).
Proof.
  unfold uniqueLearnings.
  assert (H : forall ps, (forall p, In p ps -> In p (map path items)) ->
                         map path (flat_map
                                     (fun p => match find (fun l => String.eqb (path l) p) items with
                                               | Some l => [l]
                                               | None => []
                                               end) ps) = ps).
  { induction ps as [|p ps IH]; intros Hp; cbn [flat_map map]; [reflexivity|].
    rewrite map_app, IH by (intros q Hq; apply Hp; now right).
    destruct (find (fun l => String.eqb (path l) p) items) as [l|] eqn:F.
    - apply find_some in F as [_ F]. apply String.eqb_eq in F. cbn [map app]. now rewrite F.
    - exfalso. specialize (Hp p (or_introl eq_refl)).
      apply in_map_iff in Hp as [l [Hl Hin]]. apply (find_none _ _ F) in Hin.
      rewrite Hl, String.eqb_refl in Hin. discriminate. }
  apply H. intros p Hp. exact (proj1 (dedupe_In _ _) Hp).
Qed.

Lemma uniqueLearnings_incl (items : list Learning) (l : Learning) :
  In l (uniqueLearnings items) -> In l items.
Proof.
  unfold uniqueLearnings. rewrite in_flat_map. intros [p [_ H]].
  destruct (find (fun l0 => String.eqb (path l0) p) items) as [l'|] eqn:F; [|contradiction].
  destruct H as [<-|[]]. now apply find_some in F.
Qed.

Section Groups.
Variable toFixed1 : Q -> string.

(** Every group that the grouper returns has at least three member
    documents, as many as its occurrence count, with pairwise different
    paths; every member is a document of the input and contains a
    keyword of which the theme is the text after the [#]. *)
Theorem pattern_groups_wellformed (ls : list Learning) (p : Pattern) :
  In p (identifyPatterns toFixed1 ls) ->
  3 <= occurrences p
  /\ occurrences p = List.length (learnings p)
  /\ NoDup (map path (learnings p))
  /\ exists k, theme p = stripHash k
               /\ forall l, In l (learnings p) -> In l ls /\ hasKeyword k l = true.
Proof.
  intros H. apply identifyPatterns_iff in H as [k [Hk ->]].
  cbn [occurrences learnings theme toPattern].
  split; [|split; [|split]].
  - unfold distinctDocs in Hk. now rewrite uniqueLearnings_length.
  - reflexivity.
  - rewrite uniqueLearnings_paths. apply dedupe_NoDup.
  - exists k. split; [reflexivity|]. intros l Hl. apply uniqueLearnings_incl in Hl.
    unfold docsWith in Hl. now apply filter_In in Hl.
Qed.

(** The grouper returns the groups by descending occurrence count, and
    groups of equal count in the order in which their keywords entered
    the map. *)
Theorem patterns_descending_and_stable (ls : list Learning) :
  StronglySorted (fun a b => occurrences b <= occurrences a) (identifyPatterns toFixed1 ls)
  /\ Permutation (identifyPatterns toFixed1 ls) (emitted toFixed1 ls)
  /\ forall n, filter (fun p => Nat.eqb (occurrences p) n) (identifyPatterns toFixed1 ls)
               = filter (fun p => Nat.eqb (occurrences p) n) (emitted toFixed1 ls).
Proof.
  unfold identifyPatterns, emitted. split; [|split].
  - assert (S : StronglySorted (fun a b => byOccurrences a b = true)
                               (sortBy byOccurrences
                                       (flat_map (emitPattern toFixed1) (groupLearnings ls)))).
    { apply sortBy_sorted; unfold byOccurrences.
      - intros x y. rewrite !Nat.leb_le. lia.
      - intros x y z. rewrite !Nat.leb_le. lia. }
    induction S as [|x r Hr IH Hx]; constructor; [exact IH|].
    rewrite Forall_forall in *. intros y Hy. apply Nat.leb_le. now apply Hx.
  - apply sortBy_perm.
  - intros n. apply sortBy_stable. intros x y Hx Hy. unfold byOccurrences.
    apply Nat.eqb_eq in Hx, Hy. apply Nat.leb_le. lia.
Qed.

End Groups.

Lemma pattern_groups_wellformed_witness :
  let p := groupOf toFixed1_exact "#bug" bugCorpus in
  3 <= occurrences p
  /\ occurrences p = List.length (learnings p)
  /\ NoDup (map path (learnings p))
  /\ exists k, theme p = stripHash k
               /\ forall l, In l (learnings p) -> In l bugCorpus /\ hasKeyword k l = true.
Proof.
  apply (pattern_groups_wellformed toFixed1_exact bugCorpus).
  vm_compute. left. reflexivity.
Defined.

(** *** The rule chain of the insight *)

Lemma third_char_low (toFixed1 : Q -> string) (a : Q) :
  String.get 2 (lowRatingInsight toFixed1 a) = Some "p"%char.
Proof. reflexivity. Qed.

Lemma third_char_theme (theme : string) (n : nat) :
  String.get 2 (themeInsight theme n) <> Some "p"%char.
Proof.
  unfold themeInsight.
  destruct (includes theme "bug" || includes theme "fix" || includes theme "error");
    [discriminate|].
  destruct (includes theme "refactor" || includes theme "optimize"); discriminate.
Qed.

Lemma generateInsight_cases (toFixed1 : Q -> string) (theme : string) (ls : list Learning) :
  generateInsight toFixed1 theme ls =
  match avgRating ls with
  | Some a => if Qle_bool 5 a then themeInsight theme (List.length ls)
              else lowRatingInsight toFixed1 a
  | None => themeInsight theme (List.length ls)
  end.
Proof.
  unfold generateInsight, themeInsight, lowAverage.
  destruct (avgRating ls) as [a|] eqn:Ha; [|reflexivity].
  assert (E0 : Qeq_bool a 0 = false).
  { destruct (Qeq_bool a 0) eqn:E; [|reflexivity].
    apply Qeq_bool_iff in E. pose proof (SynthesisFacts.avgRating_pos _ _ Ha) as Hpos.
    rewrite E in Hpos. now apply Qlt_irrefl in Hpos. }
  rewrite E0. cbn [negb andb]. now destruct (Qle_bool 5 a).
Qed.

(** The low-rating message is given exactly when the average rating of
    the group is defined and below 5; a group whose average is 5 or
    more gets the insight of the theme rules, as an unrated one does. *)
Theorem low_rating_message_exactly (toFixed1 : Q -> string) (theme : string)
        (ls : list Learning) :
  ((exists a, generateInsight toFixed1 theme ls = lowRatingInsight toFixed1 a)
   <-> exists a, avgRating ls = Some a /\ (a < 5)%Q)
  /\ forall a, avgRating ls = Some a -> (5 <= a)%Q ->
               generateInsight toFixed1 theme ls = themeInsight theme (List.length ls).
Proof.
  rewrite generateInsight_cases. split.
  - split.
    + intros [a0 H]. destruct (avgRating ls) as [a|].
      * destruct (Qle_bool 5 a) eqn:E.
        -- exfalso. apply (third_char_theme theme (List.length ls)).
           rewrite H. apply third_char_low.
        -- exists a. split; [reflexivity|]. apply Qnot_le_lt. intro Hle.
           apply Qle_bool_iff in Hle. congruence.
      * exfalso. apply (third_char_theme theme (List.length ls)).
        rewrite H. apply third_char_low.
    + intros [a [-> Hlt]]. exists a.
      destruct (Qle_bool 5 a) eqn:E; [|reflexivity].
      apply Qle_bool_iff in E. exfalso.
      apply (Qlt_irrefl a), (Qlt_le_trans a 5 a); assumption.
  - intros a -> Hle. apply Qle_bool_iff in Hle. now rewrite Hle.
Qed.

(** *** The keywords of a text *)

Lemma scanHashtags_chars (s : string) :
  forall cur t, (forall run, cur = Some run -> allTagChars run = true) ->
                In t (scanHashtags cur s) ->
                exists w, t = String "#"%char w /\ w <> EmptyString /\ allTagChars w = true.
Proof.
  induction s as [|c r IH]; intros cur t Hcur; cbn [scanHashtags].
  - destruct cur as [[|x run]|]; cbn; try tauto.
    intros [<-|[]]. exists (String x run). repeat split; [discriminate|now apply Hcur].
  - assert (Hnext : In t (scanHashtags (if Ascii.eqb c "#"%char then Some EmptyString else None) r)
                    -> exists w, t = String "#"%char w /\ w <> EmptyString /\ allTagChars w = true).
    { apply IH. intros run. destruct (Ascii.eqb c "#"%char); [|discriminate].
      now intros [= <-]. }
    destruct cur as [run|]; [|exact Hnext].
    destruct (isTagChar c) eqn:Ec.
    + apply IH. intros run' [= <-]. specialize (Hcur run eq_refl).
      clear -Hcur Ec. induction run as [|x run IHr]; cbn in *.
      * now rewrite Ec.
      * apply andb_true_iff in Hcur as [Hx Hr]. rewrite Hx. now apply IHr.
    + intros H. apply in_app_or in H as [H|H]; [|now apply Hnext].
      destruct run as [|x run]; cbn in H; [contradiction|].
      destruct H as [<-|[]]. exists (String x run).
      repeat split; [discriminate|now apply Hcur].
Qed.

Lemma scanHashtags_run (w : string) :
  forall run post, allTagChars w = true -> tagEnds post = true ->
                   (run ++ w)%string <> EmptyString ->
                   In (String "#"%char (run ++ w)) (scanHashtags (Some run) (w ++ post)).
Proof.
  induction w as [|c w IH]; intros run post Hw Hpost Hne; cbn [String.append].
  - rewrite StringFacts.append_nil_r in *.
    destruct post as [|c r]; cbn [scanHashtags].
    + destruct run; [congruence|now left].
    + cbn in Hpost. apply negb_true_iff in Hpost. rewrite Hpost.
      apply in_or_app. left. destruct run; [congruence|now left].
  - cbn in Hw. apply andb_true_iff in Hw as [Hc Hw]. cbn [scanHashtags]. rewrite Hc.
    replace (run ++ String c w)%string with ((run ++ String c EmptyString) ++ w)%string
      by now rewrite StringFacts.append_assoc.
    apply IH; [exact Hw|exact Hpost|].
    destruct run; cbn; discriminate.
Qed.

Lemma scanHashtags_later (pre s t : string) :
  forall cur, In t (scanHashtags (Some EmptyString) s) ->
              In t (scanHashtags cur (pre ++ String "#"%char s)).
Proof.
  induction pre as [|c pre IH]; intros cur H; cbn [String.append scanHashtags].
  - destruct cur as [run|]; [|exact H].
    cbn. apply in_or_app. now right.
  - destruct cur as [run|]; [|now apply IH].
    destruct (isTagChar c); [now apply IH|].
    apply in_or_app. right. now apply IH.
Qed.

(** The keywords of a text are distinct.  Each is a vocabulary term
    found in the lower-cased text, or a [#] with a non-empty run of tag
    characters found in the text; every vocabulary term found in the
    lower-cased text is a keyword, and so is every [#] with its longest
    run of tag characters. *)
Theorem keywords_are_tags_or_terms (text : string) :
  NoDup (extractKeywords text)
  /\ (forall k, In k (extractKeywords text) ->
        (In k techTerms /\ exists pre post, toLowerCase text = (pre ++ k ++ post)%string)
        \/ (exists w, k = String "#"%char w /\ w <> EmptyString /\ allTagChars w = true
                      /\ exists pre post, text = (pre ++ k ++ post)%string))
  /\ (forall t pre post, In t techTerms -> toLowerCase text = (pre ++ t ++ post)%string ->
        In t (extractKeywords text))
  /\ (forall w pre post, w <> EmptyString -> allTagChars w = true -> tagEnds post = true ->
        text = (pre ++ String "#"%char w ++ post)%string ->
        In (String "#"%char w) (extractKeywords text)).
Proof.
  split; [apply dedupe_NoDup|]. split; [|split].
  - intros k Hk. apply extractKeywords_In in Hk as [Htag|[Hterm Hinc]].
    + right. destruct (scanHashtags_chars text None k) as [w [-> [Hw Hc]]];
        [discriminate|exact Htag|].
      exists w. repeat split; [exact Hw|exact Hc|].
      now apply StringFacts.matchHashtags_sub.
    + left. split; [exact Hterm|]. now apply StringFacts.includes_iff.
  - intros t pre post Ht E. apply extractKeywords_In. right. split; [exact Ht|].
    apply StringFacts.includes_iff. now exists pre, post.
  - intros w pre post Hw Hc Hpost ->. apply extractKeywords_In. left.
    unfold matchHashtags. cbn [String.append]. apply scanHashtags_later.
    apply (scanHashtags_run w EmptyString post Hc Hpost). exact Hw.
Qed.

End SynthesisMore.

(** ** More on the learning loader *)

Module LoaderMore.
Import JS JSFacts WeeklySynthesis LoaderFacts.

Section Loading.
Variable LEARNING_DIR : string.
Variable matchTitle : string -> option string.
Variable matchRating : string -> option N.
Variable formatDate : Z -> string.
Variable localeCompare : string -> string -> Z.
Variable startDate endDate : JSDate.

Local Abbreviation loadFile := (loadFile matchTitle matchRating formatDate).
Local Abbreviation loadMonth := (loadMonth matchTitle matchRating formatDate).
Local Abbreviation loadCategory := (loadCategory LEARNING_DIR matchTitle matchRating formatDate).
Local Abbreviation loadLearnings :=
  (loadLearnings LEARNING_DIR matchTitle matchRating formatDate localeCompare).
Local Abbreviation learned := (learned matchTitle matchRating formatDate startDate endDate).

Lemma loadFiles_abort (cat : Category) (dir : string) (files : list FileEntry) :
  forallb statOk files = false ->
  forall st, foldM (loadFile cat dir startDate endDate) files st = None.
Proof.
  induction files as [|f r IH]; intros Hs st; [discriminate|].
  cbn [forallb] in Hs. cbn [foldM]. unfold WeeklySynthesis.loadFile, statOk in *.
  destruct (fstat f) as [mtime|]; [|reflexivity]. cbn [andb] in Hs.
  destruct (inRange mtime startDate endDate); [destruct (fdata f)|]; now apply IH.
Qed.

Lemma loadMonths_abort (cat : Category) (categoryDir : string) (months : list DirEntry) :
  forallb monthOk months = false ->
  forall st, foldM (loadMonth cat categoryDir startDate endDate) months st = None.
Proof.
  induction months as [|m r IH]; intros Hs st; [discriminate|].
  cbn [forallb] in Hs. cbn [foldM].
  destruct (monthOk m) eqn:Hm.
  - destruct (loadMonth cat categoryDir startDate endDate st m); [now apply IH|reflexivity].
  - unfold WeeklySynthesis.loadMonth. unfold monthOk, filesOf in Hm.
    destruct (dlist m) as [entries|]; [|reflexivity].
    now rewrite loadFiles_abort.
Qed.

Lemma loadCategories_abort (fs : LearningFS) (cats : list Category) :
  forallb (fun cat => forallb monthOk (monthsOf fs cat)) cats = false ->
  forall st, foldM (loadCategory fs startDate endDate) cats st = None.
Proof.
  induction cats as [|cat r IH]; intros Hs st; [discriminate|].
  cbn [forallb] in Hs. cbn [foldM].
  destruct (forallb monthOk (monthsOf fs cat)) eqn:Hc.
  - destruct (loadCategory fs startDate endDate st cat); [now apply IH|reflexivity].
  - unfold WeeklySynthesis.loadCategory. unfold monthsOf in Hc.
    destruct (fs cat) as [entries|]; [|discriminate].
    now rewrite loadMonths_abort.
Qed.

Lemma load_unstatable (fs : LearningFS) :
  statable fs = false -> loadLearnings fs startDate endDate = None.
Proof.
  intros Hs. unfold WeeklySynthesis.loadLearnings.
  now rewrite (loadCategories_abort fs [ALGORITHM; SYSTEM] Hs).
Qed.

Lemma load_returns_statable (fs : LearningFS) (ls : list Learning) (out : list ConsoleLine) :
  loadLearnings fs startDate endDate = Some (ls, out) -> statable fs = true.
Proof.
  intros H. destruct (statable fs) eqn:Hs; [reflexivity|].
  rewrite (load_unstatable fs Hs) in H. discriminate.
Qed.

(** A month directory that cannot be listed, and a markdown file of a
    month directory on which [statSync] throws, each end the whole load
    with the exception, whatever the dates asked for and whatever has
    been read before: both calls are made outside the [try], and the
    file is examined before its date is compared. *)
Theorem unstatable_file_aborts_load (fs : LearningFS) (cat : Category)
        (entries : list DirEntry) (m : DirEntry) :
  fs cat = Some entries -> In m entries -> isMonthDir (dname m) = true ->
  (dlist m = None
   \/ exists files f, dlist m = Some files /\ In f files
                      /\ endsWith (fname f) ".md" = true /\ fstat f = None) ->
  loadLearnings fs startDate endDate = None.
Proof.
  intros Hcat Hm Hmonth Hbad. apply load_unstatable.
  assert (Hno : monthOk m = false).
  { unfold monthOk, filesOf. destruct Hbad as [->|[files [f [-> [Hf [Hmd Hst]]]]]]; [reflexivity|].
    destruct (forallb statOk (filter (fun f0 => endsWith (fname f0) ".md") files)) eqn:E;
      [|reflexivity].
    rewrite forallb_forall in E. specialize (E f). unfold statOk in E. rewrite Hst in E.
    symmetry. apply E. apply filter_In. now split. }
  assert (Hcatno : forallb monthOk (monthsOf fs cat) = false).
  { destruct (forallb monthOk (monthsOf fs cat)) eqn:E; [|reflexivity].
    rewrite forallb_forall in E. rewrite <- Hno. symmetry. apply E.
    unfold monthsOf. rewrite Hcat. apply filter_In. now split. }
  unfold statable. cbn [forallb]. destruct cat; rewrite Hcatno; [reflexivity|].
  now rewrite andb_false_r.
Qed.

Lemma visited_In (fs : LearningFS) (cat : Category) (dir : string) (f : FileEntry) :
  In (cat, dir, f) (visited LEARNING_DIR fs) ->
  exists entries m files,
    fs cat = Some entries /\ In m entries /\ isMonthDir (dname m) = true
    /\ dlist m = Some files /\ In f files /\ endsWith (fname f) ".md" = true
    /\ dir = join (join LEARNING_DIR (categoryName cat)) (dname m).
Proof.
  unfold visited. rewrite in_flat_map. intros [cat' [_ H]].
  apply in_flat_map in H as [m [Hm H]]. apply in_map_iff in H as [f' [E Hf]].
  injection E as -> <- ->. unfold monthsOf in Hm. unfold filesOf in Hf.
  destruct (fs cat) as [entries|]; [|contradiction].
  destruct (dlist m) as [files|] eqn:Hd; [|contradiction].
  apply filter_In in Hm as [Hm1 Hm2]. apply filter_In in Hf as [Hf1 Hf2].
  exists entries, m, files. repeat split; assumption.
Qed.

(** Every learning that a load returns comes from a markdown file of a
    [YYYY-MM] directory of its category, modified within the range and
    readable; its path is the category directory, the month and the file
    name joined. *)
Theorem loaded_learning_origin (fs : LearningFS) (ls : list Learning)
        (out : list ConsoleLine) (l : Learning) :
  loadLearnings fs startDate endDate = Some (ls, out) -> In l ls ->
  exists entries m files f mtime text,
    fs (category l) = Some entries /\ In m entries /\ isMonthDir (dname m) = true
    /\ dlist m = Some files /\ In f files /\ endsWith (fname f) ".md" = true
    /\ fstat f = Some mtime /\ inRange mtime startDate endDate = true
    /\ fdata f = Some text
    /\ file l = fname f /\ content l = text
    /\ path l = join (join (join LEARNING_DIR (categoryName (category l))) (dname m)) (fname f).
Proof.
  intros H Hl.
  assert (Hs : statable fs = true) by exact (load_returns_statable fs ls out H).
  rewrite (loadLearnings_ok LEARNING_DIR matchTitle matchRating formatDate localeCompare
                            startDate endDate fs Hs) in H.
  injection H as <- <-. apply sortBy_In in Hl. apply in_flat_map in Hl as [[[cat dir] f] [Hv Hl]].
  apply visited_In in Hv as [entries [m [files [H1 [H2 [H3 [H4 [H5 [H6 ->]]]]]]]]].
  unfold WeeklySynthesis.learned in Hl.
  destruct (fstat f) as [mtime|] eqn:Hst; [|contradiction].
  destruct (fdata f) as [text|] eqn:Hrd; [|contradiction].
  destruct (inRange mtime startDate endDate) eqn:Hin; [|contradiction].
  destruct Hl as [<-|[]]. cbn [category file content path parseLearning].
  exists entries, m, files, f, mtime, text. repeat split; assumption.
Qed.

End Loading.

Lemma unstatable_file_aborts_load_witness :
  loadLearnings "/home/u/.claude/MEMORY/LEARNING"
                (fun text => if startsWith text "# "
                             then Some (substring 2 (String.length text) text) else None)
                (fun _ => None) (fun _ => "2026-02-06")
                (fun a b => match String.compare a b with
                            | Lt => (-1)%Z | Eq => 0%Z | Gt => 1%Z end)
                SynthesisVocabulary.brokenTree (Some 1769904000000%Z) (Some 1770508800000%Z)
  = None.
Proof.
  refine (unstatable_file_aborts_load
            "/home/u/.claude/MEMORY/LEARNING"
            (fun text => if startsWith text "# "
                         then Some (substring 2 (String.length text) text) else None)
            (fun _ => None) (fun _ => "2026-02-06")
            (fun a b => match String.compare a b with
                        | Lt => (-1)%Z | Eq => 0%Z | Gt => 1%Z end)
            (Some 1769904000000%Z) (Some 1770508800000%Z)
            SynthesisVocabulary.brokenTree WeeklySynthesis.ALGORITHM _ _ eq_refl (or_introl eq_refl) eq_refl _).
  right. exists [ mkFile "2026-02-03_first.md" (Some 1770100000000%Z) (Some "# First #bug");
                  mkFile "2026-02-09_gone.md" None None ],
                (mkFile "2026-02-09_gone.md" None None).
  split; [reflexivity|]. split; [right; left; reflexivity|]. split; reflexivity.
Defined.

Lemma loaded_learning_origin_witness :
  exists entries m files f mtime text,
    sampleTree WeeklySynthesis.ALGORITHM = Some entries /\ In m entries
    /\ isMonthDir (dname m) = true
    /\ dlist m = Some files /\ In f files /\ endsWith (fname f) ".md" = true
    /\ fstat f = Some mtime
    /\ inRange mtime (Some 1769904000000%Z) (Some 1770508800000%Z) = true
    /\ fdata f = Some text
    /\ "2026-02-03_first.md" = fname f /\ "# First #bug" = text
    /\ "/home/u/.claude/MEMORY/LEARNING/ALGORITHM/2026-02/2026-02-03_first.md"
       = join (join (join "/home/u/.claude/MEMORY/LEARNING"
                          (categoryName WeeklySynthesis.ALGORITHM)) (dname m)) (fname f).
Proof.
  refine (loaded_learning_origin
            "/home/u/.claude/MEMORY/LEARNING"
            (fun text => if startsWith text "# "
                         then Some (substring 2 (String.length text) text) else None)
            (fun _ => None) (fun _ => "2026-02-06")
            (fun a b => match String.compare a b with
                        | Lt => (-1)%Z | Eq => 0%Z | Gt => 1%Z end)
            (Some 1769904000000%Z) (Some 1770508800000%Z)
            sampleTree _ _
            (parseLearning
               (fun text => if startsWith text "# "
                            then Some (substring 2 (String.length text) text) else None)
               (fun _ => None) (fun _ => "2026-02-06")
               WeeklySynthesis.ALGORITHM
               "/home/u/.claude/MEMORY/LEARNING/ALGORITHM/2026-02"
               "2026-02-03_first.md" 0 "# First #bug")
            eq_refl _).
  left. reflexivity.
Defined.

End LoaderMore.

(** ** More on the linear search *)

Module SearchMore.
Import JS JSFacts MemorySearch SearchVocabulary SearchFacts.

(** *** Filtering a sorted list *)

Lemma insertBy_front {A} (before : A -> A -> bool) (x : A) (l : list A) :
  (forall y, In y l -> before x y = true) -> insertBy before x l = x :: l.
Proof.
  destruct l as [|y r]; intros H; cbn; [reflexivity|].
  now rewrite (H y (or_introl eq_refl)).
Qed.

Lemma insertBy_filter_sorted {A} (before : A -> A -> bool) (P : A -> bool) (x : A) (l : list A) :
  (forall a b c, before a b = true -> before b c = true -> before a c = true) ->
  StronglySorted (fun a b => before a b = true) l ->
  P x = true ->
  filter P (insertBy before x l) = insertBy before x (filter P l).
Proof.
  intros Htr Hs Px. induction Hs as [|y r Hr IH Hy]; cbn [insertBy filter].
  - now rewrite Px.
  - destruct (before x y) eqn:E.
    + cbn [filter]. rewrite Px. symmetry.
      change (insertBy before x (filter P (y :: r)) = x :: filter P (y :: r)).
      apply insertBy_front. intros z Hz. apply filter_In in Hz as [[<-|Hz] _]; [exact E|].
      rewrite Forall_forall in Hy. apply (Htr x y z E). now apply Hy.
    + cbn [filter]. destruct (P y); cbn [insertBy]; [rewrite E|]; now rewrite IH.
Qed.

Lemma sortBy_cons {A} (before : A -> A -> bool) (x : A) (l : list A) :
  sortBy before (x :: l) = insertBy before x (sortBy before l).
Proof. reflexivity. Qed.

Lemma filter_sortBy {A} (before : A -> A -> bool) (P : A -> bool) (l : list A) :
  (forall a b, before a b = true \/ before b a = true) ->
  (forall a b c, before a b = true -> before b c = true -> before a c = true) ->
  filter P (sortBy before l) = sortBy before (filter P l).
Proof.
  intros Htot Htr. induction l as [|x r IH]; [reflexivity|].
  rewrite sortBy_cons. cbn [filter]. destruct (P x) eqn:Px.
  - rewrite sortBy_cons, <- IH.
    apply insertBy_filter_sorted; [exact Htr| |exact Px].
    now apply sortBy_sorted.
  - rewrite <- IH. rewrite SynthesisMore.insertBy_filter by (intros; congruence).
    now rewrite Px.
Qed.

Lemma byScore_total (a b : SearchResult) : byScore a b = true \/ byScore b a = true.
Proof. unfold byScore. rewrite !Nat.leb_le. lia. Qed.

Lemma byScore_trans (a b c : SearchResult) :
  byScore a b = true -> byScore b c = true -> byScore a c = true.
Proof. unfold byScore. rewrite !Nat.leb_le. lia. Qed.

Lemma filter_flat_map {A B} (P : B -> bool) (Q : A -> bool) (g : A -> list B) (l : list A) :
  (forall x, In x l -> filter P (g x) = if Q x then g x else []) ->
  filter P (flat_map g l) = flat_map g (filter Q l).
Proof.
  induction l as [|x r IH]; intros H; cbn [flat_map filter]; [reflexivity|].
  rewrite filter_app, IH by (intros; apply H; now right).
  rewrite (H x (or_introl eq_refl)). destruct (Q x); reflexivity.
Qed.

Lemma filter_all {A} (P : A -> bool) (l : list A) :
  (forall x, In x l -> P x = true) -> filter P l = l.
Proof.
  induction l as [|x r IH]; intros H; cbn; [reflexivity|].
  rewrite (H x (or_introl eq_refl)), IH; [reflexivity|]. intros; apply H; now right.
Qed.

Lemma filter_none {A} (P : A -> bool) (l : list A) :
  (forall x, In x l -> P x = false) -> filter P l = [].
Proof.
  induction l as [|x r IH]; intros H; cbn; [reflexivity|].
  rewrite (H x (or_introl eq_refl)), IH; [reflexivity|]. intros; apply H; now right.
Qed.

Section Engine.
Variable MEMORY_DIR : string.
Variable RegExp_gi : string -> Matcher.
Variable readFileSync : string -> option string.
Variable workGlob algoGlob sysGlob : option (list string).
Variable Date_ymd : Z -> Z -> Z -> JSDate.
Variable Date_parse : string -> JSDate.

Local Abbreviation fileResults := (fileResults MEMORY_DIR readFileSync Date_ymd Date_parse).
Local Abbreviation search := (search MEMORY_DIR RegExp_gi readFileSync workGlob algoGlob sysGlob
                                     Date_ymd Date_parse).
Local Abbreviation searchIn := (searchIn MEMORY_DIR RegExp_gi readFileSync workGlob algoGlob
                                         sysGlob Date_ymd Date_parse).
Local Abbreviation tooOld := (tooOld Date_ymd Date_parse).
Local Abbreviation files := (getFilesToSearch MEMORY_DIR workGlob algoGlob sysGlob).

Lemma search_eq (query : string) (typeFilter : option string) (since : option JSDate) :
  search query typeFilter since
  = sortBy byScore (flat_map (fileResults (RegExp_gi query) since) (files typeFilter)).
Proof.
  unfold MemorySearch.search.
  now rewrite (searchIn_eq MEMORY_DIR RegExp_gi readFileSync workGlob algoGlob sysGlob
                           Date_ymd Date_parse).
Qed.



Lemma fileResults_type (rx : Matcher) (since : option JSDate) (f : string * MemType)
      (r : SearchResult) :
  In r (fileResults rx since f) -> type r = snd f.
Proof.
  unfold MemorySearch.fileResults, MemorySearch.searchStep. destruct f as [p t].
  destruct (tooOld since p); [intros []|].
  destruct (searchFile readFileSync p rx _) as [ms w1]. destruct ms as [|m ms]; [intros []|].
  destruct (scoreOf rx (m :: ms) 0 (lastIndex w1)) as [sc idx]. cbn [fst snd app].
  now intros [<-|[]].
Qed.

Lemma scanDir_filter (t dir : string) (T : MemType) (glob : option (list string)) :
  filter (fun f => String.eqb (typeName (snd f)) t) (scanDir dir T glob)
  = if String.eqb t (typeName T) then scanDir dir T glob else [].
Proof.
  rewrite (String.eqb_sym t). destruct (String.eqb (typeName T) t) eqn:E.
  - apply filter_all. intros f Hf. unfold scanDir in Hf. destruct glob as [fs|]; [|contradiction].
    apply in_map_iff in Hf as [x [<- _]]. exact E.
  - apply filter_none. intros f Hf. unfold scanDir in Hf. destruct glob as [fs|]; [|contradiction].
    apply in_map_iff in Hf as [x [<- _]]. exact E.
Qed.

Lemma files_typed (t : string) :
  t <> EmptyString ->
  files (Some t) = filter (fun f => String.eqb (typeName (snd f)) t) (files None).
Proof.
  intros Ht. unfold getFilesToSearch. destruct t as [|c t']; [congruence|].
  cbn [wants]. rewrite !filter_app, !scanDir_filter. reflexivity.
Qed.

(** A search with a type filter returns the results of the search
    without it that are of that type, in the same order; a filter that
    names none of the three types returns nothing. *)
Theorem type_filter_is_postfilter (query t : string) (since : option JSDate) :
  t <> EmptyString ->
  search query (Some t) since
  = filter (fun r => String.eqb (typeName (type r)) t) (search query None since).
Proof.
  intros Ht. rewrite !search_eq.
  rewrite filter_sortBy by (apply byScore_total || apply byScore_trans).
  f_equal. rewrite (files_typed t Ht).
  symmetry. apply filter_flat_map. intros f _.
  destruct (String.eqb (typeName (snd f)) t) eqn:E.
  - apply filter_all. intros r Hr. apply fileResults_type in Hr. now rewrite Hr.
  - apply filter_none. intros r Hr. apply fileResults_type in Hr. now rewrite Hr.
Qed.

(** *** Scores *)

Lemma scanLines_hit (rx : Matcher) (lines rest : list string) :
  forall i idx m, In m (fst (scanLines rx lines i rest idx)) ->
                  exists from, rx (matchLine m) from <> None.
Proof.
  induction rest as [|line r IH]; intros i idx m; cbn [scanLines]; [intros []|].
  unfold test.
  destruct (String.length line <? idx)%nat.
  - specialize (IH (S i) 0 m). destruct (scanLines rx lines (S i) r 0) as [found idx2].
    exact IH.
  - destruct (rx line idx) as [[s e]|] eqn:E.
    + specialize (IH (S i) e m). destruct (scanLines rx lines (S i) r e) as [found idx2].
      cbn [fst]. intros [<-|H]; [|now apply IH].
      exists idx. cbn [matchLine]. congruence.
    + specialize (IH (S i) 0 m). destruct (scanLines rx lines (S i) r 0) as [found idx2].
      exact IH.
Qed.

Lemma matchCount_pos (rx : Matcher) (input : string) :
  rx input 0 <> None -> 1 <= matchCount rx input.
Proof.
  intros H. unfold matchCount. rewrite Nat.add_comm. cbn [Nat.add countFrom].
  destruct (String.length input <? 0)%nat eqn:E; [apply Nat.ltb_lt in E; lia|].
  destruct (rx input 0) as [[s e]|]; [lia|congruence].
Qed.

Lemma fileResults_matches (rx : Matcher) (since : option JSDate) (f : string * MemType)
      (r : SearchResult) :
  In r (fileResults rx since f) ->
  exists text, readFileSync (fst f) = Some text
               /\ matches r = fst (scanLines rx (splitLines text) 0 (splitLines text) 0)
               /\ matches r <> [].
Proof.
  unfold MemorySearch.fileResults, MemorySearch.searchStep. destruct f as [p t].
  destruct (tooOld since p); [intros []|].
  unfold MemorySearch.searchFile. cbn [fst lastIndex].
  destruct (readFileSync p) as [text|]; [|intros []].
  destruct (scanLines rx (splitLines text) 0 (splitLines text) 0) as [ms idx] eqn:E.
  destruct ms as [|m ms]; [intros []|]. cbn [lastIndex].
  destruct (scoreOf rx (m :: ms) 0 idx) as [sc idx']. cbn [fst app].
  intros [<-|[]]. exists text. cbn [matches]. rewrite E.
  split; [reflexivity|]. split; [reflexivity|discriminate].
Qed.

Lemma list_sum_ge_length (l : list nat) :
  (forall n, In n l -> 1 <= n) -> List.length l <= list_sum l.
Proof.
  induction l as [|x r IH]; intros H; [cbn; lia|].
  pose proof (H x (or_introl eq_refl)) as Hx.
  specialize (IH (fun n Hn => H n (or_intror Hn))).
  change (list_sum (x :: r)) with (x + list_sum r). cbn [List.length]. lia.
Qed.

(** The results are in descending order of score.  Every result has at
    least one recorded line, and with an engine that scans from the
    left its score is at least the number of its recorded lines. *)
Theorem results_ranked_by_score (query : string) (typeFilter : option string)
        (since : option JSDate) :
  scansFromLeft (RegExp_gi query) ->
  StronglySorted (fun a b => score b <= score a) (search query typeFilter since)
  /\ forall r, In r (search query typeFilter since) ->
               1 <= List.length (matches r) /\ List.length (matches r) <= score r.
Proof.
  intros Hleft. split.
  - rewrite search_eq.
    pose proof (sortBy_sorted byScore byScore_total byScore_trans
                  (flat_map (fileResults (RegExp_gi query) since) (files typeFilter))) as S.
    induction S as [|x r Hr IH Hx]; constructor; [exact IH|].
    rewrite Forall_forall in *. intros y Hy. apply Nat.leb_le. now apply Hx.
  - intros r Hr.
    pose proof (search_score MEMORY_DIR RegExp_gi readFileSync workGlob algoGlob sysGlob
                             Date_ymd Date_parse query typeFilter since r Hr) as Hsc.
    apply (search_In MEMORY_DIR RegExp_gi readFileSync workGlob algoGlob sysGlob
                     Date_ymd Date_parse) in Hr as [f [_ Hr]].
    apply fileResults_matches in Hr as [text [_ [Hm Hne]]]. split.
    + destruct (matches r); [congruence|cbn; lia].
    + rewrite Hsc. rewrite <- (length_map (fun m => matchCount (RegExp_gi query) (matchLine m))).
      apply list_sum_ge_length. intros n Hn. apply in_map_iff in Hn as [m [<- Hin]].
      apply matchCount_pos. rewrite Hm in Hin. apply scanLines_hit in Hin as [from Hfrom].
      now apply (Hleft _ from).
Qed.

(** *** Context windows *)

Lemma slice_app {A} (l : list A) (a b c : nat) :
  a <= b -> b <= c -> sliceList l a b ++ sliceList l b c = sliceList l a c.
Proof.
  intros Hab Hbc. unfold sliceList.
  replace b with ((b - a) + a) at 2 3 by lia. rewrite <- skipn_skipn.
  replace (c - (b - a + a)) with (c - b) by lia.
  replace (c - a) with ((b - a) + (c - b)) by lia.
  generalize (skipn a l) (b - a) (c - b). clear. intros l n m. revert l.
  induction n as [|n IH]; intros [|x l]; cbn; try reflexivity.
  - now rewrite firstn_nil.
  - now rewrite IH.
Qed.

Lemma slice_one {A} (l : list A) (i : nat) (x : A) :
  nth_error l i = Some x -> sliceList l i (i + 1) = [x].
Proof.
  unfold sliceList. replace (i + 1 - i) with 1 by lia. revert l.
  induction i as [|i IH]; intros [|y l] H; cbn in *; try discriminate.
  - now injection H as ->.
  - now apply IH.
Qed.

Lemma slice_length {A} (l : list A) (a b : nat) :
  List.length (sliceList l a b) = Nat.min (b - a) (List.length l - a).
Proof. unfold sliceList. now rewrite length_firstn, length_skipn. Qed.

Lemma scanLines_windows (rx : Matcher) (lines : list string) :
  forall rest i idx,
    skipn i lines = rest ->
    let ms := fst (scanLines rx lines i rest idx) in
    Forall (fun m => i < lineNumber m <= List.length lines
                     /\ nth_error lines (lineNumber m - 1) = Some (matchLine m)
                     /\ before m = sliceList lines (lineNumber m - 1 - 3) (lineNumber m - 1)
                     /\ after m = sliceList lines (lineNumber m)
                                            (Nat.min (List.length lines) (lineNumber m + 3))) ms
    /\ StronglySorted lt (map lineNumber ms).
Proof.
  induction rest as [|line r IH]; intros i idx Hrest; cbn [scanLines].
  - split; constructor.
  - assert (Hnth : nth_error lines i = Some line).
    { rewrite <- (Nat.add_0_r i), <- nth_error_skipn, Hrest. reflexivity. }
    assert (Hlen : i < List.length lines).
    { apply nth_error_Some. congruence. }
    assert (Hnext : skipn (S i) lines = r).
    { replace (S i) with (1 + i) by lia. now rewrite <- skipn_skipn, Hrest. }
    destruct (test rx line idx) as [hit idx1].
    specialize (IH (S i) idx1 Hnext).
    destruct (scanLines rx lines (S i) r idx1) as [found idx2]. cbn [fst] in *.
    destruct IH as [IH1 IH2].
    assert (IH1' : Forall (fun m => i < lineNumber m <= List.length lines
                     /\ nth_error lines (lineNumber m - 1) = Some (matchLine m)
                     /\ before m = sliceList lines (lineNumber m - 1 - 3) (lineNumber m - 1)
                     /\ after m = sliceList lines (lineNumber m)
                                            (Nat.min (List.length lines) (lineNumber m + 3)))
                          found).
    { eapply Forall_impl; [|exact IH1]. cbn beta. intros m [H1 H2]. split; [lia|exact H2]. }
    destruct hit; cbn [fst]; [|split; assumption].
    split.
    + constructor; [|exact IH1']. cbn [lineNumber matchLine before after CONTEXT_LINES].
      unfold CONTEXT_LINES.
      replace (i + 1 - 1) with i by lia. replace (i + 1 + 3) with (i + 1 + 3) by lia.
      repeat split; try lia; assumption.
    + cbn [map lineNumber]. constructor; [exact IH2|].
      rewrite Forall_forall. intros n Hn. apply in_map_iff in Hn as [m [<- Hm]].
      rewrite Forall_forall in IH1. specialize (IH1 m Hm). lia.
Qed.

(** Every recorded match of a result carries its line, with the number
    of the line counted from 1, the up to three lines before it and the
    up to three lines after it, cut at the ends of the file; together
    they are one contiguous piece of the file.  The matches of a result
    are in ascending order of line number. *)
Theorem match_context_window (query : string) (typeFilter : option string)
        (since : option JSDate) (r : SearchResult) (text : string) (m : MatchContext) :
  In r (search query typeFilter since) ->
  readFileSync (filePath r) = Some text ->
  In m (matches r) ->
  let lines := splitLines text in
  let i := lineNumber m - 1 in
  1 <= lineNumber m <= List.length lines
  /\ nth_error lines i = Some (matchLine m)
  /\ List.length (before m) = Nat.min 3 i
  /\ List.length (after m) = Nat.min 3 (List.length lines - lineNumber m)
  /\ before m ++ matchLine m :: after m
     = sliceList lines (i - 3) (Nat.min (List.length lines) (i + 4))
  /\ StronglySorted lt (map lineNumber (matches r)).
Proof.
  intros Hr Htext Hm. cbn zeta.
  apply (search_In MEMORY_DIR RegExp_gi readFileSync workGlob algoGlob sysGlob
                   Date_ymd Date_parse) in Hr as [f [_ Hr]].
  pose proof (fileResults_path MEMORY_DIR readFileSync Date_ymd Date_parse _ _ _ _ Hr)
    as [Hpath _].
  apply fileResults_matches in Hr as [text' [Hrd [Hms _]]].
  rewrite <- Hpath, Htext in Hrd. injection Hrd as <-.
  destruct (scanLines_windows (RegExp_gi query) (splitLines text) (splitLines text) 0 0 eq_refl)
    as [Hw Hs].
  rewrite <- Hms in Hw, Hs. rewrite Forall_forall in Hw.
  destruct (Hw m Hm) as [Hln [Hnth [Hb Ha]]].
  split; [lia|]. split; [exact Hnth|]. split; [|split; [|split; [|exact Hs]]].
  - rewrite Hb, slice_length. lia.
  - rewrite Ha, slice_length. lia.
  - rewrite Hb, Ha.
    change (sliceList (splitLines text) (lineNumber m - 1 - 3) (lineNumber m - 1)
            ++ [matchLine m]
            ++ sliceList (splitLines text) (lineNumber m)
                         (Nat.min (List.length (splitLines text)) (lineNumber m + 3))
            = sliceList (splitLines text) (lineNumber m - 1 - 3)
                        (Nat.min (List.length (splitLines text)) (lineNumber m - 1 + 4))).
    rewrite <- (slice_one _ _ _ Hnth).
    replace (lineNumber m - 1 + 1) with (lineNumber m) by lia.
    rewrite (slice_app _ (lineNumber m - 1) (lineNumber m)) by lia.
    replace (lineNumber m - 1 + 4) with (lineNumber m + 3) by lia.
    apply slice_app; lia.
Qed.

End Engine.

Lemma findFrom_from_start (needle hay : string) :
  forall pos from s, findFrom needle hay pos from = Some s ->
                     findFrom needle hay pos 0 <> None.
Proof.
  induction hay as [|c r IH]; intros pos from s; cbn [findFrom Nat.leb].
  - destruct (startsWith "" needle); [discriminate|].
    now rewrite andb_false_r.
  - destruct (startsWith (String c r) needle); [discriminate|].
    rewrite andb_false_r. cbn [andb]. apply IH.
Qed.

Lemma literalPattern_scansFromLeft (query : string) : scansFromLeft (literalPattern query).
Proof.
  intros input from. unfold literalPattern.
  destruct (findFrom _ _ 0 from) as [s|] eqn:E; [|congruence]. intros _.
  apply findFrom_from_start in E.
  destruct (findFrom (toLowerCase query) (toLowerCase input) 0 0); congruence.
Qed.

Lemma type_filter_is_postfilter_witness :
  MemorySearch.search sampleDir literalPattern sampleRead None (Some sampleAlgo)
                      (Some sampleSys) utcDate isoDate "foo" (Some "SYSTEM") None
  = filter (fun r => String.eqb (typeName (type r)) "SYSTEM") (sampleSearch "foo" None).
Proof.
  apply (type_filter_is_postfilter sampleDir literalPattern sampleRead None (Some sampleAlgo)
           (Some sampleSys) utcDate isoDate "foo" "SYSTEM" None).
  discriminate.
Defined.

Lemma results_ranked_by_score_witness :
  StronglySorted (fun a b => score b <= score a) (sampleSearch "foo" None)
  /\ forall r, In r (sampleSearch "foo" None) ->
               1 <= List.length (matches r) /\ List.length (matches r) <= score r.
Proof.
  apply (results_ranked_by_score sampleDir literalPattern sampleRead None (Some sampleAlgo)
           (Some sampleSys) utcDate isoDate "foo" None None).
  apply literalPattern_scansFromLeft.
Defined.

Lemma match_context_window_witness :
  In notesResult (sampleSearch "foo" None)
  /\ sampleRead (filePath notesResult) = Some ("undated" ++ nl ++ "Foo")%string
  /\ In notesHit (matches notesResult)
  /\ 1 <= lineNumber notesHit <= 2
  /\ nth_error (splitLines ("undated" ++ nl ++ "Foo")%string) 1 = Some "Foo"
  /\ List.length (before notesHit) = 1
  /\ List.length (after notesHit) = 0.
Proof.
  assert (H1 : In notesResult (sampleSearch "foo" None)).
  { vm_compute. right. right. left. reflexivity. }
  assert (H2 : sampleRead (filePath notesResult) = Some ("undated" ++ nl ++ "Foo")%string).
  { reflexivity. }
  assert (H3 : In notesHit (matches notesResult)).
  { left. reflexivity. }
  pose proof (match_context_window sampleDir literalPattern sampleRead None (Some sampleAlgo)
                (Some sampleSys) utcDate isoDate "foo" None None notesResult _ notesHit
                H1 H2 H3) as [Ha [Hb [Hc [Hd _]]]].
  repeat split; try assumption; try (exact (proj1 Ha)); try (exact (proj2 Ha)).
Defined.

End SearchMore.

(** ** The sync of the files into the table *)

Module SyncFacts.
Import JS JSFacts MemoryDatabase DatabaseFacts MemorySync.

(** *** Runs over steps *)

Lemma written_app (a b : list (option Memory)) :
  written (a ++ b) = if completes a then written a ++ written b else written a.
Proof.
  unfold completes.
  induction a as [|[m|] r IH]; simpl; [reflexivity| |reflexivity].
  rewrite IH. now destruct (forallb _ r).
Qed.

Lemma completes_app (a b : list (option Memory)) :
  completes (a ++ b) = completes a && completes b.
Proof. unfold completes. apply forallb_app. Qed.

Lemma written_length (a : list (option Memory)) :
  completes a = true -> List.length (written a) = List.length a.
Proof.
  unfold completes.
  induction a as [|[m|] r IH]; simpl; [reflexivity| |discriminate].
  intros H. now rewrite IH.
Qed.

Lemma writeAll_app (clock : nat -> string) (a b : list Memory) :
  forall db count,
    writeAll clock (a ++ b) db count
    = writeAll clock b (writeAll clock a db count) (count + List.length a).
Proof.
  induction a as [|m r IH]; intros db count; simpl.
  - now rewrite Nat.add_0_r.
  - rewrite IH. f_equal. lia.
Qed.

Lemma outcomeOf_app (clock : nat -> string) (a b : list (option Memory)) (db : Table)
      (count : nat) :
  andThen (outcomeOf clock a db count) (outcomeOf clock b) = outcomeOf clock (a ++ b) db count.
Proof.
  unfold outcomeOf. rewrite completes_app, written_app.
  destruct (completes a) eqn:Ea; cbn [andThen andb]; [|reflexivity].
  rewrite writeAll_app, (written_length a Ea), length_app, Nat.add_assoc.
  reflexivity.
Qed.

Lemma written_In (s : list (option Memory)) (m : Memory) :
  In m (written s) -> In (Some m) s.
Proof.
  induction s as [|[x|] r IH]; cbn [written]; [intros []| |intros []].
  intros [->|H]; [now left|right; now apply IH].
Qed.

(** *** Upserts one after the other *)

Lemma upsert_overwrites (now1 now2 : string) (db : Table) (m1 m2 : Memory) :
  id m1 = id m2 ->
  insertMemory now2 (insertMemory now1 db m1) m2 = insertMemory now1 db m2.
Proof.
  intros Hid.
  assert (Hc : forall r, conflicts m1 r = conflicts m2 r)
    by (intros r; unfold conflicts; now rewrite Hid).
  assert (He : forall l, existsb (conflicts m1) l = existsb (conflicts m2) l).
  { induction l as [|x l IH]; cbn [existsb]; [reflexivity|]. now rewrite Hc, IH. }
  destruct (existsb (conflicts m2) db) eqn:E.
  - assert (E1 : insertMemory now1 db m1
                 = map (fun r => if conflicts m1 r then updatedRow r m1 else r) db).
    { unfold insertMemory. now rewrite He, E. }
    rewrite E1. unfold insertMemory. rewrite E.
    assert (E2 : existsb (conflicts m2)
                   (map (fun r => if conflicts m1 r then updatedRow r m1 else r) db) = true).
    { apply existsb_conflicts. rewrite update_keeps_ids. now apply existsb_conflicts. }
    rewrite E2, map_map. apply map_ext. intros r. rewrite Hc.
    destruct (conflicts m2 r) eqn:Er; [|now rewrite Er].
    assert (Eu : conflicts m2 (updatedRow r m1) = true) by exact Er.
    rewrite Eu. reflexivity.
  - assert (E1 : insertMemory now1 db m1 = db ++ [insertedRow (nextRowid db) now1 m1]).
    { unfold insertMemory. now rewrite He, E. }
    rewrite E1. unfold insertMemory. rewrite E.
    assert (Ei : conflicts m2 (insertedRow (nextRowid db) now1 m1) = true).
    { unfold conflicts. cbn [c_id insertedRow]. rewrite Hid. apply String.eqb_refl. }
    rewrite existsb_app. cbn [existsb]. rewrite Ei, orb_true_r.
    rewrite map_app. cbn [map]. rewrite Ei.
    assert (Hsame : map (fun r => if conflicts m2 r then updatedRow r m2 else r) db = db).
    { clear - E. induction db as [|r rest IH]; cbn [existsb map] in *; [reflexivity|].
      apply orb_false_iff in E as [Hr Hrest]. now rewrite Hr, IH. }
    rewrite Hsame. f_equal. unfold updatedRow, insertedRow. cbn. now rewrite Hid.
Qed.

Lemma outcomeOf_nil (clock : nat -> string) (db : Table) (count : nat) :
  outcomeOf clock [] db count = Done db count.
Proof. unfold outcomeOf. cbn. now rewrite Nat.add_0_r. Qed.

Lemma outcomeOf_some (clock : nat -> string) (m : Memory) (s : list (option Memory))
      (db : Table) (count : nat) :
  outcomeOf clock (Some m :: s) db count
  = outcomeOf clock s (insertMemory (clock count) db m) (S count).
Proof.
  unfold outcomeOf, completes. simpl. now rewrite Nat.add_succ_r.
Qed.

Lemma outcomeOf_none (clock : nat -> string) (s : list (option Memory))
      (db : Table) (count : nat) :
  outcomeOf clock (None :: s) db count = Thrown db.
Proof. reflexivity. Qed.

Lemma andThen_ext (o : Outcome) (k1 k2 : Table -> nat -> Outcome) :
  (forall db n, k1 db n = k2 db n) -> andThen o k1 = andThen o k2.
Proof. intros H. destruct o; cbn; [apply H|reflexivity]. Qed.

Lemma written_somes (pre : list Memory) (post : list (option Memory)) :
  written (map Some pre ++ None :: post) = pre
  /\ completes (map Some pre ++ None :: post) = false.
Proof.
  unfold completes. induction pre as [|m r [IH1 IH2]]; simpl; [now split|].
  now rewrite IH1, IH2.
Qed.

(** *** The ids of a table after a batch *)

Lemma dedupeFrom_ext (l : list string) :
  forall s1 s2, (forall z, existsb (String.eqb z) s1 = existsb (String.eqb z) s2) ->
                dedupeFrom s1 l = dedupeFrom s2 l.
Proof.
  induction l as [|y r IH]; intros s1 s2 H; simpl; [reflexivity|].
  rewrite (H y). destruct (existsb (String.eqb y) s2).
  - now apply IH.
  - f_equal. apply IH. intros z. simpl. now rewrite H.
Qed.

Lemma filter_twice {A} (f g : A -> bool) (l : list A) :
  filter f (filter g l) = filter (fun y => g y && f y) l.
Proof.
  induction l as [|x r IH]; simpl; [reflexivity|].
  destruct (g x); simpl; [destruct (f x)|]; now rewrite IH.
Qed.

Lemma dedupeFrom_seen (l : list string) :
  forall x seen,
    dedupeFrom (x :: seen) l = filter (fun y => negb (String.eqb y x)) (dedupeFrom seen l).
Proof.
  induction l as [|y r IH]; intros x seen; [reflexivity|].
  cbn [dedupeFrom existsb].
  destruct (String.eqb y x) eqn:Eyx; cbn [orb].
  - apply String.eqb_eq in Eyx. subst y.
    destruct (existsb (String.eqb x) seen); [apply IH|].
    cbn [filter]. rewrite String.eqb_refl. cbn [negb].
    rewrite (IH x seen), filter_twice.
    apply filter_ext. intros a. now destruct (String.eqb a x).
  - destruct (existsb (String.eqb y) seen); [apply IH|].
    cbn [filter]. rewrite Eyx. cbn [negb]. f_equal.
    rewrite <- (IH x (y :: seen)). apply dedupeFrom_ext.
    intros z. cbn [existsb]. now destruct (String.eqb z y), (String.eqb z x).
Qed.

Lemma conflicts_existsb (db : Table) (m : Memory) :
  existsb (String.eqb (id m)) (map c_id db) = existsb (conflicts m) db.
Proof.
  induction db as [|r rest IH]; cbn [map existsb]; [reflexivity|].
  rewrite IH. unfold conflicts. now rewrite (String.eqb_sym (id m)).
Qed.

Lemma writeAll_ids (clock : nat -> string) (ms : list Memory) :
  forall db count,
    map c_id (writeAll clock ms db count) = map c_id db ++ newIds db ms.
Proof.
  induction ms as [|m rest IH]; intros db count.
  - cbn. now rewrite app_nil_r.
  - cbn [writeAll]. rewrite IH. unfold newIds, dedupe.
    cbn [map dedupeFrom existsb filter]. rewrite dedupeFrom_seen, filter_twice.
    rewrite (conflicts_existsb db m), !insertMemory_ids.
    destruct (existsb (conflicts m) db) eqn:E; cbn [negb].
    + f_equal. apply filter_ext_in. intros k _.
      destruct (String.eqb k (id m)) eqn:Ek; [|reflexivity].
      apply String.eqb_eq in Ek. subst k. cbn [negb andb].
      now rewrite (conflicts_existsb db m), E.
    + rewrite <- app_assoc. f_equal. change ([id m] ++ ?l) with (id m :: l). f_equal.
      apply filter_ext. intros k.
      rewrite existsb_app. cbn [existsb]. rewrite orb_false_r, negb_orb.
      apply andb_comm.
Qed.

Lemma newIds_le (db : Table) (ms : list Memory) :
  List.length (newIds db ms) <= List.length ms.
Proof.
  unfold newIds. etransitivity; [apply filter_length_le|].
  etransitivity; [apply dedupe_length_le|]. now rewrite length_map.
Qed.

Lemma writeAll_has_ids (clock : nat -> string) (ms : list Memory) (db : Table) (count : nat)
      (m : Memory) :
  In m ms -> existsb (conflicts m) (writeAll clock ms db count) = true.
Proof.
  intros Hm. apply existsb_conflicts. rewrite writeAll_ids. apply in_or_app.
  destruct (existsb (String.eqb (id m)) (map c_id db)) eqn:E.
  - left. now apply existsb_eqb_In.
  - right. unfold newIds. apply filter_In. split; [|now rewrite E].
    apply dedupe_In. now apply in_map.
Qed.

(** *** A batch written again *)

Local Abbreviation upd ms r :=
  (fold_left (fun (r : Row) (m : Memory) => if conflicts m r then updatedRow r m else r) ms r).

Lemma upd_keys (ms : list Memory) :
  forall r, rowid (upd ms r) = rowid r /\ c_id (upd ms r) = c_id r
            /\ created_at (upd ms r) = created_at r.
Proof.
  induction ms as [|m rest IH]; intros r; cbn [fold_left]; [now repeat split|].
  destruct (IH (if conflicts m r then updatedRow r m else r)) as [H1 [H2 H3]].
  rewrite H1, H2, H3. now destruct (conflicts m r).
Qed.

Lemma updatedRow_keys (x y : Row) (m : Memory) :
  rowid x = rowid y -> c_id x = c_id y -> created_at x = created_at y ->
  updatedRow x m = updatedRow y m.
Proof. unfold updatedRow. now intros -> -> ->. Qed.

Lemma writeAll_present (clock : nat -> string) (ms : list Memory) :
  forall db count,
    (forall m, In m ms -> existsb (conflicts m) db = true) ->
    writeAll clock ms db count = map (fun r => upd ms r) db.
Proof.
  induction ms as [|m rest IH]; intros db count H.
  - cbn. now rewrite map_id.
  - cbn [writeAll fold_left]. unfold insertMemory. rewrite (H m (or_introl eq_refl)).
    rewrite IH, map_map; [reflexivity|].
    intros m' Hm'. apply existsb_conflicts. rewrite update_keeps_ids.
    apply existsb_conflicts. apply H. now right.
Qed.

Lemma writeAll_settled (clock : nat -> string) (ms : list Memory) :
  forall db count r, In r (writeAll clock ms db count) -> upd ms r = r.
Proof.
  induction ms as [|m ms' IH] using rev_ind; intros db count r Hr; [reflexivity|].
  rewrite writeAll_app in Hr. cbn [writeAll] in Hr. rewrite fold_left_app. cbn [fold_left].
  set (D := writeAll clock ms' db count) in *.
  assert (Hover : forall x, c_id x = id m ->
                            (if conflicts m (upd ms' x) then updatedRow (upd ms' x) m
                             else upd ms' x) = updatedRow x m).
  { intros x Hx. destruct (upd_keys ms' x) as [K1 [K2 K3]].
    assert (Ec : conflicts m (upd ms' x) = true).
    { change (String.eqb (c_id (upd ms' x)) (id m) = true).
      rewrite K2, Hx. apply String.eqb_refl. }
    rewrite Ec. now apply updatedRow_keys. }
  unfold insertMemory in Hr. destruct (existsb (conflicts m) D) eqn:E.
  - apply in_map_iff in Hr as [r0 [<- Hr0]]. destruct (conflicts m r0) eqn:Ec.
    + assert (Hid : c_id r0 = id m) by (now apply String.eqb_eq).
      rewrite (Hover (updatedRow r0 m) Hid). reflexivity.
    + rewrite (IH db count r0 Hr0), Ec. reflexivity.
  - apply in_app_or in Hr as [Hr|[<-|[]]].
    + rewrite (IH db count r Hr).
      assert (Ec : conflicts m r = false).
      { destruct (conflicts m r) eqn:Ec; [|reflexivity].
        assert (existsb (conflicts m) D = true) by (apply existsb_exists; now exists r).
        congruence. }
      now rewrite Ec.
    + rewrite (Hover (insertedRow (nextRowid D) (clock (count + List.length ms')) m) eq_refl).
      reflexivity.
Qed.

Lemma writeAll_again (clock clock' : nat -> string) (ms : list Memory) (db : Table)
      (count count' : nat) :
  writeAll clock' ms (writeAll clock ms db count) count' = writeAll clock ms db count.
Proof.
  rewrite writeAll_present by (intros m Hm; now apply writeAll_has_ids).
  rewrite <- (map_id (writeAll clock ms db count)) at 2.
  apply map_ext_in. intros r Hr. now apply (writeAll_settled clock ms db count).
Qed.

(** *** From the loops to the steps *)

Lemma importance_kept (r : option Z) (d : Z) :
  orNumber (importanceOf r) d = importanceOf (orNull r).
Proof.
  unfold orNumber, importanceOf, orNull. destruct r as [n|]; [|reflexivity].
  destruct (Z.eqb_spec n 0) as [->|Hn]; [reflexivity|].
  destruct (Z.eqb_spec n 0); [contradiction|].
  now destruct (8 <=? n)%Z, (6 <=? n)%Z, (4 <=? n)%Z.
Qed.

Lemma orNull_nonzero (r : option Z) : orNull r <> Some 0%Z.
Proof.
  unfold orNull. destruct r as [n|]; [|discriminate].
  destruct (Z.eqb_spec n 0); [discriminate|congruence].
Qed.

Lemma stability_kept (p : string) (d : Z) :
  In (orNumber (stabilityOf p) d) [2; 3; 4; 5]%Z.
Proof.
  unfold orNumber, stabilityOf.
  destruct (includes p "goals" || includes p "user-context");
    [|destruct (includes p "LEARNING/ALGORITHM"); [|destruct (includes p "WORK")]];
    cbn; tauto.
Qed.

Lemma beforeLastSlash_none (name : string) :
  includes name "/" = false -> beforeLastSlash name = None.
Proof.
  induction name as [|c r IH]; [reflexivity|].
  cbn [includes startsWith beforeLastSlash]. intros H.
  apply orb_false_iff in H as [Hc Hr]. rewrite (IH Hr).
  rewrite andb_true_r in Hc. now rewrite Ascii.eqb_sym, Hc.
Qed.

Lemma beforeLastSlash_join (d name : string) :
  includes name "/" = false -> beforeLastSlash (d ++ "/" ++ name) = Some d.
Proof.
  intros H. induction d as [|c r IH].
  - cbn. now rewrite (beforeLastSlash_none name H).
  - change ((String c r ++ "/" ++ name)%string) with (String c (r ++ "/" ++ name)).
    cbn [beforeLastSlash]. now rewrite IH.
Qed.

Lemma dirname_join (d name : string) :
  d <> EmptyString -> includes name "/" = false -> dirname (d ++ "/" ++ name) = d.
Proof.
  intros Hd H. unfold dirname. rewrite (beforeLastSlash_join d name H).
  destruct d; [contradiction|reflexivity].
Qed.

Section World.
Variable HOME : string.
Variable matchRating : string -> option N.
Variable matchFileName : string -> option string.
Variable matchHeader : string -> option string.
Variable matchTags : string -> option (list string).
Variable statSync : string -> option Z.
Variable toISOString : Z -> string.
Variable now : Z.
Variable thirtyDaysAgo : Z.
Variable readFileSync : string -> option string.
Variable basename_md : string -> string.
Variable workGlob algoGlob sysGlob vaultWorkGlob vaultProjectsGlob journalGlob
  : option (list string).

Local Abbreviation workMemory :=
  (workMemory HOME matchRating matchFileName matchHeader matchTags statSync toISOString now).
Local Abbreviation algoMemory :=
  (algoMemory HOME matchRating matchFileName matchHeader matchTags statSync toISOString now).
Local Abbreviation sysMemory :=
  (sysMemory HOME matchRating matchFileName matchHeader matchTags statSync toISOString now).
Local Abbreviation vaultWorkMemory :=
  (vaultWorkMemory HOME matchRating matchFileName matchHeader matchTags statSync toISOString
                   now basename_md).
Local Abbreviation vaultProjectMemory :=
  (vaultProjectMemory HOME matchRating matchFileName matchHeader matchTags statSync
                      toISOString now basename_md).
Local Abbreviation journalMemory :=
  (journalMemory HOME matchRating matchFileName matchHeader matchTags statSync toISOString
                 now).
Local Abbreviation journalSteps :=
  (journalSteps HOME matchRating matchFileName matchHeader matchTags statSync toISOString
                now thirtyDaysAgo readFileSync journalGlob).
Local Abbreviation steps :=
  (steps HOME matchRating matchFileName matchHeader matchTags statSync toISOString now
         thirtyDaysAgo readFileSync basename_md workGlob algoGlob sysGlob vaultWorkGlob
         vaultProjectsGlob journalGlob).
Local Abbreviation syncAllMemories :=
  (syncAllMemories HOME matchRating matchFileName matchHeader matchTags statSync toISOString
                   now thirtyDaysAgo readFileSync basename_md workGlob algoGlob sysGlob
                   vaultWorkGlob vaultProjectsGlob journalGlob).
Local Abbreviation syncJournal :=
  (syncJournal HOME matchRating matchFileName matchHeader matchTags statSync toISOString
               now thirtyDaysAgo readFileSync journalGlob).
Local Abbreviation syncJournalFiles :=
  (syncJournalFiles HOME matchRating matchFileName matchHeader matchTags statSync toISOString
                    now thirtyDaysAgo readFileSync).

Lemma syncTree_steps (clock : nat -> string) (mk : string -> string -> Memory)
      (dir : string) (glob : option (list string)) (db : Table) (count : nat) :
  syncTree readFileSync clock mk dir glob db count
  = outcomeOf clock (treeSteps readFileSync mk dir glob) db count.
Proof.
  destruct glob as [files|]; cbn [syncTree treeSteps]; [|now rewrite outcomeOf_nil].
  revert db count. induction files as [|file rest IH]; intros db count;
    cbn [syncFiles map]; [now rewrite outcomeOf_nil|].
  destruct (readFileSync (dir ++ "/" ++ file)) as [content|]; cbn [option_map].
  - now rewrite outcomeOf_some, IH.
  - now rewrite outcomeOf_none.
Qed.

Lemma syncJournal_steps (clock : nat -> string) (db : Table) (count : nat) :
  syncJournal clock db count = outcomeOf clock journalSteps db count.
Proof.
  unfold MemorySync.syncJournal, MemorySync.journalSteps.
  destruct journalGlob as [files|]; [|now rewrite outcomeOf_nil].
  revert db count. induction files as [|file rest IH]; intros db count;
    cbn [MemorySync.syncJournalFiles flat_map]; [now rewrite outcomeOf_nil|].
  destruct (statSync (vaultJournal HOME ++ "/" ++ file)) as [mtime|];
    [|rewrite <- app_comm_cons; now rewrite outcomeOf_none].
  destruct (thirtyDaysAgo <? mtime)%Z; [|rewrite app_nil_l; now rewrite IH].
  rewrite <- app_comm_cons, app_nil_l.
  destruct (readFileSync (vaultJournal HOME ++ "/" ++ file)) as [content|];
    cbn [option_map].
  - now rewrite outcomeOf_some, IH.
  - now rewrite outcomeOf_none.
Qed.

Lemma sync_steps (clock : nat -> string) (db : Table) :
  syncAllMemories clock db = outcomeOf clock steps db 0.
Proof.
  unfold MemorySync.syncAllMemories, MemorySync.steps.
  rewrite !syncTree_steps.
  rewrite <- !outcomeOf_app.
  repeat (apply andThen_ext; intros; rewrite ?syncTree_steps, <- ?outcomeOf_app).
  apply syncJournal_steps.
Qed.

Lemma built_synced (m : Memory) : In (Some m) steps -> syncedMemory m.
Proof.
  assert (Htree : forall mk dir glob,
             (forall file content, syncedMemory (mk file content)) ->
             In (Some m) (treeSteps readFileSync mk dir glob) -> syncedMemory m).
  { intros mk dir glob Hmk Hin. destruct glob as [files|]; [|contradiction].
    cbn [treeSteps] in Hin. apply in_map_iff in Hin as [file [Heq _]].
    destruct (readFileSync (dir ++ "/" ++ file)) as [content|]; [|discriminate].
    cbn in Heq. injection Heq as <-. apply Hmk. }
  unfold MemorySync.steps. rewrite !in_app_iff.
  intros [H|[H|[H|[H|[H|H]]]]].
  1-5: revert H; apply Htree; intros file content; unfold syncedMemory;
    cbn [rating importance stability MemorySync.workMemory MemorySync.algoMemory
         MemorySync.sysMemory MemorySync.vaultWorkMemory MemorySync.vaultProjectMemory
         extractMetadata md_rating md_importance md_stability];
    (split; [apply orNull_nonzero|split; [apply importance_kept|apply stability_kept]]).
  unfold MemorySync.journalSteps in H. destruct journalGlob as [files|]; [|contradiction].
  apply in_flat_map in H as [file [_ H]].
  destruct (statSync (vaultJournal HOME ++ "/" ++ file)) as [mtime|];
    [|destruct H as [H|[]]; discriminate].
  destruct (thirtyDaysAgo <? mtime)%Z; [|contradiction].
  destruct H as [H|[]].
  destruct (readFileSync (vaultJournal HOME ++ "/" ++ file)) as [content|]; [|discriminate].
  cbn in H. injection H as <-. unfold syncedMemory.
  cbn [rating importance stability MemorySync.journalMemory
       extractMetadata md_rating md_importance md_stability].
  split; [apply orNull_nonzero|split; [apply importance_kept|apply stability_kept]].
Qed.

Lemma insert_synced (t : string) (db : Table) (m : Memory) :
  Forall syncedRow db -> syncedMemory m -> Forall syncedRow (insertMemory t db m).
Proof.
  intros Hdb Hm. unfold insertMemory. destruct (existsb (conflicts m) db).
  - rewrite Forall_forall in *. intros r Hr. apply in_map_iff in Hr as [r0 [<- Hr0]].
    destruct (conflicts m r0); [|now apply Hdb].
    unfold syncedRow. destruct m. exact Hm.
  - apply Forall_app. split; [exact Hdb|]. constructor; [|constructor].
    unfold syncedRow. destruct m. exact Hm.
Qed.

Lemma writeAll_synced (clock : nat -> string) (ms : list Memory) :
  forall db count, Forall syncedRow db -> Forall syncedMemory ms ->
                   Forall syncedRow (writeAll clock ms db count).
Proof.
  induction ms as [|m rest IH]; intros db count Hdb Hms; [exact Hdb|].
  inversion Hms; subst. cbn [writeAll]. apply IH; [|assumption]. now apply insert_synced.
Qed.

(** A run that meets no failing call writes the records of all the
    files it reads, in order, and returns their number; a run that
    meets one stops there, leaves the records written before it in the
    table and writes none of the later ones. *)
Theorem sync_stops_at_first_failure (clock : nat -> string) (db : Table) :
  (completes steps = true ->
   syncAllMemories clock db
   = Done (writeAll clock (written steps) db 0) (List.length (written steps)))
  /\ (forall pre post, steps = map Some pre ++ None :: post ->
                       syncAllMemories clock db = Thrown (writeAll clock pre db 0)).
Proof.
  rewrite sync_steps. unfold outcomeOf. split.
  - intros H. rewrite H, (written_length _ H). reflexivity.
  - intros pre post H. rewrite H. destruct (written_somes pre post) as [-> ->]. reflexivity.
Qed.

(** Every row that a run writes has a rating other than 0, the
    importance that goes with its rating (3 without one, then 2, 3, 4
    or 5 for ratings up to 3, 5, 7 and above), and a stability from 2
    to 5: the importance and stability that the loops name as their
    own defaults are never stored. *)
Theorem synced_rows_follow_rating (clock : nat -> string) (db : Table) :
  Forall syncedRow db -> Forall syncedRow (tableOf (syncAllMemories clock db)).
Proof.
  intros Hdb. rewrite sync_steps.
  assert (H : Forall syncedRow (writeAll clock (written steps) db 0)).
  { apply writeAll_synced; [exact Hdb|]. apply Forall_forall. intros m Hm.
    apply built_synced. now apply written_In. }
  unfold outcomeOf. now destruct (completes steps).
Qed.

(** The count that a run returns is the number of files it has read,
    not the number of rows it has added: the table grows by one row for
    each id that is new to it, however many files are written under
    that id. *)
Theorem sync_counts_files_not_rows (clock : nat -> string) (db db1 : Table) (count : nat) :
  syncAllMemories clock db = Done db1 count ->
  count = List.length (written steps)
  /\ map c_id db1 = map c_id db ++ newIds db (written steps)
  /\ List.length db1 = List.length db + List.length (newIds db (written steps))
  /\ List.length db1 <= List.length db + count.
Proof.
  rewrite sync_steps. unfold outcomeOf. destruct (completes steps) eqn:E; [|discriminate].
  intros [= <- <-]. rewrite (written_length _ E).
  pose proof (writeAll_ids clock (written steps) db 0) as Hids.
  assert (Hlen : List.length (writeAll clock (written steps) db 0)
                 = List.length db + List.length (newIds db (written steps))).
  { rewrite <- (length_map c_id), Hids, length_app, length_map. reflexivity. }
  split; [reflexivity|]. split; [exact Hids|]. split; [exact Hlen|].
  rewrite Hlen. pose proof (newIds_le db (written steps)).
  rewrite (written_length _ E) in H. simpl. lia.
Qed.

(** The two files of a work directory are written under one id, so
    the directory has one row: the one of the file that the scan yields
    later, at the place and with the creation time of the first. *)
Theorem work_directory_is_one_row (d name1 name2 content1 content2 t1 t2 : string)
        (db : Table) :
  d <> EmptyString -> includes d "/" = false ->
  includes name1 "/" = false -> includes name2 "/" = false ->
  id (workMemory (d ++ "/" ++ name1) content1) = ("work_" ++ d)%string
  /\ insertMemory t2 (insertMemory t1 db (workMemory (d ++ "/" ++ name1) content1))
                  (workMemory (d ++ "/" ++ name2) content2)
     = insertMemory t1 db (workMemory (d ++ "/" ++ name2) content2).
Proof.
  intros Hd _ H1 H2.
  assert (Hid : forall name content,
             includes name "/" = false ->
             id (workMemory (d ++ "/" ++ name) content) = ("work_" ++ d)%string).
  { intros name content Hn. cbn [id MemorySync.workMemory]. now rewrite dirname_join. }
  split; [now apply Hid|].
  apply upsert_overwrites. now rewrite !Hid.
Qed.

End World.

Lemma synced_rows_follow_rating_witness :
  Forall syncedRow (tableOf (sampleSync sampleClock [])).
Proof.
  apply (synced_rows_follow_rating sampleHome sampleRating noMatch noMatch noMatch
           (fun _ => None) (fun _ => "2026-02-10T09:00:00.000Z") 0%Z 0%Z sampleFiles
           (fun f => f) (Some sampleWork) (Some sampleLearnings) None None None None
           sampleClock []).
  constructor.
Defined.

Section Again.
Variable HOME : string.
Variable matchRating : string -> option N.
Variable matchFileName : string -> option string.
Variable matchHeader : string -> option string.
Variable matchTags : string -> option (list string).
Variable statSync : string -> option Z.
Variable toISOString : Z -> string.
Variable readFileSync : string -> option string.
Variable basename_md : string -> string.
Variable workGlob algoGlob sysGlob vaultWorkGlob vaultProjectsGlob journalGlob
  : option (list string).
(** The time of the first run and of the second, each with its day
    thirty days before. *)
Variable now thirtyDaysAgo : Z.
Variable now' thirtyDaysAgo' : Z.

(** When the second run builds from the files the records that the
    first run built (no journal entry has left the thirty days, no
    timestamp is taken from the time of the run), it leaves the table of
    the first run as it is, rows, order, rowids and creation times,
    whatever the clock of the database says, and returns the same
    count. *)
Theorem sync_again_changes_nothing (clock clock' : nat -> string) (db db1 : Table)
        (count : nat) :
  steps HOME matchRating matchFileName matchHeader matchTags statSync toISOString now'
        thirtyDaysAgo' readFileSync basename_md workGlob algoGlob sysGlob vaultWorkGlob
        vaultProjectsGlob journalGlob
  = steps HOME matchRating matchFileName matchHeader matchTags statSync toISOString now
          thirtyDaysAgo readFileSync basename_md workGlob algoGlob sysGlob vaultWorkGlob
          vaultProjectsGlob journalGlob ->
  syncAllMemories HOME matchRating matchFileName matchHeader matchTags statSync toISOString
                  now thirtyDaysAgo readFileSync basename_md workGlob algoGlob sysGlob
                  vaultWorkGlob vaultProjectsGlob journalGlob clock db
  = Done db1 count ->
  syncAllMemories HOME matchRating matchFileName matchHeader matchTags statSync toISOString
                  now' thirtyDaysAgo' readFileSync basename_md workGlob algoGlob sysGlob
                  vaultWorkGlob vaultProjectsGlob journalGlob clock' db1
  = Done db1 count.
Proof.
  intros Hsame. rewrite !sync_steps, Hsame. unfold outcomeOf.
  destruct (completes _); [|discriminate].
  intros [= <- <-]. now rewrite writeAll_again.
Qed.

End Again.

(** The second run a day after the first: the journal entry is still
    within the thirty days. *)
Lemma sync_again_changes_nothing_witness :
  sampleSyncAt 1770786400000 1768194400000 laterClock
               (tableOf (sampleSyncAt 1770700000000 1768108000000 sampleClock []))
  = Done (tableOf (sampleSyncAt 1770700000000 1768108000000 sampleClock [])) 4.
Proof.
  apply (sync_again_changes_nothing sampleHome sampleRating noMatch noMatch noMatch
           journalStat sampleIso journalFiles (fun f => f)
           (Some sampleWork) (Some sampleLearnings) None None None (Some ["2026-02-09.md"])
           1770700000000%Z 1768108000000%Z 1770786400000%Z 1768194400000%Z
           sampleClock laterClock []).
  - vm_compute. reflexivity.
  - vm_compute. reflexivity.
Defined.

Lemma sync_counts_files_not_rows_witness :
  3 = List.length (written sampleSteps)
  /\ map c_id (tableOf (sampleSync sampleClock []))
     = map c_id [] ++ newIds [] (written sampleSteps)
  /\ List.length (tableOf (sampleSync sampleClock []))
     = List.length (@nil Row) + List.length (newIds [] (written sampleSteps))
  /\ List.length (tableOf (sampleSync sampleClock [])) <= List.length (@nil Row) + 3.
Proof.
  apply (sync_counts_files_not_rows sampleHome sampleRating noMatch noMatch noMatch
           (fun _ => None) (fun _ => "2026-02-10T09:00:00.000Z") 0%Z 0%Z sampleFiles
           (fun f => f) (Some sampleWork) (Some sampleLearnings) None None None None
           sampleClock [] (tableOf (sampleSync sampleClock [])) 3).
  vm_compute. reflexivity.
Defined.

Lemma work_directory_is_one_row_witness :
  id (MemorySync.workMemory sampleHome sampleRating noMatch noMatch noMatch (fun _ => None)
        (fun _ => "2026-02-10T09:00:00.000Z") 0%Z
        ("20260129-150618_plan" ++ "/" ++ "summary.md") "what was done")
  = ("work_" ++ "20260129-150618_plan")%string
  /\ insertMemory "2026-02-10 09:00:01"
       (insertMemory "2026-02-10 09:00:00" []
          (MemorySync.workMemory sampleHome sampleRating noMatch noMatch noMatch
             (fun _ => None) (fun _ => "2026-02-10T09:00:00.000Z") 0%Z
             ("20260129-150618_plan" ++ "/" ++ "summary.md") "what was done"))
       (MemorySync.workMemory sampleHome sampleRating noMatch noMatch noMatch
          (fun _ => None) (fun _ => "2026-02-10T09:00:00.000Z") 0%Z
          ("20260129-150618_plan" ++ "/" ++ "IDEAL.md") "what should be. Rating: 8")
     = insertMemory "2026-02-10 09:00:00" []
         (MemorySync.workMemory sampleHome sampleRating noMatch noMatch noMatch
            (fun _ => None) (fun _ => "2026-02-10T09:00:00.000Z") 0%Z
            ("20260129-150618_plan" ++ "/" ++ "IDEAL.md") "what should be. Rating: 8").
Proof.
  apply (work_directory_is_one_row sampleHome sampleRating noMatch noMatch noMatch
           (fun _ => None) (fun _ => "2026-02-10T09:00:00.000Z") 0%Z
           "20260129-150618_plan" "summary.md" "IDEAL.md").
  - discriminate.
  - reflexivity.
  - reflexivity.
  - reflexivity.
Defined.

(** *** Timestamps *)

Lemma matchPrefix_self (pat : list CharClass) :
  forall s m, matchPrefix pat s = Some m -> matchPrefix pat m = Some m.
Proof.
  induction pat as [|cl pat IH]; intros s m; cbn [matchPrefix].
  - now intros [= <-].
  - destruct s as [|c r]; [discriminate|].
    destruct (classMatches cl c) eqn:Ec; [|discriminate].
    destruct (matchPrefix pat r) as [m'|] eqn:Er; [|discriminate].
    intros [= <-]. cbn [matchPrefix]. now rewrite Ec, (IH r m' Er).
Qed.

Lemma findPattern_self (pat : list CharClass) (s m : string) :
  findPattern pat s = Some m -> matchPrefix pat m = Some m.
Proof.
  induction s as [|c r IH]; cbn [findPattern].
  - destruct (matchPrefix pat "") as [x|] eqn:E; [|discriminate].
    intros [= <-]. now apply matchPrefix_self in E.
  - destruct (matchPrefix pat (String c r)) as [x|] eqn:E; [|exact IH].
    intros [= <-]. now apply matchPrefix_self in E.
Qed.

Lemma matchPrefix_head (cl : CharClass) (pat : list CharClass) (c : ascii) (r : string) :
  matchPrefix (cl :: pat) (String c r) = Some (String c r) ->
  classMatches cl c = true /\ matchPrefix pat r = Some r.
Proof.
  cbn [matchPrefix]. destruct (classMatches cl c); [|discriminate].
  destruct (matchPrefix pat r) as [m|]; [|discriminate].
  intros [= ->]. now split.
Qed.

Ltac peel H :=
  repeat match type of H with
         | matchPrefix (_ :: _) ?m = Some ?m =>
             destruct m as [|? m]; [discriminate H|];
             apply matchPrefix_head in H as [? H]
         end;
  match type of H with
  | matchPrefix [] ?m = Some ?m => cbn [matchPrefix] in H; injection H as <-
  end.

Ltac digits_ok :=
  repeat (cbn -[classMatches];
          match goal with
          | H : classMatches ?cl ?c = true |- context [classMatches ?cl ?c] => rewrite H
          end);
  reflexivity.

(** A path that carries the stamp of a work directory or a day gives a
    timestamp of the shape [YYYY-MM-DD HH:MM:SS], nineteen characters
    of digits and separators, which depends on the path alone: neither
    the file system nor the clock is asked. *)
Theorem dated_path_gives_sql_time (statSync statSync' : string -> option Z)
        (toISOString toISOString' : Z -> string) (now now' : Z) (p : string) :
  findPattern workStamp p <> None \/ findPattern dayStamp p <> None ->
  matchPrefix sqlStamp (extractTimestamp statSync toISOString now p)
  = Some (extractTimestamp statSync toISOString now p)
  /\ String.length (extractTimestamp statSync toISOString now p) = 19
  /\ extractTimestamp statSync' toISOString' now' p
     = extractTimestamp statSync toISOString now p.
Proof.
  intros H. unfold extractTimestamp.
  destruct (findPattern workStamp p) as [m|] eqn:Ew.
  - apply findPattern_self in Ew.
    let l := eval vm_compute in workStamp in change workStamp with l in Ew.
    peel Ew.
    let l := eval vm_compute in sqlStamp in change sqlStamp with l.
    split; [|split; reflexivity]. digits_ok.
  - destruct H as [H|H]; [congruence|].
    destruct (findPattern dayStamp p) as [m|] eqn:Ed; [|congruence].
    apply findPattern_self in Ed.
    let l := eval vm_compute in dayStamp in change dayStamp with l in Ed.
    peel Ed.
    let l := eval vm_compute in sqlStamp in change sqlStamp with l.
    split; [|split; reflexivity]. digits_ok.
Qed.

Lemma dated_path_gives_sql_time_witness :
  extractTimestamp (fun _ => None) (fun _ => "2026-02-10T09:00:00.000Z") 0%Z
                   "/home/u/.claude/MEMORY/WORK/20260129-150618_plan/summary.md"
  = "2026-01-29 15:06:18"
  /\ extractTimestamp (fun _ => Some 5%Z) (fun _ => "") 7%Z
                      "/home/u/.claude/MEMORY/WORK/20260129-150618_plan/summary.md"
     = extractTimestamp (fun _ => None) (fun _ => "2026-02-10T09:00:00.000Z") 0%Z
                        "/home/u/.claude/MEMORY/WORK/20260129-150618_plan/summary.md".
Proof.
  split; [reflexivity|].
  apply (dated_path_gives_sql_time (fun _ => None) (fun _ => Some 5%Z)
           (fun _ => "2026-02-10T09:00:00.000Z") (fun _ => "") 0%Z 7%Z
           "/home/u/.claude/MEMORY/WORK/20260129-150618_plan/summary.md").
  left. vm_compute. discriminate.
Defined.

End SyncFacts.

(** ** The database: more on the upsert and on the limit *)

Module DatabaseMore.
Import JS JSFacts MemoryDatabase DatabaseFacts.

Lemma no_conflict_map (db : Table) (m : Memory) :
  existsb (conflicts m) db = false ->
  map (fun r => if conflicts m r then updatedRow r m else r) db = db.
Proof.
  induction db as [|r rest IH]; cbn [existsb map]; intros H; [reflexivity|].
  apply orb_false_iff in H as [Hr Hrest]. now rewrite Hr, IH.
Qed.

Lemma conflicts_same_id (m1 m2 : Memory) (r : Row) :
  id m1 = id m2 -> conflicts m1 r = conflicts m2 r.
Proof. unfold conflicts. now intros ->. Qed.

(** Of two writes under one id the later one wins: the table is what
    the later write alone would have left at the time of the earlier
    one.  The row keeps its place, its rowid and its creation time. *)
Theorem later_write_wins (now1 now2 : string) (db : Table) (m1 m2 : Memory) :
  id m1 = id m2 ->
  insertMemory now2 (insertMemory now1 db m1) m2 = insertMemory now1 db m2.
Proof. apply SyncFacts.upsert_overwrites. Qed.

Lemma later_write_wins_witness :
  insertMemory "2026-02-11 08:00:00"
    (insertMemory "2026-02-10 10:00:00" sampleDb
       (memo "algo_new" "2026-02-07 12:00:00" "first text" 3))
    (memo "algo_new" "2026-02-08 12:00:00" "second text" 5)
  = insertMemory "2026-02-10 10:00:00" sampleDb
      (memo "algo_new" "2026-02-08 12:00:00" "second text" 5).
Proof.
  apply (later_write_wins "2026-02-10 10:00:00" "2026-02-11 08:00:00" sampleDb
           (memo "algo_new" "2026-02-07 12:00:00" "first text" 3)
           (memo "algo_new" "2026-02-08 12:00:00" "second text" 5)).
  reflexivity.
Defined.

Lemma rowid_below_next (db : Table) (r : Row) : In r db -> (rowid r < nextRowid db)%Z.
Proof.
  unfold nextRowid. induction db as [|x rest IH]; [intros []|].
  cbn [fold_right]. intros [->|H]; [lia|]. specialize (IH H). lia.
Qed.

Lemma update_keeps_rowids (db : Table) (m : Memory) :
  map rowid (map (fun r => if conflicts m r then updatedRow r m else r) db) = map rowid db.
Proof. rewrite map_map. apply map_ext. intros r. now destruct (conflicts m r). Qed.

Lemma NoDup_snoc {A} (l : list A) (x : A) : NoDup l -> ~ In x l -> NoDup (l ++ [x]).
Proof.
  intros H Hx. apply NoDup_rev in H. rewrite <- (rev_involutive (l ++ [x])).
  apply NoDup_rev. rewrite rev_app_distr. cbn [rev app]. constructor; [|exact H].
  now rewrite <- in_rev.
Qed.

(** An upsert keeps the table well formed: the ids stay distinct and
    the rowids, on which the full-text index is joined, stay distinct;
    the rows that were there keep their rowids and their places, every
    row under another id is left as it was, and the table grows by one
    row exactly when the id is new. *)
Theorem upsert_keeps_table_wellformed (now : string) (db : Table) (m : Memory) :
  primaryKey db -> NoDup (map rowid db) ->
  primaryKey (insertMemory now db m)
  /\ NoDup (map rowid (insertMemory now db m))
  /\ firstn (List.length db) (map rowid (insertMemory now db m)) = map rowid db
  /\ (forall i r, nth_error db i = Some r -> c_id r <> id m ->
                  nth_error (insertMemory now db m) i = Some r)
  /\ List.length (insertMemory now db m)
     = if existsb (conflicts m) db then List.length db else S (List.length db).
Proof.
  intros Hk Hr. split; [now apply insertMemory_primaryKey|].
  unfold insertMemory. destruct (existsb (conflicts m) db) eqn:E.
  - rewrite update_keeps_rowids, length_map.
    split; [exact Hr|]. split; [|split; [|reflexivity]].
    + rewrite <- (length_map rowid). apply firstn_all.
    + intros i r Hi Hne. rewrite nth_error_map, Hi. cbn [option_map].
      unfold conflicts. destruct (String.eqb_spec (c_id r) (id m)); [contradiction|reflexivity].
  - rewrite map_app. cbn [map rowid insertedRow]. split; [|split; [|split]].
    + apply NoDup_snoc; [exact Hr|]. intros Hin. apply in_map_iff in Hin as [r [Heq Hin]].
      apply rowid_below_next in Hin. lia.
    + rewrite <- (length_map rowid db), firstn_app, firstn_all, Nat.sub_diag.
      cbn [firstn]. now rewrite app_nil_r.
    + intros i r Hi _. rewrite nth_error_app1; [exact Hi|].
      apply nth_error_Some. congruence.
    + rewrite length_app. cbn [List.length]. lia.
Qed.

Lemma sampleDb_rowids : NoDup (map rowid sampleDb).
Proof. vm_compute. repeat constructor; cbn; intuition discriminate. Qed.

Lemma upsert_keeps_table_wellformed_witness :
  primaryKey (insertMemory "2026-02-11 08:00:00" sampleDb
                (memo "algo_late" "2026-02-09 12:00:00" "the budget review, revised" 4))
  /\ NoDup (map rowid (insertMemory "2026-02-11 08:00:00" sampleDb
                (memo "algo_late" "2026-02-09 12:00:00" "the budget review, revised" 4)))
  /\ List.length (insertMemory "2026-02-11 08:00:00" sampleDb
                (memo "algo_late" "2026-02-09 12:00:00" "the budget review, revised" 4)) = 3.
Proof.
  pose proof (upsert_keeps_table_wellformed "2026-02-11 08:00:00" sampleDb
                (memo "algo_late" "2026-02-09 12:00:00" "the budget review, revised" 4)
                sampleDb_primaryKey sampleDb_rowids) as [H1 [H2 [_ [_ H3]]]].
  split; [exact H1|]. split; [exact H2|exact H3].
Defined.

End DatabaseMore.


(** ** The statistics *)

Module StatsFacts.
Import JS MemoryDatabase MemoryStats.

Lemma sum_nonzero (l : list (MemKind * nat)) :
  list_sum (map snd (filter (fun p => negb (snd p =? 0)%nat) l)) = list_sum (map snd l).
Proof.
  induction l as [|[k n] r IH]; [reflexivity|].
  cbn [filter snd map]. destruct (Nat.eqb_spec n 0) as [->|Hn]; cbn [negb].
  - rewrite IH. reflexivity.
  - change (n + list_sum (map snd (filter (fun p => negb (snd p =? 0)%nat) r))
            = n + list_sum (map snd r)). now rewrite IH.
Qed.

Lemma counts_cover (db : Table) :
  countOf learning db + countOf session db + countOf synthesis db + countOf work db
  = List.length db.
Proof.
  unfold countOf. induction db as [|r rest IH]; [reflexivity|].
  cbn [filter List.length]. destruct (c_type r); cbn [kind_eqb List.length]; lia.
Qed.

Lemma ratings_le (db : Table) : List.length (ratings db) <= List.length db.
Proof.
  unfold ratings. induction db as [|r rest IH]; [cbn; lia|].
  cbn [flat_map List.length]. rewrite length_app.
  destruct (c_rating r); cbn [List.length]; lia.
Qed.

Lemma fold_min_le (l : list Z) :
  forall a, (fold_left Z.min l a <= a)%Z
            /\ (forall n, In n l -> (fold_left Z.min l a <= n)%Z)
            /\ In (fold_left Z.min l a) (a :: l).
Proof.
  induction l as [|x r IH]; intros a; cbn [fold_left].
  - split; [lia|]. split; [intros n []|now left].
  - destruct (IH (Z.min a x)) as [H1 [H2 H3]]. split; [lia|]. split.
    + intros n [<-|Hn]; [lia|now apply H2].
    + destruct H3 as [H3|H3]; [|right; now right].
      rewrite <- H3. destruct (Z.min_spec a x) as [[_ ->]|[_ ->]]; [now left|right; now left].
Qed.

Lemma fold_max_ge (l : list Z) :
  forall a, (a <= fold_left Z.max l a)%Z
            /\ (forall n, In n l -> (n <= fold_left Z.max l a)%Z)
            /\ In (fold_left Z.max l a) (a :: l).
Proof.
  induction l as [|x r IH]; intros a; cbn [fold_left].
  - split; [lia|]. split; [intros n []|now left].
  - destruct (IH (Z.max a x)) as [H1 [H2 H3]]. split; [lia|]. split.
    + intros n [<-|Hn]; [lia|now apply H2].
    + destruct H3 as [H3|H3]; [|right; now right].
      rewrite <- H3. destruct (Z.max_spec a x) as [[_ ->]|[_ ->]]; [right; now left|now left].
Qed.

Lemma sum_between (l : list Z) (lo hi : Z) :
  (forall n, In n l -> (lo <= n <= hi)%Z) ->
  (lo * Z.of_nat (List.length l) <= fold_right Z.add 0%Z l <= hi * Z.of_nat (List.length l))%Z.
Proof.
  induction l as [|x r IH]; intros H; [cbn; lia|].
  cbn [fold_right List.length]. rewrite Nat2Z.inj_succ.
  specialize (IH (fun n Hn => H n (or_intror Hn))).
  pose proof (H x (or_introl eq_refl)). lia.
Qed.

(** The counts by type add up to the total and the number of rated
    records is at most the total.  Without a rated record the three
    rating figures are null and the count is 0; with one, the minimum
    and the maximum are ratings of records, every rating lies between
    them, and so does the average. *)
Theorem stats_are_consistent (db : Table) :
  list_sum (map snd (by_type db)) = total db
  /\ rated_count (ratingStats db) <= total db
  /\ (rated_count (ratingStats db) = 0 ->
      avg_rating (ratingStats db) = None /\ min_rating (ratingStats db) = None
      /\ max_rating (ratingStats db) = None
      /\ forall r, In r db -> c_rating r = None)
  /\ (0 < rated_count (ratingStats db) ->
      exists lo hi avg,
        min_rating (ratingStats db) = Some lo /\ max_rating (ratingStats db) = Some hi
        /\ avg_rating (ratingStats db) = Some avg
        /\ In lo (ratings db) /\ In hi (ratings db)
        /\ (forall n, In n (ratings db) -> (lo <= n <= hi)%Z)
        /\ (inject_Z lo <= avg)%Q /\ (avg <= inject_Z hi)%Q).
Proof.
  split; [|split; [|split]].
  - unfold by_type. rewrite sum_nonzero. unfold kinds, total. cbn [map snd list_sum fold_right].
    rewrite <- (counts_cover db). lia.
  - unfold total. pose proof (ratings_le db) as H. unfold ratingStats.
    destruct (ratings db); simpl in *; lia.
  - unfold ratingStats. destruct (ratings db) as [|x rest] eqn:E; [|discriminate].
    intros _. repeat split. intros r Hr. destruct (c_rating r) as [n|] eqn:En; [|reflexivity].
    assert (Hin : In n (ratings db)).
    { unfold ratings. apply in_flat_map. exists r. split; [exact Hr|]. rewrite En. now left. }
    rewrite E in Hin. contradiction.
  - unfold ratingStats. destruct (ratings db) as [|x rest] eqn:E; [cbn; lia|].
    intros _. cbn [min_rating max_rating avg_rating].
    destruct (fold_min_le rest x) as [L1 [L2 L3]].
    destruct (fold_max_ge rest x) as [U1 [U2 U3]].
    set (lo := fold_left Z.min rest x) in *. set (hi := fold_left Z.max rest x) in *.
    assert (Hall : forall n, In n (x :: rest) -> (lo <= n <= hi)%Z).
    { intros n [<-|Hn]; [lia|]. split; [now apply L2|now apply U2]. }
    exists lo, hi, (fold_right Z.add 0%Z (x :: rest) # Pos.of_succ_nat (List.length rest))%Q.
    split; [reflexivity|]. split; [reflexivity|]. split; [reflexivity|].
    split; [exact L3|]. split; [exact U3|]. split; [exact Hall|].
    pose proof (sum_between (x :: rest) lo hi Hall) as Hs.
    cbn [List.length] in Hs. rewrite Nat2Z.inj_succ in Hs.
    unfold Qle, inject_Z. cbn [Qnum Qden]. rewrite Zpos_P_of_succ_nat. lia.
Qed.

End StatsFacts.

(** ** The weekly result *)

Module ReportFacts.
Import JS JSFacts WeeklySynthesis.

Section Result.
Variable toFixed1 : Q -> string.

Lemma identifyPatterns_sorted (ls : list Learning) :
  StronglySorted (fun a b => occurrences b <= occurrences a) (identifyPatterns toFixed1 ls).
Proof.
  unfold identifyPatterns.
  assert (S : StronglySorted (fun a b => byOccurrences a b = true)
                             (sortBy byOccurrences
                                     (flat_map (emitPattern toFixed1) (groupLearnings ls)))).
  { apply sortBy_sorted; unfold byOccurrences.
    - intros x y. rewrite !Nat.leb_le. lia.
    - intros x y z. rewrite !Nat.leb_le. lia. }
  induction S as [|x r Hr IH Hx]; constructor; [exact IH|].
  rewrite Forall_forall in *. intros y Hy. apply Nat.leb_le. now apply Hx.
Qed.

(** The result of a week counts every learning, takes its top insights
    from the first five patterns, which are five with the most
    occurrences, and lists as low-rated exactly the learnings rated 1,
    2 or 3, in their order. *)
Theorem weekly_result_summary (ls : list Learning) (wkStart wkEnd : string) :
  let r := synthesize toFixed1 ls wkStart wkEnd in
  totalLearnings r = List.length ls
  /\ List.length (topInsights r) = Nat.min 5 (List.length (patterns r))
  /\ (forall q, In q (firstn 5 (patterns r)) -> In (insight q) (topInsights r))
  /\ (forall q p, In q (firstn 5 (patterns r)) -> In p (skipn 5 (patterns r)) ->
                  occurrences p <= occurrences q)
  /\ (forall l, In l (lowRatings r) <->
                In l ls /\ exists n, rating l = Some n /\ (1 <= n <= 3)%N)
  /\ (topInsights r = [] <-> patterns r = []).
Proof.
  cbn zeta. unfold synthesize. cbn [totalLearnings topInsights patterns lowRatings].
  split; [reflexivity|]. split; [now rewrite length_map, length_firstn|].
  split; [intros q Hq; now apply in_map|].
  split.
  { intros q p Hq Hp.
    exact (DatabaseFacts.sorted_split _ _ 5 (identifyPatterns_sorted ls) q p Hq Hp). }
  split.
  { intros l. rewrite filter_In. unfold lowRated, ratingTruthy, ratingOr0.
    split.
    - intros [Hin H]. split; [exact Hin|]. destruct (rating l) as [n|]; [|discriminate].
      exists n. split; [reflexivity|]. apply andb_true_iff in H as [H1 H2].
      apply negb_true_iff, N.eqb_neq in H1. apply N.leb_le in H2. lia.
    - intros [Hin [n [Hn Hr]]]. split; [exact Hin|]. rewrite Hn.
      apply andb_true_iff. split; [apply negb_true_iff, N.eqb_neq; lia|apply N.leb_le; lia]. }
  destruct (identifyPatterns toFixed1 ls); cbn; split; congruence.
Qed.

End Result.

End ReportFacts.

(** ** The memory index *)

Module IndexFacts.
Import JS JSFacts WeeklySynthesis MemoryIndex.





Lemma setOwn_keeps (obj : list (string * ThemeStat)) (k : string) (st : ThemeStat) :
  inherited k = false -> noInheritedOwn obj = true -> noInheritedOwn (setOwn obj k st) = true.
Proof.
  intros Hk. unfold noInheritedOwn.
  induction obj as [|[k0 v0] rest IH]; cbn [setOwn forallb fst].
  - intros _. now rewrite Hk.
  - intros H. apply andb_true_iff in H as [H0 Hrest].
    destruct (String.eqb k0 k); cbn [forallb fst]; rewrite H0; [exact Hrest|now apply IH].
Qed.

Lemma own_inherited (obj : list (string * ThemeStat)) (t : string) :
  noInheritedOwn obj = true -> inherited t = true -> own obj t = None.
Proof.
  unfold noInheritedOwn, own. intros H Ht.
  induction obj as [|[k0 v0] rest IH]; [reflexivity|].
  cbn [forallb fst] in H. apply andb_true_iff in H as [H0 Hrest].
  cbn [find fst]. destruct (String.eqb_spec k0 t) as [->|_].
  - rewrite Ht in H0. discriminate.
  - now apply IH.
Qed.

Lemma countPatterns_throws (wk : string) (ps : list Pattern) :
  forall obj,
    noInheritedOwn obj = true -> noInheritedTheme ps = false ->
    countPatterns wk obj ps = None.
Proof.
  induction ps as [|p rest IH]; intros obj Hobj H; [discriminate|].
  cbn [noInheritedTheme forallb] in H. cbn [countPatterns]. unfold countPattern.
  destruct (inherited (theme p)) eqn:Ep.
  - now rewrite (own_inherited obj (theme p) Hobj Ep).
  - cbn [negb andb] in H.
    destruct (own obj (theme p)) as [st|]; (apply IH; [apply setOwn_keeps; assumption|exact H]).
Qed.

(** When a theme of the week is the name of an inherited property, such
    as [constructor], and the index holds no own entry under such a
    name, the function throws before it writes: the index file is left
    as it was. *)
Theorem index_rejects_inherited_theme (home : string) (stored : option Index)
        (r : SynthesisResult) (synthesisPath : string) :
  noInheritedTheme (patterns r) = false ->
  noInheritedOwn (ix_patterns (match stored with Some i => i | None => freshIndex end)) = true ->
  updateMemoryIndex home stored r synthesisPath = None.
Proof.
  intros H Hown. unfold updateMemoryIndex.
  now rewrite (countPatterns_throws (weekStart r) (patterns r) _ Hown H).
Qed.




Lemma index_rejects_inherited_theme_witness :
  updateMemoryIndex "/home/u/.claude" None
    (synthesize toFixed1_exact constructorCorpus "2026-02-01" "2026-02-08")
    "/home/u/.claude/MEMORY/LEARNING/SYNTHESIS/2026-02/Weekly-Synthesis-2026-02-08.md"
  = None.
Proof.
  apply (index_rejects_inherited_theme "/home/u/.claude" None
           (synthesize toFixed1_exact constructorCorpus "2026-02-01" "2026-02-08")).
  - vm_compute. reflexivity.
  - reflexivity.
Defined.

End IndexFacts.

(** ** The command line of the search *)

Module ArgsFacts.
Import JS JSFacts MemorySearch SearchArgs.

Section Args.
Variable Date_parse : string -> JSDate.

Lemma parseLoop_parsed (n : nat) :
  forall args q0 t0 s0 q t s,
    List.length args <= n ->
    parseLoop Date_parse args q0 t0 s0 = Parsed q t s ->
    q <> EmptyString
    /\ (q = q0 \/ (In q args /\ startsWith q "--" = false))
    /\ (t = t0 \/ exists ty, t = Some ty /\ In ty typeNames)
    /\ (s = s0 \/ exists ms, s = Some (Some ms)).
Proof.
  induction n as [|n IH]; intros args q0 t0 s0 q t s Hlen.
  - destruct args; [|cbn in Hlen; lia]. cbn [parseLoop].
    destruct (String.eqb_spec q0 ""); [discriminate|]. intros [= <- <- <-]. tauto.
  - destruct args as [|a rest].
    { cbn [parseLoop]. destruct (String.eqb_spec q0 ""); [discriminate|].
      intros [= <- <- <-]. tauto. }
    cbn [List.length] in Hlen.
    assert (Hplain : forall q1,
               startsWith a "--" = false \/ q1 = q0 ->
               (q1 = a \/ q1 = q0) ->
               parseLoop Date_parse rest q1 t0 s0 = Parsed q t s ->
               q <> EmptyString
               /\ (q = q0 \/ (In q (a :: rest) /\ startsWith q "--" = false))
               /\ (t = t0 \/ exists ty, t = Some ty /\ In ty typeNames)
               /\ (s = s0 \/ exists ms, s = Some (Some ms))).
    { intros q1 Hs Hq1 H. apply IH in H; [|lia]. destruct H as [H1 [H2 [H3 H4]]].
      split; [exact H1|]. split; [|split; assumption].
      destruct H2 as [->|[Hin Hst]]; [|right; split; [now right|exact Hst]].
      destruct Hq1 as [-> | ->]; [|now left].
      destruct Hs as [Hs|Hs]; [right; split; [now left|exact Hs]|left; exact Hs]. }
    cbn [parseLoop]. destruct rest as [|v rest'].
    + destruct (startsWith a "--") eqn:Ea; cbn [negb].
      * apply Hplain; [now right|now right].
      * apply Hplain; [now left|now left].
    + destruct (String.eqb a "--type" && negb (String.eqb v "")) eqn:Et.
      { destruct (existsb (String.eqb (toUpperCase v)) typeNames) eqn:Ety; [|discriminate].
        intros H. apply IH in H; [|cbn [List.length] in *; lia].
        destruct H as [H1 [H2 [H3 H4]]]. split; [exact H1|]. split; [|split].
        - destruct H2 as [->|[Hin Hst]]; [now left|]. right. split; [|exact Hst].
          right. now right.
        - right. destruct H3 as [->|H3]; [|exact H3].
          exists (toUpperCase v). split; [reflexivity|]. now apply existsb_eqb_In.
        - exact H4. }
      destruct (String.eqb a "--since" && negb (String.eqb v "")) eqn:Es.
      { destruct (Date_parse v) as [ms|]; [|discriminate].
        intros H. apply IH in H; [|cbn [List.length] in *; lia].
        destruct H as [H1 [H2 [H3 H4]]]. split; [exact H1|]. split; [|split].
        - destruct H2 as [->|[Hin Hst]]; [now left|]. right. split; [|exact Hst].
          right. now right.
        - exact H3.
        - right. destruct H4 as [->|H4]; [|exact H4]. now exists ms. }
      destruct (startsWith a "--") eqn:Ea; cbn [negb].
      * apply Hplain; [now right|now right].
      * apply Hplain; [now left|now left].
Qed.

(** What [parseArgs] returns is fit for the search: the query is a
    non-empty argument that does not start with [--], the type, when
    there is one, is one of the three names in capitals, and the date,
    when there is one, is a valid date. *)
Theorem parsed_args_are_valid (args : list string) (q : string) (t : option string)
        (s : option JSDate) :
  parseArgs Date_parse args = Parsed q t s ->
  q <> EmptyString /\ In q args /\ startsWith q "--" = false
  /\ (forall ty, t = Some ty -> In ty typeNames)
  /\ (forall d, s = Some d -> d <> None).
Proof.
  unfold parseArgs. destruct args as [|a rest]; [discriminate|].
  destruct (String.eqb a "--help" || String.eqb a "-h"); [discriminate|].
  intros H. apply (parseLoop_parsed (List.length (a :: rest))) in H; [|lia].
  destruct H as [H1 [H2 [H3 H4]]]. split; [exact H1|].
  destruct H2 as [->|[Hin Hst]]; [contradiction|].
  split; [exact Hin|]. split; [exact Hst|]. split.
  - intros ty ->. destruct H3 as [H3|[ty' [[= ->] Hin']]]; [discriminate|exact Hin'].
  - intros d ->. destruct H4 as [H4|[ms [= ->]]]; [discriminate|discriminate].
Qed.

Lemma option_is_not_plain (a name : string) :
  startsWith a "--" = false -> startsWith name "--" = true -> String.eqb a name = false.
Proof.
  intros Ha Hn. destruct (String.eqb_spec a name) as [->|_]; [congruence|reflexivity].
Qed.

Lemma last_cons (rest : list string) :
  forall a d, last (a :: rest) d = last rest a.
Proof.
  induction rest as [|v r IH]; intros a d; [reflexivity|].
  change (last (a :: v :: r) d) with (last (v :: r) d). now rewrite !IH.
Qed.

Lemma parseLoop_plain (args : list string) :
  forall q0, plainWords args = true ->
             parseLoop Date_parse args q0 None None
             = if String.eqb (last args q0) "" then Failed NoQuery
               else Parsed (last args q0) None None.
Proof.
  unfold plainWords. induction args as [|a rest IH]; intros q0 H; [reflexivity|].
  cbn [forallb] in H. apply andb_true_iff in H as [Ha Hrest].
  apply negb_true_iff in Ha. cbn [parseLoop].
  rewrite (option_is_not_plain a "--type" Ha eq_refl),
          (option_is_not_plain a "--since" Ha eq_refl), Ha.
  cbn [andb negb]. rewrite (last_cons rest a q0).
  destruct rest as [|v rest']; now rewrite (IH a Hrest).
Qed.

(** Of several words given without options only the last one is
    searched for: the words before it are dropped. *)
Theorem last_word_is_the_query (words : list string) (w : string) :
  plainWords (words ++ [w]) = true ->
  hd w words <> "-h" ->
  w <> EmptyString ->
  parseArgs Date_parse (words ++ [w]) = Parsed w None None.
Proof.
  intros Hp Hh Hw. unfold parseArgs.
  destruct (words ++ [w]) as [|a rest] eqn:E; [now destruct words|].
  assert (Ha : a = hd w words) by (destruct words; cbn in *; congruence).
  assert (Hplain : startsWith a "--" = false).
  { unfold plainWords in Hp. cbn [forallb] in Hp. apply andb_true_iff in Hp as [Hp _].
    now apply negb_true_iff in Hp. }
  rewrite (option_is_not_plain a "--help" Hplain eq_refl).
  destruct (String.eqb_spec a "-h") as [->|_]; [congruence|]. cbn [orb].
  rewrite (parseLoop_plain (a :: rest) "" Hp), <- E, last_last.
  destruct (String.eqb_spec w ""); [contradiction|reflexivity].
Qed.

End Args.

Lemma parsed_args_are_valid_witness :
  "budget" <> EmptyString
  /\ In "budget" ["budget"; "--type"; "work"; "--since"; "2026-01-20"]
  /\ startsWith "budget" "--" = false
  /\ (forall ty, Some "WORK" = Some ty -> In ty typeNames)
  /\ (forall d, Some (isoDate "2026-01-20") = Some d -> d <> None).
Proof.
  apply (parsed_args_are_valid isoDate ["budget"; "--type"; "work"; "--since"; "2026-01-20"]).
  vm_compute. reflexivity.
Defined.

Lemma last_word_is_the_query_witness :
  parseArgs isoDate (["project"] ++ ["proposal"]) = Parsed "proposal" None None.
Proof.
  apply (last_word_is_the_query isoDate ["project"] "proposal").
  - reflexivity.
  - discriminate.
  - discriminate.
Defined.

End ArgsFacts.

(** ** The output of the search *)

Module OutputFacts.
Import JS JSFacts MemorySearch SearchVocabulary SearchFacts SearchOutput.

Section Printing.
Variable MEMORY_DIR : string.
Variable RegExp_gi : string -> Matcher.
Variable readFileSync : string -> option string.
Variable workGlob algoGlob sysGlob : option (list string).
Variable Date_ymd : Z -> Z -> Z -> JSDate.
Variable Date_parse : string -> JSDate.
Variable toISOString : Z -> string.
Variable highlightMatches : string -> string.

Local Abbreviation fileResults := (fileResults MEMORY_DIR readFileSync Date_ymd Date_parse).
Local Abbreviation search := (search MEMORY_DIR RegExp_gi readFileSync workGlob algoGlob sysGlob
                                     Date_ymd Date_parse).
Local Abbreviation extractDate := (extractDate Date_ymd Date_parse).
Local Abbreviation formatResult := (formatResult toISOString highlightMatches).
Local Abbreviation printResults := (printResults toISOString highlightMatches).
Local Abbreviation report := (report toISOString highlightMatches).

Lemma fileResults_timestamp (rx : Matcher) (since : option JSDate) (f : string * MemType)
      (r : SearchResult) :
  In r (fileResults rx since f) -> timestamp r = extractDate (filePath r).
Proof.
  unfold MemorySearch.fileResults, MemorySearch.searchStep. destruct f as [p t].
  destruct (MemorySearch.tooOld Date_ymd Date_parse since p); [intros []|].
  destruct (searchFile readFileSync p rx _) as [ms w1]. destruct ms as [|m ms]; [intros []|].
  destruct (scoreOf rx (m :: ms) 0 (lastIndex w1)) as [sc idx]. cbn [fst snd app].
  now intros [<-|[]].
Qed.

Lemma printResults_crashes (results : list SearchResult) :
  forall out, crashed (printResults results out) = true
              <-> exists r, In r results /\ timestamp r = Some None.
Proof.
  induction results as [|r rest IH]; intros out; cbn [SearchOutput.printResults].
  - split; [discriminate|intros [r [[] _]]].
  - unfold SearchOutput.formatResult. destruct (timestamp r) as [[ms|]|] eqn:E.
    + rewrite IH. split; intros [x [Hx Ht]]; exists x; [split; [now right|exact Ht]|].
      destruct Hx as [<-|Hx]; [congruence|now split].
    + split; [intros _; exists r; split; [now left|exact E]|reflexivity].
    + rewrite IH. split; intros [x [Hx Ht]]; exists x; [split; [now right|exact Ht]|].
      destruct Hx as [<-|Hx]; [congruence|now split].
Qed.

(** The printing of the results of a search ends in an exception
    exactly when one of the files found has in its name a day that is
    not a date: such a file passes every [--since] filter, and its
    timestamp cannot be written. *)
Theorem output_crashes_on_impossible_day (query : string) (typeFilter : option string)
        (since : option JSDate) :
  (crashed (report query (search query typeFilter since)) = true
   <-> exists r, In r (search query typeFilter since)
                 /\ extractDate (filePath r) = Some None)
  /\ (forall r, In r (search query typeFilter None) ->
                extractDate (filePath r) = Some None ->
                In r (search query typeFilter since)).
Proof.
  split.
  - assert (Hts : forall r, In r (search query typeFilter since) ->
                            timestamp r = extractDate (filePath r)).
    { intros r Hr.
      apply (search_In MEMORY_DIR RegExp_gi readFileSync workGlob algoGlob sysGlob
                       Date_ymd Date_parse) in Hr as [f [_ Hr]].
      now apply fileResults_timestamp in Hr. }
    unfold SearchOutput.report.
    destruct (search query typeFilter since) as [|r0 rest] eqn:E.
    + split; [discriminate|intros [r [[] _]]].
    + rewrite printResults_crashes.
      split; intros [r [Hr Ht]]; exists r; (split; [exact Hr|]);
        [rewrite <- (Hts r Hr)|rewrite (Hts r Hr)]; exact Ht.
  - intros r Hr Hd.
    apply (search_In MEMORY_DIR RegExp_gi readFileSync workGlob algoGlob sysGlob
                     Date_ymd Date_parse) in Hr as [f [Hf Hr]].
    apply (search_In MEMORY_DIR RegExp_gi readFileSync workGlob algoGlob sysGlob
                     Date_ymd Date_parse).
    exists f. split; [exact Hf|].
    destruct (fileResults_path MEMORY_DIR readFileSync Date_ymd Date_parse _ _ _ _ Hr)
      as [Hp _].
    rewrite (fileResults_since MEMORY_DIR readFileSync Date_ymd Date_parse); [exact Hr|].
    unfold MemorySearch.tooOld. destruct since as [d|]; [|reflexivity].
    rewrite <- Hp, Hd. reflexivity.
Qed.

End Printing.

(** A learning named after the 45th day of a 13th month is found by a
    search since February and ends the output. *)
Example impossible_day_found_and_fatal :
  map relativePath (oddSearch (Some (isoDate "2026-02-01")))
  = ["LEARNING/ALGORITHM/2026-13-45_odd.md"]
  /\ crashed (report (fun _ => EmptyString) (fun line => line) "foo"
                     (oddSearch (Some (isoDate "2026-02-01")))) = true.
Proof. split; vm_compute; reflexivity. Qed.

End OutputFacts.

(** ** A weekly run *)

Module RunFacts.
Import JS JSFacts WeeklySynthesis MemoryIndex WeeklyRun.

Section Main.
Variable HOME : string.
Variable matchTitle : string -> option string.
Variable matchRating : string -> option N.
Variable formatDate : Z -> string.
Variable localeCompare : string -> string -> Z.
Variable toFixed1 : Q -> string.
Variable Date_parse : string -> JSDate.
Variable now : Z.
Variable weekBefore : JSDate -> JSDate.
Variable fs : LearningFS.
Variable stored : option Index.

Local Abbreviation main :=
  (main HOME matchTitle matchRating formatDate localeCompare toFixed1 Date_parse now
        weekBefore fs stored).


End Main.


(** Three learnings tagged [#constructor]: the document of the week is
    written, the index is not, and the run fails; as a dry run it
    writes nothing. *)
Example constructor_week_half_written :
  map (fun w => match w with
                | SynthesisFile p r => (p, map theme (patterns r))
                | IndexFile i => ("index", map fst (ix_patterns i))
                end) (writes (sampleRun constructorTree []))
  = [("/home/u/.claude/MEMORY/LEARNING/SYNTHESIS/2026-02/Weekly-Synthesis-2026-02-06.md",
      ["constructor"])]
  /\ exitCode (sampleRun constructorTree []) = 1
  /\ writes (sampleRun constructorTree ["--dry-run"]) = [].
Proof. repeat split; vm_compute; reflexivity. Qed.

End RunFacts.

(** ** The state of the current work *)

Module WorkStateFacts.
Import JS JSFacts CurrentWorkManager.

Section Manager.
Variable nowIso : string.

Local Abbreviation addActiveProject := (addActiveProject nowIso).
Local Abbreviation removeActiveProject := (removeActiveProject nowIso).
Local Abbreviation addOpenItem := (addOpenItem nowIso).
Local Abbreviation clearOpenItem := (clearOpenItem nowIso).
Local Abbreviation run := (run nowIso).

Lemma projects_of_state (file : StateFile) :
  activeProjects (getCurrentWorkState nowIso file) = projectsOf file.
Proof. now destruct file. Qed.

Lemma NoDup_app_one (l : list string) (x : string) : NoDup l -> ~ In x l -> NoDup (l ++ [x]).
Proof.
  intros H Hx. apply NoDup_rev in H. rewrite <- (rev_involutive (l ++ [x])).
  apply NoDup_rev. rewrite rev_app_distr. cbn [rev app]. constructor; [|exact H].
  now rewrite <- in_rev.
Qed.

(** The list of active projects holds a project after it has been added
    and holds no project twice if it did not before; adding a project
    that is there writes nothing; removing a project takes out every
    occurrence of it and leaves the other projects in their order. *)
Theorem projects_stay_distinct (file : StateFile) (name : string) :
  In name (projectsOf (addActiveProject file name))
  /\ (NoDup (projectsOf file) -> NoDup (projectsOf (addActiveProject file name)))
  /\ (In name (projectsOf file) -> addActiveProject file name = file)
  /\ addActiveProject (addActiveProject file name) name = addActiveProject file name
  /\ ~ In name (projectsOf (removeActiveProject file name))
  /\ projectsOf (removeActiveProject file name)
     = filter (fun p => negb (String.eqb p name)) (projectsOf file)
  /\ (forall other, other <> name ->
        (In other (projectsOf (removeActiveProject file name)) <-> In other (projectsOf file))).
Proof.
  assert (Hadd : forall f, In name (projectsOf (addActiveProject f name))).
  { intros f. unfold CurrentWorkManager.addActiveProject. rewrite projects_of_state.
    destruct (existsb (String.eqb name) (projectsOf f)) eqn:E.
    - now apply existsb_eqb_In.
    - cbn. apply in_or_app. right. now left. }
  assert (Hsame : forall f, In name (projectsOf f) -> addActiveProject f name = f).
  { intros f Hin. unfold CurrentWorkManager.addActiveProject. rewrite projects_of_state.
    apply existsb_eqb_In in Hin. now rewrite Hin. }
  assert (Hrem : projectsOf (removeActiveProject file name)
                 = filter (fun p => negb (String.eqb p name)) (projectsOf file)).
  { unfold CurrentWorkManager.removeActiveProject. cbn. now rewrite projects_of_state. }
  split; [apply Hadd|]. split; [|split; [apply Hsame|split; [apply Hsame, Hadd|]]].
  - intros Hnd. unfold CurrentWorkManager.addActiveProject. rewrite projects_of_state.
    destruct (existsb (String.eqb name) (projectsOf file)) eqn:E; [exact Hnd|].
    cbn. apply NoDup_app_one; [exact Hnd|]. intros Hin. apply existsb_eqb_In in Hin. congruence.
  - split; [|split; [exact Hrem|]].
    + rewrite Hrem, filter_In. intros [_ H]. now rewrite String.eqb_refl in H.
    + intros other Hne. rewrite Hrem, filter_In. split; [tauto|]. intros H. split; [exact H|].
      apply negb_true_iff. now apply String.eqb_neq.
Qed.

(** A state file that cannot be read is treated as no file: a command
    that writes starts from the empty default state, so that after it
    the file holds nothing of what it held before; the commands that do
    not write leave it as it is. *)
Theorem unreadable_state_is_replaced (args : list string) (text : string)
        (prio : option string) :
  (run args Unreadable = Unreadable \/ run args Unreadable = run args Missing)
  /\ addOpenItem Unreadable text prio = addOpenItem Missing text prio
  /\ projectsOf (addOpenItem Unreadable text prio) = []
  /\ map description (itemsOf (addOpenItem Unreadable text prio)) = [text]
  /\ map priority (itemsOf (addOpenItem Unreadable text prio)) = [Some (orMedium prio)]
  /\ run ["show"] Unreadable = Unreadable.
Proof.
  split; [|now repeat split].
  unfold CurrentWorkManager.run.
  destruct args as [|cmd rest]; [now left|].
  destruct (String.eqb cmd "add-item").
  { destruct rest as [|t r]; [now left|]. destruct (String.eqb t ""); [now left|now right]. }
  destruct (String.eqb cmd "add-project").
  { destruct rest as [|t r]; [now left|]. destruct (String.eqb t ""); [now left|now right]. }
  destruct (String.eqb cmd "update-session"); [|now left].
  destruct rest as [|t r]; [now left|]. destruct (String.eqb t ""); [now left|].
  destruct r; [now left|now right].
Qed.

End Manager.

End WorkStateFacts.
